(** * Real-time event handlers of the collaboration server

    A shallow embedding of the Socket.IO side of the server:
    - [config/socket.config.ts]: the handshake middleware of
      [initializeSocketIO];
    - [events/socket.handler.ts]: class [SocketEvents];
    - [services/business.services.ts]: [MessageService.sendMessage] and
      [ChannelService.getUserChannels];
    - [services/user.service.ts]: [UserService.updateOnlineStatus];
    - [utils/validation.util.ts]: [ValidationUtil.extractMentions].

    Further on come [SocketManager] of [config/socket.config.ts], the
    [authenticate] middleware, [TokenManager] with [config/jwt.config.ts] and
    the key commands of [config/redis.config.ts], the REST side of
    [MessageService] and [ChannelService], and more of [ValidationUtil].

    The repositories sit on TypeORM and the token check on jsonwebtoken and
    Redis.  They are taken as an interface ([Collaborators]) whose every call
    may return or throw; an in-memory instance ([Mem]) is used to run the
    handlers on concrete inputs.

    A handler runs to completion before the next input is taken (the
    interleaving of [await] points of different handlers is not modelled), and
    one server process is modelled (the Redis adapter relays to other
    processes what is emitted here). *)

From Stdlib Require Import ZArith String Ascii List Bool.
From stdpp Require Import base option strings pretty gmap list fin_maps.

Set Warnings "-register-all".
Local Open Scope string_scope.
Local Open Scope list_scope.

(** ** JavaScript values *)

(** The shape of values that reach the handlers in [data: any].  Numbers
    (IEEE doubles) and arrays are left out. *)
Inductive JsVal : Type :=
| JUndefined
| JNull
| JBool (b : bool)
| JStr (s : string)
| JObj (fields : list (string * JsVal)).

(** What [throw] carries: an [Error] object (of any subclass) with its
    [message], or some other value. *)
Inductive JsThrown : Type :=
| ErrorObj (message : string)
| NonError (v : JsVal).

Inductive Result (A : Type) : Type :=
| Ok (a : A)
| Err (e : JsThrown).
Arguments Ok {A} a.
Arguments Err {A} e.

Module Js.

(** [!!v] *)
Definition truthy (v : JsVal) : bool :=
  match v with
  | JUndefined | JNull => false
  | JBool b => b
  | JStr s => negb (String.eqb s "")
  | JObj _ => true
  end.

(** [a || b] *)
Definition or (a b : JsVal) : JsVal := if truthy a then a else b.

(** [`${v}`] *)
Definition to_string (v : JsVal) : string :=
  match v with
  | JUndefined => "undefined"
  | JNull => "null"
  | JBool true => "true"
  | JBool false => "false"
  | JStr s => s
  | JObj _ => "[object Object]"
  end.

Fixpoint assoc (k : string) (fs : list (string * JsVal)) : JsVal :=
  match fs with
  | [] => JUndefined
  | (k', v) :: rest => if String.eqb k k' then v else assoc k rest
  end.

(** [v.k] for a [v] that is neither [undefined] nor [null]. *)
Definition get (k : string) (v : JsVal) : JsVal :=
  match v with
  | JObj fs => assoc k fs
  | _ => JUndefined
  end.

(** The [TypeError] raised by [const { k, ... } = v] on [undefined] and
    [null]; the text is the one of V8. *)
Definition destructure_error (k : string) (v : JsVal) : JsThrown :=
  ErrorObj ("Cannot destructure property '" +:+ k +:+ "' of 'data' as it is "
            +:+ to_string v +:+ ".").

(** [const { k1, ... } = v]: the check made before any property is read;
    [k1] is the first property of the pattern. *)
Definition destructure (k1 : string) (v : JsVal) : Result JsVal :=
  match v with
  | JUndefined | JNull => Err (destructure_error k1 v)
  | _ => Ok v
  end.

(** [s.indexOf(needle)], [-1] when absent. *)
Definition indexOf (needle s : string) : Z :=
  match String.index 0 needle s with
  | Some n => Z.of_nat n
  | None => (-1)%Z
  end.

(** [s.replace(pat, rep)] for a string pattern: the first occurrence only. *)
Definition replace (pat rep s : string) : string :=
  match String.index 0 pat s with
  | Some n =>
      String.substring 0 n s +:+ rep
      +:+ String.substring (n + String.length pat)
            (String.length s - (n + String.length pat)) s
  | None => s
  end.

End Js.

(** ** [ValidationUtil.extractMentions] *)

Module ValidationUtil.

(** The character class [[a-zA-Z0-9_-]]. *)
Definition is_mention_char (c : ascii) : bool :=
  let n := nat_of_ascii c in
  (((97 <=? n) && (n <=? 122)) || ((65 <=? n) && (n <=? 90))
   || ((48 <=? n) && (n <=? 57)) || (n =? 95) || (n =? 45))%nat.

Definition is_at (c : ascii) : bool := (nat_of_ascii c =? 64)%nat.

(** One left-to-right pass of [/@([a-zA-Z0-9_-]{3,30})/g].  [cur] is [None]
    outside a candidate and [Some acc] after an [@], [acc] holding the class
    characters read since, most recent first.  A candidate ends at the first
    character outside the class or after 30 characters, and is a match when
    it has at least 3. *)
Fixpoint scan (cur : option (list ascii)) (s : list ascii) : list string :=
  let close (acc : list ascii) : list string :=
    if (3 <=? length acc)%nat then [string_of_list_ascii (rev acc)] else [] in
  let restart (c : ascii) : option (list ascii) :=
    if is_at c then Some [] else None in
  match s with
  | [] => match cur with Some acc => close acc | None => [] end
  | c :: rest =>
      match cur with
      | None => scan (restart c) rest
      | Some acc =>
          if is_mention_char c && (length acc <? 30)%nat
          then scan (Some (c :: acc)) rest
          else close acc ++ scan (restart c) rest
      end
  end.

(** [text.match(mentionRegex)] then [m.substring(1)] on each match;
    [match] returns [null] when there is none, which gives [[]]. *)
Definition extractMentions (text : string) : list string :=
  scan None (list_ascii_of_string text).

End ValidationUtil.

(** ** Records exchanged with the collaborators *)

(** [JWTPayload] of [config/jwt.config.ts], as [verifyToken] returns it. *)
Record JWTPayload : Type := {
  jwt_userId : string;
  jwt_email : string;
  jwt_username : string;
  jwt_role : string;
}.

(** [socket.user] of [SocketWithAuth]. *)
Record SocketUser : Type := {
  su_id : string;
  su_email : string;
  su_username : string;
  su_role : string;
}.

(** [SocketWithAuth]: a Socket.IO socket with the two optional properties the
    handshake middleware sets. *)
Record SocketWithAuth : Type := {
  sock_id : string;
  sock_userId : option string;
  sock_user : option SocketUser;
}.

(** The part of [socket.handshake] the middleware reads: [auth.token] and
    [headers.authorization]. *)
Record Handshake : Type := {
  hs_auth_token : JsVal;
  hs_authorization : option string;
}.

(** The argument of [messageRepository.create]. *)
Record MessageInput : Type := {
  mi_senderId : JsVal;
  mi_channelId : JsVal;
  mi_content : JsVal;
  mi_type : JsVal;
}.

(** The saved [Message] entity. *)
Record Message : Type := {
  msg_id : string;
  msg_senderId : JsVal;
  msg_channelId : JsVal;
  msg_content : JsVal;
  msg_type : JsVal;
}.

Record User : Type := {
  user_id : string;
  user_username : string;
}.

Record Channel : Type := {
  channel_id : string;
}.

(** The argument of [mentionRepository.create]. *)
Record MentionInput : Type := {
  mn_messageId : string;
  mn_mentionedUserId : string;
  mn_mentionedById : JsVal;
  mn_type : string;
  mn_mentionText : string;
  mn_positionStart : Z;
  mn_positionEnd : Z;
}.

(** ** Collaborators *)

(** The calls that leave the process, as they appear in the trace. *)
Inductive Call : Type :=
| VerifyToken (token : JsVal)
| IsUserMember (channelId userId : JsVal)
| FindUserChannels (userId : JsVal)
| IncrementMessageCount (channelId : JsVal)
| MessageCreate (input : MessageInput)
| FindByUsername (username : string)
| UpdateOnlineStatus (userId : JsVal) (isOnline : bool)
| MentionCreate (input : MentionInput).

(** The repositories and the token check over a store [DB].  Every call gets
    the store and gives back the store and either a value or what it threw.
    Each repository method of the source only logs and rethrows what TypeORM
    throws, so one function stands for the method. *)
Class Collaborators (DB : Type) : Type := {
  verifyToken : JsVal -> DB -> DB * Result JWTPayload;
  isUserMember : JsVal -> JsVal -> DB -> DB * Result bool;
  findUserChannels : JsVal -> DB -> DB * Result (list Channel);
  incrementMessageCount : JsVal -> DB -> DB * Result unit;
  messageCreate : MessageInput -> DB -> DB * Result Message;
  findByUsername : string -> DB -> DB * Result (option User);
  updateOnlineStatus : JsVal -> bool -> DB -> DB * Result unit;
  mentionCreate : MentionInput -> DB -> DB * Result unit;
}.

(** ** Server state and what a handler leaves behind *)

(** What goes out with [emit(name, payload)]. *)
Inductive Payload : Type :=
| PObj (fields : list (string * JsVal))
| PEntity (m : Message)
| PStamped (fields : list (string * JsVal)) (timestamp : Z).

(** [Called c None]: the call [c] returned; [Called c (Some e)]: it threw [e]. *)
Inductive Effect : Type :=
| Called (c : Call) (threw : option JsThrown)
| Emitted (recipients : gset string) (name : string) (payload : Payload).

(** [sockets]: the connected sockets of the namespace, by id.  [rooms]: the
    adapter's [Map<Room, Set<SocketId>>], without the room each socket has
    under its own id (the handlers name rooms [user:...] and [channel:...]
    only).  [clock]: what [new Date()] reads. *)
Record Server (DB : Type) : Type := {
  db : DB;
  sockets : gmap string SocketWithAuth;
  rooms : gmap string (gset string);
  clock : Z;
}.
Arguments db {DB} _.
Arguments sockets {DB} _.
Arguments rooms {DB} _.
Arguments clock {DB} _.

(** [socket.userId!] *)
Definition nonnull (o : option string) : JsVal :=
  match o with
  | Some s => JStr s
  | None => JUndefined
  end.

(** [error instanceof Error ? error.message : fallback] *)
Definition message_of (fallback : string) (e : JsThrown) : string :=
  match e with
  | ErrorObj m => m
  | NonError _ => fallback
  end.

(** The [TypeError] of [text.match(...)] on a [text] that is not a string. *)
Definition match_type_error (v : JsVal) : JsThrown :=
  match v with
  | JUndefined | JNull =>
      ErrorObj ("Cannot read properties of " +:+ Js.to_string v
                +:+ " (reading 'match')")
  | _ => ErrorObj "text.match is not a function"
  end.

Section Handlers.

Context {DB : Type} `{!Collaborators DB}.

(** *** A state, trace and exception monad *)

Definition M (A : Type) : Type :=
  Server DB -> Server DB * list Effect * Result A.

Definition ret {A} (a : A) : M A := fun st => (st, [], Ok a).

Definition throw {A} (e : JsThrown) : M A := fun st => (st, [], Err e).

Definition bind {A B} (m : M A) (k : A -> M B) : M B :=
  fun st =>
    let '(st1, t1, r) := m st in
    match r with
    | Err e => (st1, t1, Err e)
    | Ok a => let '(st2, t2, r2) := k a st1 in (st2, t1 ++ t2, r2)
    end.

(** [try { m } catch (error) { h error }] *)
Definition try_catch {A} (m : M A) (h : JsThrown -> M A) : M A :=
  fun st =>
    let '(st1, t1, r) := m st in
    match r with
    | Ok a => (st1, t1, Ok a)
    | Err e => let '(st2, t2, r2) := h e st1 in (st2, t1 ++ t2, r2)
    end.

Definition lift {A} (r : Result A) : M A := fun st => (st, [], r).

Notation "x <- c1 ;; c2" := (bind c1 (fun x => c2))
  (at level 100, c1 at next level, right associativity).
Notation "c1 ;;; c2" := (bind c1 (fun _ => c2))
  (at level 100, right associativity).

(** [for (const x of xs) { await body x }] *)
Fixpoint for_each {A} (xs : list A) (body : A -> M unit) : M unit :=
  match xs with
  | [] => ret tt
  | x :: rest => body x ;;; for_each rest body
  end.

(** [await collaborator(...)] *)
Definition call {A} (c : Call) (f : DB -> DB * Result A) : M A :=
  fun st =>
    let '(d, r) := f (db st) in
    ({| db := d; sockets := sockets st; rooms := rooms st; clock := clock st |},
     [Called c (match r with Ok _ => None | Err e => Some e end)], r).

(** *** Socket.IO primitives *)

Definition members (room : string) (st : Server DB) : gset string :=
  rooms st !!! room.

(** [io.emit(name, payload)]: every connected socket. *)
Definition io_emit (name : string) (payload : Payload) : M unit :=
  fun st => (st, [Emitted (dom (sockets st)) name payload], Ok tt).

(** [io.to(room).emit(name, payload)]: every socket in the room. *)
Definition io_to_emit (room name : string) (payload : Payload) : M unit :=
  fun st => (st, [Emitted (members room st) name payload], Ok tt).

(** [socket.to(room).emit(name, payload)]: the room but the socket itself. *)
Definition socket_to_emit (socket : SocketWithAuth) (room name : string)
    (payload : Payload) : M unit :=
  fun st =>
    (st, [Emitted (members room st ∖ {[sock_id socket]}) name payload], Ok tt).

(** [socket.emit(name, payload)] *)
Definition socket_emit (socket : SocketWithAuth) (name : string)
    (payload : Payload) : M unit :=
  fun st => (st, [Emitted {[sock_id socket]} name payload], Ok tt).

Definition set_rooms (r : gmap string (gset string)) (st : Server DB) : Server DB :=
  {| db := db st; sockets := sockets st; rooms := r; clock := clock st |}.

Definition set_sockets (s : gmap string SocketWithAuth) (st : Server DB) : Server DB :=
  {| db := db st; sockets := s; rooms := rooms st; clock := clock st |}.

(** [socket.join(room)]: [Set.add] on the room's set. *)
Definition socket_join (socket : SocketWithAuth) (room : string) : M unit :=
  fun st =>
    (set_rooms (<[room := {[sock_id socket]} ∪ members room st]> (rooms st)) st,
     [], Ok tt).

(** [socket.leave(room)]: [Set.delete]; the adapter drops a room that
    becomes empty. *)
Definition socket_leave (socket : SocketWithAuth) (room : string) : M unit :=
  fun st =>
    let s := members room st ∖ {[sock_id socket]} in
    (set_rooms (if decide (s = ∅) then delete room (rooms st)
                else <[room := s]> (rooms st)) st,
     [], Ok tt).

(** [new Date()] *)
Definition new_Date : M Z := fun st => (st, [], Ok (clock st)).


(** *** [services/business.services.ts] and [config/socket.config.ts] *)

(** [socketManager.emitToChannel]: [getIO()] gives the server that
    [App.initializeSocketIO] set before any connection is taken. *)
Definition emitToChannel (channelId : JsVal) (event : string) (data : Payload)
    : M unit :=
  io_to_emit ("channel:" +:+ Js.to_string channelId) event data.

(** The body of the loop [for (const username of mentions)] of
    [sendMessage], [text] being the [content]. *)
Definition createMention (senderId : JsVal) (text : string) (message : Message)
    (username : string) : M unit :=
  mentionedUser <- call (FindByUsername username) (findByUsername username) ;;
  match mentionedUser with
  | Some u =>
      let mention :=
        {| mn_messageId := msg_id message;
           mn_mentionedUserId := user_id u;
           mn_mentionedById := senderId;
           mn_type := "user";
           mn_mentionText := "@" +:+ username;
           mn_positionStart := Js.indexOf ("@" +:+ username) text;
           mn_positionEnd :=
             (Js.indexOf ("@" +:+ username) text
              + Z.of_nat (String.length username) + 1)%Z |} in
      call (MentionCreate mention) (mentionCreate mention)
  | None => ret tt
  end.

(** [MessageService.sendMessage] *)
Definition sendMessage (senderId channelId content type : JsVal) : M Message :=
  let type := match type with JUndefined => JStr "text" | _ => type end in
  isMember <- call (IsUserMember channelId senderId)
                   (isUserMember channelId senderId) ;;
  if negb isMember then throw (ErrorObj "Not a member of this channel") else
  let input := {| mi_senderId := senderId; mi_channelId := channelId;
                  mi_content := content; mi_type := type |} in
  message <- call (MessageCreate input) (messageCreate input) ;;
  match content with
  | JStr text =>
      for_each (ValidationUtil.extractMentions text)
        (createMention senderId text message)
  | _ => throw (match_type_error content)
  end ;;;
  call (IncrementMessageCount channelId) (incrementMessageCount channelId) ;;;
  emitToChannel channelId "message:new" (PEntity message) ;;;
  ret message.

(** [ChannelService.getUserChannels] *)
Definition getUserChannels (userId : JsVal) : M (list Channel) :=
  call (FindUserChannels userId) (findUserChannels userId).

(** [UserService.updateOnlineStatus] *)
Definition userService_updateOnlineStatus (userId : JsVal) (isOnline : bool)
    : M unit :=
  call (UpdateOnlineStatus userId isOnline) (updateOnlineStatus userId isOnline).

(** *** [events/socket.handler.ts] *)

Definition error_payload (event fallback : string) (error : JsThrown) : Payload :=
  PObj [("event", JStr event); ("message", JStr (message_of fallback error))].

Definition handleConnection (socket : SocketWithAuth) : M unit :=
  let userId := nonnull (sock_userId socket) in
  socket_join socket ("user:" +:+ Js.to_string userId) ;;;
  userService_updateOnlineStatus userId true ;;;
  channels <- getUserChannels userId ;;
  for_each channels (fun channel =>
    socket_join socket ("channel:" +:+ channel_id channel)) ;;;
  io_emit "user:online" (PObj [("userId", userId)]).

Definition handleDisconnect (socket : SocketWithAuth) : M unit :=
  let userId := nonnull (sock_userId socket) in
  userService_updateOnlineStatus userId false ;;;
  io_emit "user:offline" (PObj [("userId", userId)]).

Definition handleSendMessage_body (socket : SocketWithAuth) (data : JsVal)
    : M unit :=
  let userId := nonnull (sock_userId socket) in
  d <- lift (Js.destructure "channelId" data) ;;
  let channelId := Js.get "channelId" d in
  let content := Js.get "content" d in
  let type := Js.get "type" d in
  message <- sendMessage userId channelId content type ;;
  io_to_emit ("channel:" +:+ Js.to_string channelId) "message:new"
    (PEntity message).

Definition handleSendMessage (socket : SocketWithAuth) (data : JsVal) : M unit :=
  try_catch (handleSendMessage_body socket data)
    (fun error =>
       socket_emit socket "error"
         (error_payload "message:send" "Failed to send message" error)).

Definition handleTyping (socket : SocketWithAuth) (data : JsVal) : M unit :=
  let userId := nonnull (sock_userId socket) in
  d <- lift (Js.destructure "channelId" data) ;;
  let channelId := Js.get "channelId" d in
  let isTyping := Js.get "isTyping" d in
  socket_to_emit socket ("channel:" +:+ Js.to_string channelId) "user:typing"
    (PObj [("userId", userId); ("channelId", channelId); ("isTyping", isTyping)]).

Definition handleMessageRead (socket : SocketWithAuth) (data : JsVal) : M unit :=
  let userId := nonnull (sock_userId socket) in
  d <- lift (Js.destructure "messageId" data) ;;
  let messageId := Js.get "messageId" d in
  let channelId := Js.get "channelId" d in
  socket_to_emit socket ("channel:" +:+ Js.to_string channelId) "message:read"
    (PObj [("userId", userId); ("messageId", messageId)]).

Definition handleJoinChannel_body (socket : SocketWithAuth) (data : JsVal)
    : M unit :=
  d <- lift (Js.destructure "channelId" data) ;;
  let channelId := Js.get "channelId" d in
  socket_join socket ("channel:" +:+ Js.to_string channelId) ;;;
  socket_emit socket "channel:joined" (PObj [("channelId", channelId)]).

Definition handleJoinChannel (socket : SocketWithAuth) (data : JsVal) : M unit :=
  try_catch (handleJoinChannel_body socket data)
    (fun error =>
       socket_emit socket "error"
         (error_payload "channel:join" "Failed to join channel" error)).

Definition handleLeaveChannel_body (socket : SocketWithAuth) (data : JsVal)
    : M unit :=
  d <- lift (Js.destructure "channelId" data) ;;
  let channelId := Js.get "channelId" d in
  socket_leave socket ("channel:" +:+ Js.to_string channelId) ;;;
  socket_emit socket "channel:left" (PObj [("channelId", channelId)]).

Definition handleLeaveChannel (socket : SocketWithAuth) (data : JsVal) : M unit :=
  try_catch (handleLeaveChannel_body socket data)
    (fun error =>
       socket_emit socket "error"
         (error_payload "channel:leave" "Failed to leave channel" error)).

Definition handlePresenceUpdate (socket : SocketWithAuth) (data : JsVal)
    : M unit :=
  let userId := nonnull (sock_userId socket) in
  d <- lift (Js.destructure "status" data) ;;
  let status := Js.get "status" d in
  timestamp <- new_Date ;;
  io_emit "user:presence"
    (PStamped [("userId", userId); ("status", status)] timestamp).

(** [registerEvents]: [handleConnection] runs at once; the listeners it
    installs with [socket.on] are [dispatch] and [disconnection] below. *)
Definition registerEvents (socket : SocketWithAuth) : M unit :=
  handleConnection socket.

(** The listener that [socket.on(name, ...)] installed for [name]; a packet
    with another name has no listener. *)
Definition dispatch (socket : SocketWithAuth) (name : string) (data : JsVal)
    : M unit :=
  if String.eqb name "message:send" then handleSendMessage socket data
  else if String.eqb name "message:typing" then handleTyping socket data
  else if String.eqb name "message:read" then handleMessageRead socket data
  else if String.eqb name "channel:join" then handleJoinChannel socket data
  else if String.eqb name "channel:leave" then handleLeaveChannel socket data
  else if String.eqb name "presence:update" then handlePresenceUpdate socket data
  else ret tt.

(** *** The handshake middleware of [initializeSocketIO] *)

(** What the middleware passes to [next]. *)
Inductive Next : Type :=
| NextOk (socket : SocketWithAuth)
| NextError (message : string).

(** [socket.handshake.auth.token ||
     socket.handshake.headers.authorization?.replace('Bearer ', '')] *)
Definition handshake_token (hs : Handshake) : JsVal :=
  Js.or (hs_auth_token hs)
    (match hs_authorization hs with
     | Some h => JStr (Js.replace "Bearer " "" h)
     | None => JUndefined
     end).

Definition authMiddleware (socket : SocketWithAuth) (hs : Handshake) : M Next :=
  try_catch
    (let token := handshake_token hs in
     if negb (Js.truthy token)
     then ret (NextError "Authentication token is required")
     else
       decoded <- call (VerifyToken token) (verifyToken token) ;;
       ret (NextOk {| sock_id := sock_id socket;
                      sock_userId := Some (jwt_userId decoded);
                      sock_user := Some {| su_id := jwt_userId decoded;
                                           su_email := jwt_email decoded;
                                           su_username := jwt_username decoded;
                                           su_role := jwt_role decoded |} |}))
    (fun _ => ret (NextError "Authentication failed")).

(** *** The server as a transition system *)

(** On [disconnect] Socket.IO takes the socket out of every room and out of
    the namespace before the listeners run. *)
Definition leave_all (sid : string) (r : gmap string (gset string))
    : gmap string (gset string) :=
  omap (fun s : gset string =>
          let s' := s ∖ {[sid]} in
          if decide (s' = ∅) then None else Some s') r.

Definition add_socket (socket : SocketWithAuth) : M unit :=
  fun st => (set_sockets (<[sock_id socket := socket]> (sockets st)) st, [], Ok tt).

Definition remove_socket (socket : SocketWithAuth) : M unit :=
  fun st =>
    (set_sockets (delete (sock_id socket) (sockets st))
       (set_rooms (leave_all (sock_id socket) (rooms st)) st), [], Ok tt).

(** A client connects with id [sid]: the middleware runs on the new socket;
    on [next(err)] the connection is refused and no [connection] listener
    runs; on [next()] the socket enters the namespace and [App]'s
    [connection] listener calls [registerEvents]. *)
Definition connection (sid : string) (hs : Handshake) : M unit :=
  n <- authMiddleware {| sock_id := sid; sock_userId := None; sock_user := None |} hs ;;
  match n with
  | NextError _ => ret tt
  | NextOk socket => add_socket socket ;;; registerEvents socket
  end.

Definition disconnection (socket : SocketWithAuth) : M unit :=
  remove_socket socket ;;; handleDisconnect socket.

Inductive Input : Type :=
| Connect (sid : string) (hs : Handshake)
| Packet (sid : string) (name : string) (data : JsVal)
| Disconnect (sid : string).

(** Packets and disconnects reach the listeners of connected sockets only,
    and Socket.IO fires [disconnect] once per socket.  A result [Err] is a
    rejection or exception no handler caught: it reaches the process-level
    handlers of [error.middleware.ts], which exit the process. *)
Definition step (i : Input) : M unit :=
  fun st =>
    match i with
    | Connect sid hs => connection sid hs st
    | Packet sid name data =>
        match sockets st !! sid with
        | Some socket => dispatch socket name data st
        | None => ret tt st
        end
    | Disconnect sid =>
        match sockets st !! sid with
        | Some socket => disconnection socket st
        | None => ret tt st
        end
    end.

Definition run (inputs : list Input) : M unit := for_each inputs step.

(** *** Reading a result *)

Definition state_of {A} (x : Server DB * list Effect * Result A) : Server DB :=
  x.1.1.
Definition trace_of {A} (x : Server DB * list Effect * Result A) : list Effect :=
  x.1.2.
Definition result_of {A} (x : Server DB * list Effect * Result A) : Result A :=
  x.2.

(** The socket [sid] got the event [name] with [payload]. *)
Definition delivered (sid name : string) (payload : Payload) (t : list Effect)
    : Prop :=
  ∃ to, Emitted to name payload ∈ t ∧ sid ∈ to.

(** The socket [sid] got some event called [name]. *)
Definition received (sid name : string) (t : list Effect) : Prop :=
  ∃ to payload, Emitted to name payload ∈ t ∧ sid ∈ to.

(** The arguments of the [messageRepository.create] calls of a trace, with
    whether each returned. *)
Fixpoint creates (t : list Effect) : list (MessageInput * bool) :=
  match t with
  | [] => []
  | Called (MessageCreate input) threw :: rest =>
      (input, bool_decide (threw = None)) :: creates rest
  | _ :: rest => creates rest
  end.

(** Every collaborator call of the trace returned. *)
Definition all_returned (t : list Effect) : bool :=
  forallb (fun e => match e with Called _ (Some _) => false | _ => true end) t.

(** The text each [catch] block falls back to. *)
Definition fallback_of (name : string) : string :=
  if String.eqb name "message:send" then "Failed to send message"
  else if String.eqb name "channel:join" then "Failed to join channel"
  else "Failed to leave channel".

(** The argument [sendMessage] hands to [messageRepository.create] for a
    [message:send] payload. *)
Definition input_of (socket : SocketWithAuth) (data : JsVal) : MessageInput :=
  {| mi_senderId := nonnull (sock_userId socket);
     mi_channelId := Js.get "channelId" data;
     mi_content := Js.get "content" data;
     mi_type := match Js.get "type" data with
                | JUndefined => JStr "text"
                | v => v
                end |}.

Definition room_of (data : JsVal) : string :=
  "channel:" +:+ Js.to_string (Js.get "channelId" data).

(** *** Vocabulary of the proofs *)

(** Computations that throw only what a collaborator threw.
    [quiet P m]: [m] keeps the sockets, the rooms and the clock, leaves
    only effects satisfying [P], returns when all its calls return, and
    throws what the call that threw has thrown. *)
Definition quiet {A} (P : Effect -> bool) (m : M A) : Prop :=
  ∀ st,
    sockets (state_of (m st)) = sockets st
    ∧ rooms (state_of (m st)) = rooms st
    ∧ clock (state_of (m st)) = clock st
    ∧ forallb P (trace_of (m st)) = true
    ∧ (all_returned (trace_of (m st)) = true → ∃ a, result_of (m st) = Ok a)
    ∧ (∀ c e, Called c (Some e) ∈ trace_of (m st) → result_of (m st) = Err e).

(** The effects [sendMessage] leaves between [create] and its emit. *)
Definition after_create (e : Effect) : bool :=
  match e with
  | Called (FindByUsername _) _ | Called (MentionCreate _) _
  | Called (IncrementMessageCount _) _ => true
  | _ => false
  end.

(** [m] leaves the sockets of the namespace as they are. *)
Definition keeps_sockets {A} (m : M A) : Prop :=
  ∀ st, sockets (state_of (m st)) = sockets st.

End Handlers.

(** ** An in-memory instance of the collaborators *)

Module Mem.

(** The tables the handlers reach, and which calls throw ([mdb_fault]). *)
Record MemDB : Type := {
  mdb_tokens : gmap string JWTPayload;
  mdb_members : list (string * string);
  mdb_users : list User;
  mdb_online : gmap string bool;
  mdb_messages : list Message;
  mdb_mentions : list MentionInput;
  mdb_message_count : gmap string nat;
  mdb_fault : Call -> option JsThrown;
}.

(** A call throws what [mdb_fault] says, if anything, and else runs. *)
Definition guarded {A} (c : Call) (f : MemDB -> MemDB * Result A) (d : MemDB)
    : MemDB * Result A :=
  match mdb_fault d c with
  | Some e => (d, Err e)
  | None => f d
  end.

(** [jwt.verify] accepts the tokens of [mdb_tokens]; [verifyAccessToken]
    turns its [JsonWebTokenError] into [Error('Invalid token')]. *)
Definition mem_verifyToken (token : JsVal) (d : MemDB) : MemDB * Result JWTPayload :=
  match token with
  | JStr t =>
      match mdb_tokens d !! t with
      | Some payload => (d, Ok payload)
      | None => (d, Err (ErrorObj "Invalid token"))
      end
  | _ => (d, Err (ErrorObj "Invalid token"))
  end.

Definition pair_eqb (a b : string * string) : bool :=
  String.eqb a.1 b.1 && String.eqb a.2 b.2.

(** [getCount() > 0] over the join of a channel with its members. *)
Definition mem_isUserMember (channelId userId : JsVal) (d : MemDB)
    : MemDB * Result bool :=
  match channelId, userId with
  | JStr c, JStr u => (d, Ok (existsb (pair_eqb (c, u)) (mdb_members d)))
  | _, _ => (d, Ok false)
  end.

(** The channels the user is a member of (all channels of the deployment
    are active and not archived). *)
Definition mem_findUserChannels (userId : JsVal) (d : MemDB)
    : MemDB * Result (list Channel) :=
  match userId with
  | JStr u =>
      (d, Ok (map (fun cu : string * string => {| channel_id := cu.1 |})
                (List.filter (fun cu : string * string => String.eqb cu.2 u)
                   (mdb_members d))))
  | _ => (d, Ok [])
  end.

Definition mem_incrementMessageCount (channelId : JsVal) (d : MemDB)
    : MemDB * Result unit :=
  match channelId with
  | JStr c =>
      ({| mdb_tokens := mdb_tokens d; mdb_members := mdb_members d;
          mdb_users := mdb_users d; mdb_online := mdb_online d;
          mdb_messages := mdb_messages d; mdb_mentions := mdb_mentions d;
          mdb_message_count :=
            <[c := S (default 0 (mdb_message_count d !! c))]> (mdb_message_count d);
          mdb_fault := mdb_fault d |}, Ok tt)
  | _ => (d, Ok tt)
  end.

(** [repository.save]: the row gets a fresh id and is returned. *)
Definition mem_messageCreate (input : MessageInput) (d : MemDB)
    : MemDB * Result Message :=
  let m := {| msg_id := "m" +:+ pretty (length (mdb_messages d));
              msg_senderId := mi_senderId input;
              msg_channelId := mi_channelId input;
              msg_content := mi_content input;
              msg_type := mi_type input |} in
  ({| mdb_tokens := mdb_tokens d; mdb_members := mdb_members d;
      mdb_users := mdb_users d; mdb_online := mdb_online d;
      mdb_messages := m :: mdb_messages d; mdb_mentions := mdb_mentions d;
      mdb_message_count := mdb_message_count d;
      mdb_fault := mdb_fault d |}, Ok m).

Definition mem_findByUsername (username : string) (d : MemDB)
    : MemDB * Result (option User) :=
  (d, Ok (List.find (fun u => String.eqb (user_username u) username) (mdb_users d))).

(** [repository.update(userId, { isOnline, ... })]: an SQL [UPDATE], which
    touches the row of [userId] if there is one. *)
Definition mem_updateOnlineStatus (userId : JsVal) (isOnline : bool) (d : MemDB)
    : MemDB * Result unit :=
  match userId with
  | JStr u =>
      match mdb_online d !! u with
      | Some _ =>
          ({| mdb_tokens := mdb_tokens d; mdb_members := mdb_members d;
              mdb_users := mdb_users d;
              mdb_online := <[u := isOnline]> (mdb_online d);
              mdb_messages := mdb_messages d; mdb_mentions := mdb_mentions d;
              mdb_message_count := mdb_message_count d;
              mdb_fault := mdb_fault d |}, Ok tt)
      | None => (d, Ok tt)
      end
  | _ => (d, Ok tt)
  end.

Definition mem_mentionCreate (input : MentionInput) (d : MemDB)
    : MemDB * Result unit :=
  ({| mdb_tokens := mdb_tokens d; mdb_members := mdb_members d;
      mdb_users := mdb_users d; mdb_online := mdb_online d;
      mdb_messages := mdb_messages d; mdb_mentions := input :: mdb_mentions d;
      mdb_message_count := mdb_message_count d;
      mdb_fault := mdb_fault d |}, Ok tt).

#[export] Instance mem_collaborators : Collaborators MemDB := {
  verifyToken token := guarded (VerifyToken token) (mem_verifyToken token);
  isUserMember c u := guarded (IsUserMember c u) (mem_isUserMember c u);
  findUserChannels u := guarded (FindUserChannels u) (mem_findUserChannels u);
  incrementMessageCount c :=
    guarded (IncrementMessageCount c) (mem_incrementMessageCount c);
  messageCreate i := guarded (MessageCreate i) (mem_messageCreate i);
  findByUsername n := guarded (FindByUsername n) (mem_findByUsername n);
  updateOnlineStatus u b :=
    guarded (UpdateOnlineStatus u b) (mem_updateOnlineStatus u b);
  mentionCreate i := guarded (MentionCreate i) (mem_mentionCreate i);
}.

(** The stored presence of a user: the [is_online] column. *)
Definition stored_online (u : string) (st : Server MemDB) : option bool :=
  mdb_online (db st) !! u.

(** The live connections of a user. *)
Definition connections_of (u : string) (st : Server MemDB)
    : gmap string SocketWithAuth :=
  filter (fun kv : string * SocketWithAuth => sock_userId kv.2 = Some u) (sockets st).

Definition connectionCount (u : string) (st : Server MemDB) : nat :=
  size (connections_of u st).

Definition no_fault (c : Call) : option JsThrown := None.

Definition payload_of (u e n : string) : JWTPayload :=
  {| jwt_userId := u; jwt_email := e; jwt_username := n; jwt_role := "user" |}.

(** A small deployment: users [u1] (alice) and [u2] (bob), both members of
    channel [r1]; [u2] alone is a member of [r2]; nobody is connected. *)
Definition db0 (fault : Call -> option JsThrown) : MemDB :=
  {| mdb_tokens := {[ "tok-alice" := payload_of "u1" "alice@example.org" "alice";
                      "tok-bob" := payload_of "u2" "bob@example.org" "bob" ]};
     mdb_members := [("r1", "u1"); ("r1", "u2"); ("r2", "u2")];
     mdb_users := [ {| user_id := "u1"; user_username := "alice" |};
                    {| user_id := "u2"; user_username := "bob" |} ];
     mdb_online := {[ "u1" := false; "u2" := false ]};
     mdb_messages := [];
     mdb_mentions := [];
     mdb_message_count := ∅;
     mdb_fault := fault |}.

Definition server0 (fault : Call -> option JsThrown) : Server MemDB :=
  {| db := db0 fault; sockets := ∅; rooms := ∅; clock := 1000 |}.

Definition with_token (t : string) : Handshake :=
  {| hs_auth_token := JStr t; hs_authorization := None |}.

Definition obj_send (channelId content : string) : JsVal :=
  JObj [("channelId", JStr channelId); ("content", JStr content);
        ("type", JStr "text")].

(** *** What the claims on presence and sending say *)

Definition fault_free (st : Server MemDB) : Prop :=
  ∀ c, mdb_fault (db st) c = None.

(** The stored status is offline exactly when no connection is live. *)
Definition presence_matches (u : string) (st : Server MemDB) : Prop :=
  stored_online u st = Some false ↔ connectionCount u st = 0.

(** The presence the store displays for a user: the store has the
    [is_online] column and nothing else on presence. *)
Definition tracked_status (u : string) (st : Server MemDB) : option string :=
  match stored_online u st with
  | Some true => Some "online"
  | Some false => Some "offline"
  | None => None
  end.

(** An input that keeps user [u] to one connection at a time: socket ids
    are fresh, and a handshake that authenticates as [u] comes when [u] has
    no live connection. *)
Definition one_at_a_time (u : string) (i : Input) (st : Server MemDB) : Prop :=
  match i with
  | Connect sid hs =>
      sockets st !! sid = None
      ∧ ∀ decoded d,
          verifyToken (handshake_token hs) (db st) = (d, Ok decoded) →
          jwt_userId decoded = u → connectionCount u st = 0
  | _ => True
  end.

(** The states reached from a start where [u] has a user row, is stored
    offline and nobody is connected, while no call fails and [u] is kept to
    one connection at a time. *)
Inductive single_session (u : string) : Server MemDB -> Prop :=
| single_start st :
    fault_free st → sockets st = ∅ → stored_online u st = Some false →
    single_session u st
| single_step st i :
    single_session u st → one_at_a_time u i st →
    single_session u (state_of (step i st)).

(** Some socket is sent [user:offline] for user [u]. *)
Definition offline_emitted (u : string) (t : list Effect) : Prop :=
  ∃ to, Emitted to "user:offline" (PObj [("userId", JStr u)]) ∈ t.

(** C4 as it is worded: one message is stored and every socket of the room
    gets it as [message:new]. *)
Definition stores_and_broadcasts (socket : SocketWithAuth) (data : JsVal)
    (st : Server MemDB) : Prop :=
  let r := handleSendMessage socket data st in
  ∃ m, creates (trace_of r) = [(input_of socket data, true)]
       ∧ ∀ sid, sid ∈ members (room_of data) st →
           delivered sid "message:new" (PEntity m) (trace_of r).

(** Alice's socket, as the middleware lets it through. *)
Definition alice_socket (sid : string) : SocketWithAuth :=
  {| sock_id := sid; sock_userId := Some "u1";
     sock_user := Some {| su_id := "u1"; su_email := "alice@example.org";
                          su_username := "alice"; su_role := "user" |} |}.

(** The deployment with the two users connected, alice on socket [A] and
    bob on socket [B]. *)
Definition both_connected (fault : Call -> option JsThrown) : Server MemDB :=
  state_of (run [Connect "A" (with_token "tok-alice");
                 Connect "B" (with_token "tok-bob")] (server0 fault)).

(** The store accepts the message and then loses the connection: the update
    of the channel's message count throws. *)
Definition count_update_fails (c : Call) : option JsThrown :=
  match c with
  | IncrementMessageCount _ => Some (ErrorObj "Connection terminated unexpectedly")
  | _ => None
  end.

(** *** Vocabulary of the proofs *)

(** [m] leaves the [is_online] column and the faults as they are. *)
Definition keeps_presence {A} (m : @M MemDB A) : Prop :=
  ∀ st, mdb_online (db (state_of (m st))) = mdb_online (db st)
        ∧ mdb_fault (db (state_of (m st))) = mdb_fault (db st).

(** The row of [u] after [updateOnlineStatus(v, b)]. *)
Definition online_after (v : string) (b : bool) (d : MemDB) : gmap string bool :=
  match mdb_online d !! v with
  | Some _ => <[v := b]> (mdb_online d)
  | None => mdb_online d
  end.

(** Every socket is filed under its own id. *)
Definition ids_ok (st : Server MemDB) : Prop :=
  ∀ sid s, sockets st !! sid = Some s → sock_id s = sid.

(** What holds of every state of [single_session u]. *)
Definition session_inv (u : string) (st : Server MemDB) : Prop :=
  fault_free st
  ∧ ids_ok st
  ∧ is_Some (stored_online u st)
  ∧ (connectionCount u st ≤ 1)%nat
  ∧ presence_matches u st.

(** The socket the middleware lets through for a decoded token. *)
Definition accepted_socket (sid : string) (decoded : JWTPayload) : SocketWithAuth :=
  {| sock_id := sid;
     sock_userId := Some (jwt_userId decoded);
     sock_user := Some {| su_id := jwt_userId decoded;
                          su_email := jwt_email decoded;
                          su_username := jwt_username decoded;
                          su_role := jwt_role decoded |} |}.

End Mem.

(** ** More of [utils/validation.util.ts] *)

Module Validation.

(** [/^[a-zA-Z0-9_-]{3,30}$/.test(username)] *)
Definition isValidUsername (username : string) : bool :=
  let cs := list_ascii_of_string username in
  forallb ValidationUtil.is_mention_char cs
  && (3 <=? length cs)%nat && (length cs <=? 30)%nat.

(** [/^@[a-zA-Z0-9_-]{3,30}$/.test(mention)] *)
Definition isValidMention (mention : string) : bool :=
  match mention with
  | String c rest => ValidationUtil.is_at c && isValidUsername rest
  | EmptyString => false
  end.

(** [\s], for the characters below 128. *)
Definition is_space (c : ascii) : bool :=
  let n := nat_of_ascii c in
  ((n =? 32) || ((9 <=? n) && (n <=? 13)))%nat.

(** [\d] *)
Definition is_digit (c : ascii) : bool :=
  let n := nat_of_ascii c in
  ((48 <=? n) && (n <=? 57))%nat.

(** [parseInt(c, 10)] for a digit [c]. *)
Definition digit_value (c : ascii) : nat := (nat_of_ascii c - 48)%nat.

(** The loop of [isValidCreditCard], on the characters from the last to the
    first. *)
Fixpoint luhn_loop (digits : list ascii) (isEven : bool) (sum : nat) : nat :=
  match digits with
  | [] => sum
  | c :: rest =>
      let digit := digit_value c in
      let digit :=
        if isEven
        then (if (9 <? digit * 2)%nat then (digit * 2 - 9)%nat else (digit * 2)%nat)
        else digit in
      luhn_loop rest (negb isEven) (sum + digit)%nat
  end.

(** [isValidCreditCard] *)
Definition isValidCreditCard (cardNumber : string) : bool :=
  let sanitized :=
    List.filter (fun c => negb (is_space c)) (list_ascii_of_string cardNumber) in
  if negb (forallb is_digit sanitized
           && (13 <=? length sanitized)%nat && (length sanitized <=? 19)%nat)
  then false
  else (luhn_loop (rev sanitized) false 0 mod 10 =? 0)%nat.

(** [new Set(arr)], as its elements in the order of insertion; [seen] is
    the set so far. *)
Fixpoint to_set {T} `{EqDecision T} (arr seen : list T) : list T :=
  match arr with
  | [] => seen
  | x :: rest =>
      if bool_decide (x ∈ seen) then to_set rest seen
      else to_set rest (seen ++ [x])
  end.

(** [hasDuplicates] *)
Definition hasDuplicates {T} `{EqDecision T} (arr : list T) : bool :=
  negb (length (to_set arr []) =? length arr)%nat.

(** [removeDuplicates] *)
Definition removeDuplicates {T} `{EqDecision T} (arr : list T) : list T :=
  to_set arr [].

(** The number of [@] characters of a text. *)
Definition count_at (text : string) : nat :=
  length (List.filter ValidationUtil.is_at (list_ascii_of_string text)).

End Validation.

(** ** More on the socket handlers and [SocketManager] *)

Section MoreHandlers.

Context {DB : Type} `{!Collaborators DB}.

(** The events of a trace, without the calls. *)
Definition emissions (t : list Effect) : list Effect :=
  List.filter (fun e => match e with Emitted _ _ _ => true | Called _ _ => false end) t.

(** The rooms [handleConnection] puts a socket in: the personal room and
    one room per channel of the user. *)
Definition auto_rooms (userId : JsVal) (channels : list Channel) : list string :=
  ("user:" +:+ Js.to_string userId)
  :: map (fun channel => "channel:" +:+ channel_id channel) channels.

(** [SocketManager.emitToUser]; as for [emitToChannel], [getIO()] gives the
    server that [App.initializeSocketIO] set. *)
Definition emitToUser (userId : string) (event : string) (data : Payload)
    : @M DB unit :=
  io_to_emit ("user:" +:+ userId) event data.

(** [SocketManager.getUserSockets]: the ids of the sockets that
    [io.in(`user:${userId}`).fetchSockets()] finds.  The order is the one of
    the adapter's set; nothing below depends on it. *)
Definition getUserSockets (userId : string) (st : Server DB) : list string :=
  elements (members ("user:" +:+ userId) st).

(** [SocketManager.isUserOnline] *)
Definition isUserOnline (userId : string) (st : Server DB) : bool :=
  (0 <? length (getUserSockets userId st))%nat.

(** [SocketManager.getOnlineUsersCount]: [io.fetchSockets()] then [length]. *)
Definition getOnlineUsersCount (st : Server DB) : nat :=
  size (dom (sockets st)).

(** An input with a socket id that Socket.IO could hand out: the id of a
    new connection is not in use. *)
Definition fresh_id (i : Input) (st : Server DB) : Prop :=
  match i with
  | Connect sid _ => sockets st !! sid = None
  | _ => True
  end.

(** The states the server reaches from a start with no socket and no room. *)
Inductive reachable : Server DB -> Prop :=
| reachable_start st : sockets st = ∅ → rooms st = ∅ → reachable st
| reachable_step st i :
    reachable st → fresh_id i st → reachable (state_of (step i st)).

(** The live connections of a user: the ids of the connected sockets that
    carry the user's id. *)
Definition live (u : string) (sid : string) (st : Server DB) : Prop :=
  ∃ s, sockets st !! sid = Some s ∧ sock_userId s = Some u.

(** *** [middlewares/auth.middleware.ts] *)

(** What [authenticate] does with the request: it answers 401 with a
    message, or sets [req.user] and [req.token] and calls [next()]. *)
Inductive AuthOutcome : Type :=
| Unauthorized (message : string)
| Passed (user : SocketUser) (token : string).

(** The message of the 401 that the [catch] of [authenticate] sends. *)
Definition unauthorized_message (error : JsThrown) : string :=
  match error with
  | ErrorObj m =>
      if String.eqb m "Token expired" then "Token expired"
      else if String.eqb m "Token has been revoked" then "Token has been revoked"
      else "Invalid token"
  | NonError _ => "Invalid token"
  end.

(** The middleware lets the handshake through: there is a token and
    [verifyToken] returns for it. *)
Definition accepted (hs : Handshake) (st : Server DB) : bool :=
  Js.truthy (handshake_token hs)
  && match verifyToken (handshake_token hs) (db st) with
     | (_, Ok _) => true
     | (_, Err _) => false
     end.

(** The collaborator calls made for a [message:send]. *)
Definition send_call (c : Call) : bool :=
  match c with
  | IsUserMember _ _ | MessageCreate _ | FindByUsername _ | MentionCreate _
  | IncrementMessageCount _ => true
  | VerifyToken _ | FindUserChannels _ | UpdateOnlineStatus _ _ => false
  end.

(** *** Vocabulary of the proofs *)

(** Every socket is filed under its own id. *)
Definition ids_match (st : Server DB) : Prop :=
  ∀ sid s, sockets st !! sid = Some s → sock_id s = sid.

(** A room of a channel, by its name. *)
Definition channel_room (room : string) : Prop :=
  ∃ x, room = "channel:" +:+ x.

(** What holds of the rooms of every reachable state: sockets are filed
    under their ids, rooms hold connected sockets only, and the personal
    room of a user holds the user's live connections. *)
Definition rooms_ok (st : Server DB) : Prop :=
  ids_match st
  ∧ (∀ room sid, sid ∈ members room st → is_Some (sockets st !! sid))
  ∧ (∀ u sid, sid ∈ members ("user:" +:+ u) st ↔ live u sid st).

End MoreHandlers.

(** ** [utils/tokenManager.util.ts], [config/jwt.config.ts] and the key
    commands of [config/redis.config.ts] *)

Module TokenManager.

(** [jwtConfig.accessToken.secret] and [jwtConfig.refreshToken.secret]. *)
Inductive Secret : Type := AccessSecret | RefreshSecret.

(** What [jwt.verify(token, secret, options)] does: it returns the decoded
    claims (here with their [type] apart), or throws a [TokenExpiredError],
    another [JsonWebTokenError], or something else. *)
Inductive JwtVerify : Type :=
| Verified (decoded : JWTPayload) (type : JsVal)
| TokenExpiredError
| JsonWebTokenError
| OtherThrown (e : JsThrown).

(** The library [jsonwebtoken], at the time of the call. *)
Record Jwt : Type := {
  jwt_verify : Secret -> JsVal -> JwtVerify;
  jwt_sign : Secret -> JWTPayload -> string -> Result string;
}.

(** The Redis client: whether it is connected and answers (and what a
    command throws when not), the time in seconds, and the keys with their
    value and the time they expire at, if they do. *)
Record Redis : Type := {
  redis_up : bool;
  redis_error : JsThrown;
  redis_now : Z;
  redis_keys : gmap string (string * option Z);
}.

Definition R (A : Type) : Type := Redis -> Redis * Result A.

Definition with_keys (k : gmap string (string * option Z)) (r : Redis) : Redis :=
  {| redis_up := redis_up r; redis_error := redis_error r;
     redis_now := redis_now r; redis_keys := k |}.

(** The value of a key that has not expired. *)
Definition live_value (key : string) (r : Redis) : option string :=
  match redis_keys r !! key with
  | Some (v, None) => Some v
  | Some (v, Some expires) => if (redis_now r <? expires)%Z then Some v else None
  | None => None
  end.

(** [redisManager.set]: [SETEX] when [expirySeconds] is truthy, [SET]
    otherwise; [SETEX] refuses a time that is not positive. *)
Definition redis_set (key value : string) (expirySeconds : Z) : R unit :=
  fun r =>
    if negb (redis_up r) then (r, Err (redis_error r))
    else if (expirySeconds =? 0)%Z
    then (with_keys (<[key := (value, None)]> (redis_keys r)) r, Ok tt)
    else if (expirySeconds <? 0)%Z
    then (r, Err (ErrorObj "ERR invalid expire time in 'setex' command"))
    else (with_keys (<[key := (value, Some (redis_now r + expirySeconds)%Z)]>
                       (redis_keys r)) r, Ok tt).

(** [redisManager.get] *)
Definition redis_get (key : string) : R (option string) :=
  fun r =>
    if negb (redis_up r) then (r, Err (redis_error r))
    else (r, Ok (live_value key r)).

(** [redisManager.delete] *)
Definition redis_delete (key : string) : R unit :=
  fun r =>
    if negb (redis_up r) then (r, Err (redis_error r))
    else (with_keys (delete key (redis_keys r)) r, Ok tt).

(** [redisManager.exists] *)
Definition redis_exists (key : string) : R bool :=
  fun r =>
    if negb (redis_up r) then (r, Err (redis_error r))
    else (r, Ok (bool_decide (is_Some (live_value key r)))).

(** [v === s] for a string [s]. *)
Definition is_string (s : string) (v : JsVal) : bool :=
  match v with
  | JStr s' => String.eqb s' s
  | _ => false
  end.

(** [verifyAccessToken] and [verifyRefreshToken]: [secret] and [type] are
    what the two differ in.  The [throw] of the [try] block is caught by its
    own [catch], which throws it again. *)
Definition verifyTyped (secret : Secret) (type : string) (jwt : Jwt)
    (token : JsVal) : Result JWTPayload :=
  match jwt_verify jwt secret token with
  | Verified decoded t =>
      if is_string type t then Ok decoded else Err (ErrorObj "Invalid token type")
  | TokenExpiredError => Err (ErrorObj "Token expired")
  | JsonWebTokenError => Err (ErrorObj "Invalid token")
  | OtherThrown e => Err e
  end.

Definition verifyAccessToken : Jwt -> JsVal -> Result JWTPayload :=
  verifyTyped AccessSecret "access".

Definition verifyRefreshToken : Jwt -> JsVal -> Result JWTPayload :=
  verifyTyped RefreshSecret "refresh".

(** [generateAccessToken] and [generateRefreshToken] *)
Definition generateTyped (secret : Secret) (type : string) (jwt : Jwt)
    (payload : JWTPayload) : Result string :=
  match jwt_sign jwt secret payload type with
  | Ok token => Ok token
  | Err _ => Err (ErrorObj "Token generation failed")
  end.

Definition generateAccessToken : Jwt -> JWTPayload -> Result string :=
  generateTyped AccessSecret "access".

Definition generateRefreshToken : Jwt -> JWTPayload -> Result string :=
  generateTyped RefreshSecret "refresh".

Definition REFRESH_TOKEN_PREFIX : string := "refresh_token:".
Definition BLACKLIST_PREFIX : string := "blacklist:".
Definition TOKEN_EXPIRY : Z := 7 * 24 * 60 * 60.

(** The pair [{ accessToken, refreshToken }]. *)
Record Tokens : Type := {
  accessToken : string;
  refreshToken : string;
}.

(** [TokenManager.generateTokens] *)
Definition generateTokens (jwt : Jwt) (payload : JWTPayload) : R Tokens :=
  fun r =>
    match generateAccessToken jwt payload with
    | Err _ => (r, Err (ErrorObj "Token generation failed"))
    | Ok access =>
        match generateRefreshToken jwt payload with
        | Err _ => (r, Err (ErrorObj "Token generation failed"))
        | Ok refresh =>
            match redis_set (REFRESH_TOKEN_PREFIX +:+ jwt_userId payload) refresh
                    (30 * 24 * 60 * 60) r with
            | (r1, Ok _) =>
                (r1, Ok {| accessToken := access; refreshToken := refresh |})
            | (r1, Err _) => (r1, Err (ErrorObj "Token generation failed"))
            end
        end
    end.

(** [TokenManager.isTokenBlacklisted]: [false] when Redis fails. *)
Definition isTokenBlacklisted (token : JsVal) (r : Redis) : Redis * bool :=
  match redis_exists (BLACKLIST_PREFIX +:+ Js.to_string token) r with
  | (r1, Ok result) => (r1, result)
  | (r1, Err _) => (r1, false)
  end.

(** What [this] is in a call of a static method: the class, when it is
    called as [TokenManager.verifyToken(...)], or [undefined], when the
    function is called on its own. *)
Inductive Receiver : Type := OnClass | NoReceiver.

(** [TokenManager.verifyToken]; it reaches [isTokenBlacklisted] through
    [this]. *)
Definition verifyToken (this : Receiver) (jwt : Jwt) (token : JsVal)
    : R JWTPayload :=
  fun r =>
    match this with
    | NoReceiver =>
        (r, Err (ErrorObj
                   "Cannot read properties of undefined (reading 'isTokenBlacklisted')"))
    | OnClass =>
        let '(r1, isBlacklisted) := isTokenBlacklisted token r in
        if isBlacklisted then (r1, Err (ErrorObj "Token has been revoked"))
        else (r1, verifyAccessToken jwt token)
    end.

(** [TokenManager.refreshAccessToken] *)
Definition refreshAccessToken (jwt : Jwt) (token : JsVal) : R Tokens :=
  fun r =>
    match verifyRefreshToken jwt token with
    | Err _ => (r, Err (ErrorObj "Token refresh failed"))
    | Ok payload =>
        match redis_get (REFRESH_TOKEN_PREFIX +:+ jwt_userId payload) r with
        | (r1, Err _) => (r1, Err (ErrorObj "Token refresh failed"))
        | (r1, Ok storedToken) =>
            match storedToken with
            | Some stored =>
                if negb (Js.truthy (JStr stored)) || negb (is_string stored token)
                then (r1, Err (ErrorObj "Token refresh failed"))
                else
                  match generateTokens jwt payload r1 with
                  | (r2, Ok tokens) => (r2, Ok tokens)
                  | (r2, Err _) => (r2, Err (ErrorObj "Token refresh failed"))
                  end
            | None => (r1, Err (ErrorObj "Token refresh failed"))
            end
        end
    end.

(** [TokenManager.revokeRefreshToken] *)
Definition revokeRefreshToken (userId : string) : R unit :=
  fun r =>
    match redis_delete (REFRESH_TOKEN_PREFIX +:+ userId) r with
    | (r1, Ok _) => (r1, Ok tt)
    | (r1, Err _) => (r1, Err (ErrorObj "Token revocation failed"))
    end.

(** [TokenManager.blacklistToken]: the default of [expirySeconds] is
    [TOKEN_EXPIRY]; what Redis throws is logged and dropped. *)
Definition blacklistToken (token : JsVal) (expirySeconds : option Z) : R unit :=
  fun r =>
    let seconds := default TOKEN_EXPIRY expirySeconds in
    ((redis_set (BLACKLIST_PREFIX +:+ Js.to_string token) "true" seconds r).1,
     Ok tt).

(** The client [seconds] later. *)
Definition later (seconds : Z) (r : Redis) : Redis :=
  {| redis_up := redis_up r; redis_error := redis_error r;
     redis_now := (redis_now r + seconds)%Z; redis_keys := redis_keys r |}.

End TokenManager.

(** ** More of [services/business.services.ts]: the REST side *)

(** [ChannelType] of [models/channel.model.ts] *)
Inductive ChannelType : Type := PUBLIC | PRIVATE | DIRECT | GROUP.

(** What the services below read of a [Channel] entity. *)
Record ChannelRow : Type := {
  row_id : string;
  row_type : ChannelType;
}.

(** The repository methods that the services below call and the socket
    handlers do not; as for [Collaborators], a method of the source only
    logs and rethrows what TypeORM throws. *)
Class Repositories (DB : Type) : Type := {
  messageFindById : JsVal -> DB -> DB * Result (option Message);
  messageDelete : JsVal -> DB -> DB * Result bool;
  channelFindById : JsVal -> DB -> DB * Result (option ChannelRow);
  addMember : JsVal -> JsVal -> DB -> DB * Result unit;
  removeMember : JsVal -> JsVal -> DB -> DB * Result unit;
}.

Section RestServices.

Context {DB : Type} `{!Collaborators DB} `{!Repositories DB}.

(** [await repository.method(...)], for the methods of [Repositories]; the
    trace keeps the calls of [Collaborators] only. *)
Definition ask {A} (f : DB -> DB * Result A) : @M DB A :=
  fun st =>
    let '(d, r) := f (db st) in
    ({| db := d; sockets := sockets st; rooms := rooms st; clock := clock st |},
     [], r).

(** [a === b]; two objects that come from different places are not the
    same object. *)
Definition strict_eq (a b : JsVal) : bool :=
  match a, b with
  | JUndefined, JUndefined | JNull, JNull => true
  | JBool x, JBool y => Bool.eqb x y
  | JStr x, JStr y => String.eqb x y
  | _, _ => false
  end.

(** [MessageService.deleteMessage] *)
Definition deleteMessage (messageId userId : JsVal) : @M DB unit :=
  bind (ask (messageFindById messageId))
    (fun message =>
       match message with
       | None => throw (ErrorObj "Message not found")
       | Some m =>
           if negb (strict_eq (msg_senderId m) userId)
           then throw (ErrorObj "Not authorized")
           else
             bind (ask (messageDelete messageId))
               (fun _ =>
                  emitToChannel (msg_channelId m) "message:deleted"
                    (PObj [("messageId", messageId)]))
       end).

(** [ChannelService.joinChannel] *)
Definition joinChannel (channelId userId : JsVal) : @M DB unit :=
  bind (ask (channelFindById channelId))
    (fun channel =>
       match channel with
       | None => throw (ErrorObj "Channel not found")
       | Some c =>
           match row_type c with
           | PRIVATE => throw (ErrorObj "Channel is private")
           | _ =>
               bind (ask (addMember channelId userId))
                 (fun _ =>
                    emitToChannel channelId "channel:member_joined"
                      (PObj [("userId", userId)]))
           end
       end).

(** [ChannelService.leaveChannel] *)
Definition leaveChannel (channelId userId : JsVal) : @M DB unit :=
  bind (ask (removeMember channelId userId))
    (fun _ =>
       emitToChannel channelId "channel:member_left" (PObj [("userId", userId)])).

End RestServices.

(** ** More scenarios of the in-memory instance *)

Module Scenarios.

(** The store has lost its connection when the presence is written. *)
Definition presence_write_fails (c : Call) : option JsThrown :=
  match c with
  | UpdateOnlineStatus _ _ => Some (ErrorObj "Connection terminated unexpectedly")
  | _ => None
  end.

(** The deployment of [Mem] after alice has connected on socket [A]. *)
Definition alice_connected : Server Mem.MemDB :=
  state_of (@step _ Mem.mem_collaborators (Connect "A" (Mem.with_token "tok-alice"))
              (Mem.server0 Mem.no_fault)).

End Scenarios.

(** ** The tables of [Mem] beside the Redis of [TokenManager] *)

Module Deployment.

(** The store of a deployment whose [verifyToken] is
    [TokenManager.verifyToken]: the tables and Redis. *)
Record Store : Type := {
  store_tables : Mem.MemDB;
  store_redis : TokenManager.Redis;
}.

Definition on_tables {A} (f : Mem.MemDB -> Mem.MemDB * Result A) (s : Store)
    : Store * Result A :=
  let '(m, res) := f (store_tables s) in
  ({| store_tables := m; store_redis := store_redis s |}, res).

Definition on_redis {A} (f : TokenManager.R A) (s : Store) : Store * Result A :=
  let '(r, res) := f (store_redis s) in
  ({| store_tables := store_tables s; store_redis := r |}, res).

(** The collaborators of the deployment: [verifyToken] is the function of
    [TokenManager], called with the receiver [this]; the repositories are
    those of [Mem]. *)
Definition collaborators (this : TokenManager.Receiver) (jwt : TokenManager.Jwt)
    : Collaborators Store := {|
  verifyToken token := on_redis (TokenManager.verifyToken this jwt token);
  isUserMember c u := on_tables (Mem.mem_isUserMember c u);
  findUserChannels u := on_tables (Mem.mem_findUserChannels u);
  incrementMessageCount c := on_tables (Mem.mem_incrementMessageCount c);
  messageCreate i := on_tables (Mem.mem_messageCreate i);
  findByUsername n := on_tables (Mem.mem_findByUsername n);
  updateOnlineStatus u b := on_tables (Mem.mem_updateOnlineStatus u b);
  mentionCreate i := on_tables (Mem.mem_mentionCreate i);
|}.

(** [authenticate] of [middlewares/auth.middleware.ts], on the value of
    [req.headers.authorization].  It calls [TokenManager.verifyToken] on
    the class, where the handshake middleware calls the function that
    [tokenManager.util.ts] exports on its own. *)
Definition authenticate (jwt : TokenManager.Jwt) (authHeader : option string)
    : @M Store AuthOutcome :=
  try_catch
    (match authHeader with
     | None => ret (Unauthorized "No token provided")
     | Some h =>
         if negb (Js.truthy (JStr h)) || negb (String.prefix "Bearer " h)
         then ret (Unauthorized "No token provided")
         else
           let token := String.substring 7 (String.length h - 7) h in
           if negb (Js.truthy (JStr token))
           then ret (Unauthorized "Invalid token format")
           else
             bind (call (VerifyToken (JStr token))
                     (on_redis (TokenManager.verifyToken TokenManager.OnClass jwt
                                  (JStr token))))
               (fun decoded =>
                  ret (Passed {| su_id := jwt_userId decoded;
                                 su_email := jwt_email decoded;
                                 su_username := jwt_username decoded;
                                 su_role := jwt_role decoded |} token))
     end)
    (fun error => ret (Unauthorized (unauthorized_message error))).

(** The handshake middleware of the source: its [verifyToken] is the
    exported function, called without a receiver. *)
Definition handshake (jwt : TokenManager.Jwt) (socket : SocketWithAuth)
    (hs : Handshake) : @M Store Next :=
  @authMiddleware _ (collaborators TokenManager.NoReceiver jwt) socket hs.

(** A [jwt.verify] that knows the access tokens of [Mem.db0]. *)
Definition jwt0 : TokenManager.Jwt :=
  {| TokenManager.jwt_verify secret token :=
       match secret, token with
       | TokenManager.AccessSecret, JStr t =>
           match Mem.mdb_tokens (Mem.db0 Mem.no_fault) !! t with
           | Some payload => TokenManager.Verified payload (JStr "access")
           | None => TokenManager.JsonWebTokenError
           end
       | TokenManager.RefreshSecret, JStr t =>
           if String.eqb t "refresh-alice"
           then TokenManager.Verified
                  (Mem.payload_of "u1" "alice@example.org" "alice") (JStr "refresh")
           else TokenManager.JsonWebTokenError
       | _, _ => TokenManager.JsonWebTokenError
       end;
     TokenManager.jwt_sign secret payload type :=
       Ok (type +:+ "-" +:+ jwt_username payload +:+ "-2") |}.

(** A Redis that answers, with the refresh token of alice stored. *)
Definition redis0 : TokenManager.Redis :=
  {| TokenManager.redis_up := true;
     TokenManager.redis_error := ErrorObj "Connection is closed.";
     TokenManager.redis_now := 1000;
     TokenManager.redis_keys :=
       {[ "refresh_token:u1" := ("refresh-alice", Some 5000%Z) ]} |}.

(** A Redis that does not answer. *)
Definition redis_down : TokenManager.Redis :=
  {| TokenManager.redis_up := false;
     TokenManager.redis_error := ErrorObj "Connection is closed.";
     TokenManager.redis_now := 1000;
     TokenManager.redis_keys := ∅ |}.

Definition store0 : Store :=
  {| store_tables := Mem.db0 Mem.no_fault; store_redis := redis0 |}.

Definition server_start : Server Store :=
  {| db := store0; sockets := ∅; rooms := ∅; clock := 1000 |}.

End Deployment.

(** Splits [x ∈ e1 :: ... :: t] into its cases, dropping those where [x]
    and [ei] differ by their constructors. *)
Ltac split_elem H :=
  repeat
    (first
       [ apply elem_of_nil in H; destruct H
       | apply elem_of_cons in H as [H | H];
         [ first [ discriminate H | injection H as ?; subst | subst ] | ]
       | apply elem_of_app in H as [H | H] ]).

(** ** [extractMentions] and the string helpers on examples *)

Example extractMentions_two :
  ValidationUtil.extractMentions "hi @bob and @al, @carol-9!" = ["bob"; "carol-9"].
Proof. reflexivity. Qed.

Example extractMentions_double_at :
  ValidationUtil.extractMentions "@@dave @x" = ["dave"].
Proof. reflexivity. Qed.

Example extractMentions_thirty :
  ValidationUtil.extractMentions "@abcdefghijklmnopqrstuvwxyz0123456789 @ab"
  = ["abcdefghijklmnopqrstuvwxyz0123"].
Proof. reflexivity. Qed.

Example replace_bearer : Js.replace "Bearer " "" "Bearer abc" = "abc".
Proof. reflexivity. Qed.

Example indexOf_mention : Js.indexOf "@bob" "hi @bob" = 3%Z.
Proof. reflexivity. Qed.

(** ** Facts on the handlers, for any collaborators *)

Section HandlerFacts.

Context {DB : Type} `{!Collaborators DB}.

Implicit Types (st : Server DB) (socket : SocketWithAuth) (t : list Effect).

Local Abbreviation M := (@M DB) (only parsing).

Lemma delivered_singleton sid name payload to name' payload' :
  delivered sid name payload [Emitted to name' payload'] ↔
  sid ∈ to ∧ name = name' ∧ payload = payload'.
Proof.
  unfold delivered. split.
  - intros (to0 & Hin & Hsid). apply list_elem_of_singleton in Hin.
    inversion Hin; subst. done.
  - intros (Hsid & -> & ->). exists to. split; [apply list_elem_of_singleton|]; done.
Qed.

Lemma delivered_cons_call sid name payload c o t :
  delivered sid name payload (Called c o :: t) ↔ delivered sid name payload t.
Proof.
  unfold delivered. split; intros (to & Hin & Hsid); exists to; split; try done.
  - apply elem_of_cons in Hin as [Hin | Hin]; [discriminate | done].
  - by apply elem_of_cons; right.
Qed.

Lemma received_cons_call sid name c o t :
  received sid name (Called c o :: t) ↔ received sid name t.
Proof.
  unfold received. split; intros (to & p & Hin & Hsid); exists to, p; split; try done.
  - apply elem_of_cons in Hin as [Hin | Hin]; [discriminate | done].
  - by apply elem_of_cons; right.
Qed.

Lemma received_singleton sid name to name' payload' :
  received sid name [Emitted to name' payload'] ↔ sid ∈ to ∧ name = name'.
Proof.
  unfold received. split.
  - intros (to0 & p & Hin & Hsid). apply list_elem_of_singleton in Hin.
    inversion Hin; subst. done.
  - intros (Hsid & ->). exists to, payload'.
    split; [apply list_elem_of_singleton|]; done.
Qed.

(** C1.  A [message:send] from a user who is not a member of the target
    channel ([isUserMember] answers [false]) makes no [create] call, gives
    nobody a [message:new], and gives the sending socket, and it alone, one
    [error] event [{event: "message:send", message}]; the handler returns
    normally and no socket is taken out of the namespace or of a room. *)
Theorem send_by_non_member_rejected socket fields st d1 :
  let data := JObj fields in
  let channelId := Js.get "channelId" data in
  isUserMember channelId (nonnull (sock_userId socket)) (db st) = (d1, Ok false) ->
  let r := handleSendMessage socket data st in
  let rejection :=
    PObj [("event", JStr "message:send");
          ("message", JStr "Not a member of this channel")] in
  creates (trace_of r) = []
  ∧ (∀ sid, ¬ received sid "message:new" (trace_of r))
  ∧ (∀ sid name payload,
       delivered sid name payload (trace_of r) ↔
       sid = sock_id socket ∧ name = "error" ∧ payload = rejection)
  ∧ result_of r = Ok tt
  ∧ sockets (state_of r) = sockets st
  ∧ rooms (state_of r) = rooms st.
Proof.
  intros data channelId Hmember r rejection.
  assert (Hr : r = ({| db := d1; sockets := sockets st; rooms := rooms st;
                       clock := clock st |},
                    [Called (IsUserMember channelId (nonnull (sock_userId socket))) None;
                     Emitted {[sock_id socket]} "error" rejection],
                    Ok tt)).
  { subst r channelId data.
    cbv [handleSendMessage try_catch handleSendMessage_body bind lift
         sendMessage call Js.destructure].
    rewrite Hmember. done. }
  rewrite Hr. unfold trace_of, result_of, state_of. simpl.
  split_and!; try done.
  - intros sid Hrec. apply received_cons_call, received_singleton in Hrec.
    destruct Hrec as [_ ?]. discriminate.
  - intros sid name payload.
    rewrite delivered_cons_call, delivered_singleton, elem_of_singleton.
    done.
Qed.



Lemma socket_join_twice socket room st :
  let once := state_of (socket_join socket room st) in
  rooms (state_of (socket_join socket room once)) = rooms once.
Proof.
  unfold socket_join, state_of, members. simpl.
  rewrite lookup_total_insert_eq, insert_insert_eq.
  by rewrite (assoc_L (∪)), (idemp_L (∪)).
Qed.

(** C7.  Handling [channel:join] a second time for the same socket and
    payload leaves the rooms as the first handling left them: a room is a
    set of socket ids, and [join] adds to it. *)
Theorem join_channel_twice_same_rooms socket data st :
  let once := state_of (dispatch socket "channel:join" data st) in
  let twice := state_of (dispatch socket "channel:join" data once) in
  rooms twice = rooms once
  ∧ ∀ room sid, sid ∈ members room twice ↔ sid ∈ members room once.
Proof.
  intros once twice.
  assert (Heq : rooms twice = rooms once).
  { subst once twice. destruct data; try done;
      apply (socket_join_twice socket _ st). }
  split; [done|]. intros room sid. unfold members. by rewrite Heq.
Qed.

(** C6, as the code has it.  [presence:update] stores nothing and calls no
    collaborator: the server state (store, sockets, rooms) is the one
    before, so no connection is added or dropped; one [user:presence] event
    [{userId, status, timestamp}] goes to every connected socket, with the
    [userId] of the sending socket and the [status] of the payload.  The
    packet of a socket that is not connected reaches no listener. *)
Theorem presence_update_only_broadcasts sid fields st :
  let data := JObj fields in
  step (Packet sid "presence:update" data) st =
    match sockets st !! sid with
    | Some socket =>
        (st,
         [Emitted (dom (sockets st)) "user:presence"
            (PStamped [("userId", nonnull (sock_userId socket));
                       ("status", Js.get "status" data)] (clock st))],
         Ok tt)
    | None => (st, [], Ok tt)
    end.
Proof. intros data. unfold step. by destruct (sockets st !! sid). Qed.

(** *** Computations that throw only what a collaborator threw *)

Lemma all_returned_app t1 t2 :
  all_returned (t1 ++ t2) = all_returned t1 && all_returned t2.
Proof. apply forallb_app. Qed.

Lemma quiet_ret {A} P (a : A) : quiet P (ret a : M A).
Proof.
  intros st. unfold ret, state_of, trace_of, result_of. simpl.
  split_and!; try done; [by exists a | intros c e Hin; by apply elem_of_nil in Hin].
Qed.

Lemma quiet_call {A} P c (f : DB -> DB * Result A) :
  (∀ o, P (Called c o) = true) → quiet P (call c f).
Proof.
  intros HP st. unfold call, state_of, trace_of, result_of.
  destruct (f (db st)) as [d [a | e]]; simpl; rewrite HP;
    (split_and!; try done).
  - by exists a.
  - intros c' e' Hin. apply list_elem_of_singleton in Hin. discriminate.
  - intros c' e' Hin. apply list_elem_of_singleton in Hin. by inversion Hin.
Qed.

Lemma quiet_bind {A B} P (m : M A) (k : A -> M B) :
  quiet P m → (∀ a, quiet P (k a)) → quiet P (bind m k).
Proof.
  intros Hm Hk st. specialize (Hm st). unfold bind.
  unfold state_of, trace_of, result_of in *.
  destruct (m st) as [[st1 t1] [a | e]]; simpl in *.
  - specialize (Hk a st1). unfold state_of, trace_of, result_of in Hk.
    destruct (k a st1) as [[st2 t2] r2]; simpl in *.
    destruct Hm as (Hs & Hr & Hc & HP & _ & Hthrow).
    destruct Hk as (Hs' & Hr' & Hc' & HP' & Hret' & Hthrow').
    split_and!; try congruence.
    + rewrite forallb_app, HP, HP'. done.
    + rewrite all_returned_app. intros [_ H2]%andb_true_iff. auto.
    + intros c e [Hin | Hin]%elem_of_app.
      * specialize (Hthrow _ _ Hin). discriminate.
      * eapply Hthrow'. eassumption.
  - destruct Hm as (Hs & Hr & Hc & HP & Hret & Hthrow).
    split_and!; try done.
    + intros Hall. destruct (Hret Hall) as [a Ha]. discriminate.
    + intros c e0 Hin. specialize (Hthrow _ _ Hin). by inversion Hthrow.
Qed.


Lemma quiet_for_each {A} P (xs : list A) (body : A -> M unit) :
  (∀ x, quiet P (body x)) → quiet P (for_each xs body).
Proof.
  intros Hbody. induction xs as [| x xs IH]; simpl.
  - apply quiet_ret.
  - apply quiet_bind; [apply Hbody | intros _; apply IH].
Qed.

Lemma quiet_createMention senderId text message username :
  quiet after_create (createMention senderId text message username).
Proof.
  unfold createMention. apply quiet_bind.
  - by apply quiet_call.
  - intros [u |]; [by apply quiet_call | apply quiet_ret].
Qed.

Lemma after_create_creates t : forallb after_create t = true → creates t = [].
Proof.
  induction t as [| [c o | to name p] t IH]; simpl; [done | |done].
  intros [Hc Ht]%andb_true_iff. destruct c; try done; auto.
Qed.

Lemma after_create_emits t to name p :
  forallb after_create t = true → Emitted to name p ∉ t.
Proof.
  intros Hall Hin. rewrite forallb_forall in Hall.
  apply list_elem_of_In, Hall in Hin. done.
Qed.


Lemma quiet_after_create senderId channelId text message :
  quiet after_create
    (bind (for_each (ValidationUtil.extractMentions text)
             (createMention senderId text message))
       (fun _ => call (IncrementMessageCount channelId)
                   (incrementMessageCount channelId))).
Proof.
  apply quiet_bind.
  - apply quiet_for_each. intros username. apply quiet_createMention.
  - intros _. by apply quiet_call.
Qed.

Lemma bind_assoc {A B C} (m : M A) (k : A -> M B) (h : B -> M C) st :
  bind m (fun a => bind (k a) h) st = bind (bind m k) h st.
Proof.
  unfold bind. destruct (m st) as [[st1 t1] [a | e]]; [|done].
  destruct (k a st1) as [[st2 t2] [b | e]]; [|done].
  destruct (h b st2) as [[st3 t3] r3]. by rewrite (assoc_L (++)).
Qed.

Lemma bind_inv {A B} (m : M A) (k : A -> M B) st st' t res :
  bind m k st = (st', t, res) →
  (∃ e, m st = (st', t, Err e) ∧ res = Err e)
  ∨ (∃ st1 t1 a t2,
       m st = (st1, t1, Ok a) ∧ k a st1 = (st', t2, res) ∧ t = t1 ++ t2).
Proof.
  unfold bind. destruct (m st) as [[st1 t1] [a | e]].
  - destruct (k a st1) as [[st2 t2] r2] eqn:Hk. intros [= <- <- <-].
    right. by exists st1, t1, a, t2.
  - intros [= <- <- <-]. left. by exists e.
Qed.

Lemma call_inv {A} c (f : DB -> DB * Result A) st st' t res :
  call c f st = (st', t, res) →
  ∃ d, f (db st) = (d, res)
       ∧ st' = {| db := d; sockets := sockets st; rooms := rooms st;
                  clock := clock st |}
       ∧ t = [Called c (match res with Ok _ => None | Err e => Some e end)].
Proof.
  unfold call. destruct (f (db st)) as [d r]. intros [= <- <- <-]. by exists d.
Qed.

(** What [sendMessage] leaves, by the answer of the membership check and of
    [create]. *)
Lemma sendMessage_spec senderId channelId content type st :
  let r := sendMessage senderId channelId content type st in
  let room := "channel:" +:+ Js.to_string channelId in
  sockets (state_of r) = sockets st
  ∧ rooms (state_of r) = rooms st
  ∧ (∀ c e, Called c (Some e) ∈ trace_of r → result_of r = Err e)
  ∧ (∀ to name p, Emitted to name p ∈ trace_of r →
       to = members room st ∧ name = "message:new"
       ∧ ∃ m, p = PEntity m ∧ result_of r = Ok m).
Proof.
  intros r room. subst r. unfold sendMessage.
  set (input := {| mi_senderId := senderId |}).
  match goal with |- context [bind ?m ?k st] =>
    destruct (bind m k st) as [[st' t] res] eqn:E end.
  unfold state_of, trace_of, result_of. simpl.
  apply bind_inv in E as [(e & E & ->) | (st1 & t1 & isMember & t2 & E & E2 & ->)];
    apply call_inv in E as (d1 & Hmem & Hst & Ht); subst.
  { simpl. split_and!; try done; intros; 
      match goal with H : _ ∈ _ |- _ => split_elem H end; done. }
  destruct isMember; simpl in E2.
  2:{ inversion E2; subst. simpl. split_and!; try done; intros;
      match goal with H : _ ∈ _ |- _ => split_elem H end; done. }
  apply bind_inv in E2 as [(e & E & ->) | (st2 & t2' & message & t3 & E & E3 & ->)];
    apply call_inv in E as (d2 & Hcreate & Hst & Ht); subst.
  { simpl. split_and!; try done; intros; 
      match goal with H : _ ∈ _ |- _ => split_elem H end; done. }
  simpl in E3.
  destruct content as [| | b | text | fs].
  1,2,3,5: apply bind_inv in E3 as [(e & E & ->) | (? & ? & ? & ? & E & _ & _)];
    inversion E; subst; simpl; split_and!; try done; intros;
    match goal with H : _ ∈ _ |- _ => split_elem H end; done.
  rewrite bind_assoc in E3.
  match type of E3 with bind ?m _ ?s = _ =>
    pose proof (quiet_after_create senderId channelId text message s) as Hq
  end.
  unfold state_of, trace_of, result_of in Hq. simpl in Hq.
  apply bind_inv in E3 as [(e & E & ->) | (st3 & t3' & [] & t4 & E & E4 & ->)];
    rewrite E in Hq; simpl in Hq;
    destruct Hq as (Hs & Hr & _ & HP & _ & Hthrow).
  - split_and!; try done.
    + intros c e' Hin. split_elem Hin. specialize (Hthrow _ _ Hin).
      by inversion Hthrow.
    + intros to name p Hin. split_elem Hin. by apply after_create_emits in Hin.
  - unfold emitToChannel, io_to_emit, bind, ret, members in E4.
    inversion E4; subst. rewrite Hr. split_and!; try done.
    + intros c e' Hin. split_elem Hin. specialize (Hthrow _ _ Hin). discriminate.
    + intros to name p Hin. split_elem Hin.
      * by apply after_create_emits in Hin.
      * eauto.
Qed.


(** [sendMessage] for a member and a string [content], when every call
    returns. *)
Lemma sendMessage_member senderId channelId text type st d1 :
  let r := sendMessage senderId channelId (JStr text) type st in
  let input :=
    {| mi_senderId := senderId; mi_channelId := channelId;
       mi_content := JStr text;
       mi_type := match type with JUndefined => JStr "text" | _ => type end |} in
  isUserMember channelId senderId (db st) = (d1, Ok true) →
  all_returned (trace_of r) = true →
  ∃ m d2 t,
    messageCreate input d1 = (d2, Ok m)
    ∧ result_of r = Ok m
    ∧ forallb after_create t = true
    ∧ trace_of r =
        Called (IsUserMember channelId senderId) None
        :: Called (MessageCreate input) None
        :: t ++ [Emitted (members ("channel:" +:+ Js.to_string channelId) st)
                   "message:new" (PEntity m)].
Proof.
  intros r input Hmem. subst r. unfold sendMessage. fold input.
  match goal with |- context [bind ?m ?k st] =>
    destruct (bind m k st) as [[st' t] res] eqn:E end.
  unfold trace_of, result_of. simpl.
  apply bind_inv in E as [(e & E & ->) | (st1 & t1 & isMember & t2 & E & E2 & ->)];
    apply call_inv in E as (d1' & Hmem' & Hst & Ht); subst;
    rewrite Hmem in Hmem'; inversion Hmem'; subst.
  simpl in E2.
  apply bind_inv in E2 as [(e & E & ->) | (st2 & t2' & message & t3 & E & E3 & ->)];
    apply call_inv in E as (d2 & Hcreate & Hst & Ht); subst; simpl in *.
  { intros Hall. discriminate. }
  rewrite bind_assoc in E3.
  match type of E3 with bind ?m _ ?s = _ =>
    pose proof (quiet_after_create senderId channelId text message s) as Hq
  end.
  unfold state_of, trace_of, result_of in Hq. simpl in Hq.
  apply bind_inv in E3 as [(e & E & ->) | (st3 & t3' & [] & t4 & E & E4 & ->)];
    rewrite E in Hq; simpl in Hq;
    destruct Hq as (Hs & Hr & _ & HP & Hret & Hthrow).
  - intros Hall. destruct (Hret Hall) as [a Ha]. discriminate.
  - unfold emitToChannel, io_to_emit, bind, ret, members in E4.
    inversion E4; subst. rewrite Hr. intros _.
    exists message, d2, t3'. split_and!; done.
Qed.

Lemma try_catch_inv {A} (m : M A) (h : JsThrown -> M A) st st' t res :
  try_catch m h st = (st', t, res) →
  (∃ a, m st = (st', t, Ok a) ∧ res = Ok a)
  ∨ (∃ st1 t1 e t2,
       m st = (st1, t1, Err e) ∧ h e st1 = (st', t2, res) ∧ t = t1 ++ t2).
Proof.
  unfold try_catch. destruct (m st) as [[st1 t1] [a | e]].
  - intros [= <- <- <-]. left. by exists a.
  - destruct (h e st1) as [[st2 t2] r2] eqn:Hh. intros [= <- <- <-].
    right. by exists st1, t1, e, t2.
Qed.

(** The body of [handleSendMessage], before its [catch]. *)
Lemma handleSendMessage_body_spec socket data st :
  let r := handleSendMessage_body socket data st in
  sockets (state_of r) = sockets st
  ∧ rooms (state_of r) = rooms st
  ∧ (∀ c e, Called c (Some e) ∈ trace_of r → result_of r = Err e)
  ∧ (∀ to name p, Emitted to name p ∈ trace_of r → name = "message:new").
Proof.
  intros r. subst r. unfold handleSendMessage_body.
  match goal with |- context [bind ?m ?k st] =>
    destruct (bind m k st) as [[st' t] res] eqn:E end.
  unfold state_of, trace_of, result_of. simpl.
  apply bind_inv in E as [(e & E & ->) | (st1 & t1 & d & t2 & E & E2 & ->)];
    unfold lift in E; inversion E; subst.
  { split_and!; try done; intros; 
      match goal with H : _ ∈ _ |- _ => split_elem H end. }
  match type of E2 with bind (sendMessage ?u ?c ?x ?y) _ ?s = _ =>
    pose proof (sendMessage_spec u c x y s) as Hspec
  end.
  simpl in Hspec. unfold state_of, trace_of, result_of in Hspec.
  apply bind_inv in E2 as [(e & E2 & ->) | (st2 & t2' & m & t3 & E2 & E3 & ->)];
    rewrite E2 in Hspec; simpl in Hspec;
    destruct Hspec as (Hs & Hr & Hthrow & Hemit).
  - split_and!; try done.
    + intros c e' Hin. specialize (Hthrow _ _ Hin). by inversion Hthrow.
    + intros to name p Hin. by destruct (Hemit _ _ _ Hin) as (_ & -> & _).
  - unfold io_to_emit in E3. inversion E3; subst. split_and!; try done.
    + intros c e' Hin. split_elem Hin. specialize (Hthrow _ _ Hin). discriminate.
    + intros to name p Hin. split_elem Hin; [|done].
      by destruct (Hemit _ _ _ Hin) as (_ & -> & _).
Qed.


Lemma handleSendMessage_catches socket data st :
  let r := handleSendMessage socket data st in
  result_of r = Ok tt
  ∧ sockets (state_of r) = sockets st
  ∧ rooms (state_of r) = rooms st
  ∧ (∀ c e, Called c (Some e) ∈ trace_of r →
       Emitted {[sock_id socket]} "error"
         (error_payload "message:send" "Failed to send message" e) ∈ trace_of r)
  ∧ (∀ to p, Emitted to "error" p ∈ trace_of r → to = {[sock_id socket]}).
Proof.
  intros r. subst r. unfold handleSendMessage.
  pose proof (handleSendMessage_body_spec socket data st) as Hbody.
  simpl in Hbody. unfold state_of, trace_of, result_of in *.
  match goal with |- context [try_catch ?m ?k st] =>
    destruct (try_catch m k st) as [[st' t] res] eqn:E end.
  simpl.
  apply try_catch_inv in E as [([] & E & ->) | (st1 & t1 & e & t2 & E & E2 & ->)];
    rewrite E in Hbody; simpl in Hbody; destruct Hbody as (Hs & Hr & Hthrow & Hemit).
  - split_and!; try done.
    + intros c e Hin. specialize (Hthrow _ _ Hin). discriminate.
    + intros to p Hin. specialize (Hemit _ _ _ Hin). discriminate.
  - unfold socket_emit in E2. inversion E2; subst. split_and!; try done.
    + intros c e' Hin. split_elem Hin. specialize (Hthrow _ _ Hin).
      inversion Hthrow; subst. apply elem_of_app. right. by apply elem_of_cons; left.
    + intros to p Hin. split_elem Hin; [|done].
      specialize (Hemit _ _ _ Hin). discriminate.
Qed.

(** C8.  Whatever the collaborators do and whatever the payload is, the
    handlers of [message:send], [channel:join] and [channel:leave] return
    normally (nothing reaches the process-level handlers) and keep every
    socket connected; each error a collaborator call threw is turned into
    an [error] event [{event, message}] for the sending socket, and so is
    the [TypeError] of a payload that is [undefined] or [null]; no [error]
    event goes to anyone else. *)
Theorem inbound_errors_stay_with_sender socket name data st :
  name ∈ ["message:send"; "channel:join"; "channel:leave"] →
  let r := dispatch socket name data st in
  result_of r = Ok tt
  ∧ sockets (state_of r) = sockets st
  ∧ (∀ c e, Called c (Some e) ∈ trace_of r →
       Emitted {[sock_id socket]} "error"
         (error_payload name (fallback_of name) e) ∈ trace_of r)
  ∧ (∀ e, Js.destructure "channelId" data = Err e →
       trace_of r = [Emitted {[sock_id socket]} "error"
                       (error_payload name (fallback_of name) e)])
  ∧ (∀ to p, Emitted to "error" p ∈ trace_of r → to = {[sock_id socket]}).
Proof.
  intros Hname r. subst r. split_elem Hname.
  - pose proof (handleSendMessage_catches socket data st) as Hsend.
    simpl in Hsend.
    change (dispatch socket "message:send" data st)
      with (handleSendMessage socket data st).
    change (fallback_of "message:send") with "Failed to send message".
    split_and!; try tauto.
    by destruct data; intros e [= <-].
  - change (dispatch socket "channel:join" data st)
      with (handleJoinChannel socket data st).
    destruct data; unfold result_of, state_of, trace_of; simpl;
      split_and!; try done; intros;
      try match goal with H : _ ∈ _ |- _ => split_elem H end;
      try match goal with H : Err _ = Err _ |- _ => injection H as <- end; done.
  - change (dispatch socket "channel:leave" data st)
      with (handleLeaveChannel socket data st).
    destruct data; unfold result_of, state_of, trace_of; simpl;
      split_and!; try done; intros;
      try match goal with H : _ ∈ _ |- _ => split_elem H end;
      try match goal with H : Err _ = Err _ |- _ => injection H as <- end; done.
Qed.

Lemma handleSendMessage_object socket fields st :
  let data := JObj fields in
  handleSendMessage socket data st =
    match sendMessage (nonnull (sock_userId socket)) (Js.get "channelId" data)
            (Js.get "content" data) (Js.get "type" data) st with
    | (st1, t1, Ok m) =>
        (st1, t1 ++ [Emitted (members (room_of data) st1) "message:new" (PEntity m)],
         Ok tt)
    | (st1, t1, Err e) =>
        (st1, t1 ++ [Emitted {[sock_id socket]} "error"
                       (error_payload "message:send" "Failed to send message" e)],
         Ok tt)
    end.
Proof.
  unfold handleSendMessage, try_catch, handleSendMessage_body, bind, lift. simpl.
  by destruct (sendMessage _ _ _ _ st) as [[st1 t1] [m | e]].
Qed.

(** C4, as the code has it.  A [message:send] with a string [content] from
    a member of the channel, when every collaborator call made for it
    returns: [create] is called once, with the sender's [userId] and the
    [channelId], [content] and [type] of the payload ([text] when the
    payload has no [type]); the saved message goes out as [message:new] to
    every socket of the channel's room, the sender's own included when it
    is in the room; nothing else is delivered to anybody. *)
Theorem send_by_member_stores_and_broadcasts socket fields text st d1 :
  let data := JObj fields in
  Js.get "content" data = JStr text →
  isUserMember (Js.get "channelId" data) (nonnull (sock_userId socket)) (db st)
    = (d1, Ok true) →
  let r := handleSendMessage socket data st in
  all_returned (trace_of r) = true →
  ∃ m d2,
    messageCreate (input_of socket data) d1 = (d2, Ok m)
    ∧ creates (trace_of r) = [(input_of socket data, true)]
    ∧ (∀ sid, sid ∈ members (room_of data) st →
         delivered sid "message:new" (PEntity m) (trace_of r))
    ∧ (sock_id socket ∈ members (room_of data) st →
         delivered (sock_id socket) "message:new" (PEntity m) (trace_of r))
    ∧ (∀ sid name p, delivered sid name p (trace_of r) →
         sid ∈ members (room_of data) st ∧ name = "message:new" ∧ p = PEntity m)
    ∧ result_of r = Ok tt.
Proof.
  intros data Hcontent Hmem r. subst r data.
  rewrite (handleSendMessage_object socket fields st). cbv zeta.
  set (data := JObj fields) in *.
  pose proof (sendMessage_member (nonnull (sock_userId socket))
                (Js.get "channelId" data) text (Js.get "type" data) st d1)
    as Hsend.
  pose proof (sendMessage_spec (nonnull (sock_userId socket))
                (Js.get "channelId" data) (JStr text) (Js.get "type" data) st)
    as Hspec.
  rewrite Hcontent. simpl in Hsend, Hspec.
  unfold state_of, trace_of, result_of in *.
  destruct (sendMessage _ _ _ _ st) as [[st1 t1] res] eqn:E. simpl in *.
  destruct Hspec as (_ & Hr & _).
  assert (Hall1 : all_returned (match res with
                                | Ok m =>
                                    (st1, t1 ++ [Emitted (members (room_of data) st1)
                                                   "message:new" (PEntity m)], Ok tt)
                                | Err e =>
                                    (st1, t1 ++ [Emitted {[sock_id socket]} "error"
                                                   (error_payload "message:send"
                                                      "Failed to send message" e)],
                                     Ok tt)
                                end).1.2 = true → all_returned t1 = true).
  { destruct res; cbn [fst snd]; rewrite all_returned_app;
      by intros [? _]%andb_true_iff. }
  intros Hall. specialize (Hall1 Hall).
  destruct (Hsend Hmem Hall1) as (m & d2 & t & Hcreate & -> & HP & ->).
  unfold members. simpl. rewrite Hr.
  assert (Hinput : input_of socket data
                   = {| mi_senderId := nonnull (sock_userId socket);
                        mi_channelId := Js.assoc "channelId" fields;
                        mi_content := JStr text;
                        mi_type := match Js.assoc "type" fields with
                                   | JUndefined => JStr "text"
                                   | _ => Js.assoc "type" fields
                                   end |}).
  { unfold input_of. simpl. rewrite Hcontent. f_equal.
    by destruct (Js.assoc "type" fields). }
  rewrite Hinput. exists m, d2.
  assert (Hlast : ∀ sid, sid ∈ members (room_of data) st →
            delivered sid "message:new" (PEntity m)
              (Called (IsUserMember (Js.get "channelId" data)
                         (nonnull (sock_userId socket))) None
               :: Called (MessageCreate (input_of socket data)) None
               :: (t ++ [Emitted (rooms st !!! room_of data) "message:new"
                           (PEntity m)])
                  ++ [Emitted (rooms st !!! room_of data) "message:new"
                        (PEntity m)])).
  { intros sid Hsid. exists (rooms st !!! room_of data). split; [|done].
    do 2 (apply elem_of_cons; right). apply elem_of_app. right.
    by apply elem_of_cons; left. }
  rewrite Hinput in Hlast.
  assert (Hcreates : ∀ t0, forallb after_create t0 = true → ∀ t',
            creates (t0 ++ t') = creates t').
  { clear. induction t0 as [| [c o | ? ? ?] t0 IH]; simpl; [done | | done].
    intros [Hc HP]%andb_true_iff t'. destruct c; try done; auto. }
  split_and!; try done.
  - f_equal. rewrite <- app_assoc. by rewrite Hcreates.
  - apply Hlast.
  - intros sid name p (to & Hin & Hsid). split_elem Hin; try done.
    by apply after_create_emits in Hin.
Qed.


(** *** The sockets of the namespace *)

Lemma keeps_sockets_bind {A B} (m : M A) (k : A -> M B) :
  keeps_sockets m → (∀ a, keeps_sockets (k a)) → keeps_sockets (bind m k).
Proof.
  intros Hm Hk st. specialize (Hm st). unfold bind, state_of in *.
  destruct (m st) as [[st1 t1] [a | e]]; simpl in *; [|done].
  specialize (Hk a st1). unfold state_of in Hk.
  destruct (k a st1) as [[st2 t2] r2]; simpl in *. congruence.
Qed.

Lemma keeps_sockets_for_each {A} (xs : list A) (body : A -> M unit) :
  (∀ x, keeps_sockets (body x)) → keeps_sockets (for_each xs body).
Proof.
  intros Hbody. induction xs as [| x xs IH]; simpl; [done|].
  apply keeps_sockets_bind; [apply Hbody | intros _; apply IH].
Qed.

Lemma keeps_sockets_call {A} c (f : DB -> DB * Result A) : keeps_sockets (call c f).
Proof. intros st. unfold call, state_of. by destruct (f (db st)). Qed.

Lemma keeps_sockets_handleConnection socket : keeps_sockets (handleConnection socket).
Proof.
  unfold handleConnection.
  repeat first [ apply keeps_sockets_bind | intros ? | apply keeps_sockets_call
               | apply keeps_sockets_for_each ]; done.
Qed.

Lemma keeps_sockets_handleDisconnect socket : keeps_sockets (handleDisconnect socket).
Proof.
  unfold handleDisconnect.
  repeat first [ apply keeps_sockets_bind | intros ? | apply keeps_sockets_call ];
    done.
Qed.

Lemma keeps_sockets_dispatch socket name data :
  keeps_sockets (dispatch socket name data).
Proof.
  intros st. unfold dispatch.
  repeat match goal with |- context [String.eqb name ?x] =>
    destruct (String.eqb name x) end; try done.
  - by destruct (handleSendMessage_catches socket data st) as (_ & ? & _).
  - by destruct data.
  - by destruct data.
  - by destruct data.
  - by destruct data.
  - by destruct data.
Qed.

Lemma disconnection_sockets socket st :
  sockets (state_of (disconnection socket st)) = delete (sock_id socket) (sockets st).
Proof.
  unfold disconnection.
  destruct (bind _ _ st) as [[st' t] res] eqn:E. unfold state_of. simpl.
  apply bind_inv in E as [(e & E & ->) | (st1 & t1 & [] & t2 & E & E2 & ->)];
    unfold remove_socket in E; inversion E; subst.
  pose proof (keeps_sockets_handleDisconnect socket) as Hk.
  match type of E2 with _ ?s0 = _ => specialize (Hk s0) end.
  rewrite E2 in Hk. apply Hk.
Qed.

(** What the middleware answers, by the token and the verdict on it. *)
Lemma authMiddleware_cases socket hs st :
  let token := handshake_token hs in
  if Js.truthy token then
    match verifyToken token (db st) with
    | (d, Ok decoded) =>
        authMiddleware socket hs st =
          ({| db := d; sockets := sockets st; rooms := rooms st; clock := clock st |},
           [Called (VerifyToken token) None],
           Ok (NextOk {| sock_id := sock_id socket;
                         sock_userId := Some (jwt_userId decoded);
                         sock_user := Some {| su_id := jwt_userId decoded;
                                              su_email := jwt_email decoded;
                                              su_username := jwt_username decoded;
                                              su_role := jwt_role decoded |} |}))
    | (d, Err e) =>
        authMiddleware socket hs st =
          ({| db := d; sockets := sockets st; rooms := rooms st; clock := clock st |},
           [Called (VerifyToken token) (Some e)],
           Ok (NextError "Authentication failed"))
    end
  else
    authMiddleware socket hs st =
      (st, [], Ok (NextError "Authentication token is required")).
Proof.
  unfold authMiddleware, try_catch. simpl.
  destruct (Js.truthy (handshake_token hs)); simpl; [|done].
  unfold bind, call.
  by destruct (verifyToken (handshake_token hs) (db st)) as [d [decoded | e]].
Qed.

(** A handshake without a token, or with one that [verifyToken] refuses,
    registers nothing: no socket, no room, no event; the only effect is the
    [verifyToken] call, if there was a token. *)
Lemma refused_connection sid hs st :
  let token := handshake_token hs in
  let r := step (Connect sid hs) st in
  (Js.truthy token = false → r = (st, [], Ok tt))
  ∧ (∀ d e, Js.truthy token = true → verifyToken token (db st) = (d, Err e) →
       r = ({| db := d; sockets := sockets st; rooms := rooms st; clock := clock st |},
            [Called (VerifyToken token) (Some e)], Ok tt)).
Proof.
  intros token r. subst r token. unfold step, connection.
  pose proof (authMiddleware_cases
                {| sock_id := sid; sock_userId := None; sock_user := None |} hs st)
    as Hauth.
  simpl in Hauth. split.
  - intros Htoken. rewrite Htoken in Hauth. unfold bind. by rewrite Hauth.
  - intros d e Htoken Hverify. rewrite Htoken, Hverify in Hauth.
    unfold bind. by rewrite Hauth.
Qed.

(** One step of the server: a socket found in the namespace afterwards was
    there before, unchanged, or has just passed the middleware with a token
    that [verifyToken] accepted and carries the [userId] of that token. *)
Lemma step_sockets i st sid s :
  sockets (state_of (step i st)) !! sid = Some s →
  sockets st !! sid = Some s
  ∨ ∃ hs decoded d,
      i = Connect sid hs
      ∧ Js.truthy (handshake_token hs) = true
      ∧ verifyToken (handshake_token hs) (db st) = (d, Ok decoded)
      ∧ sock_id s = sid
      ∧ sock_userId s = Some (jwt_userId decoded).
Proof.
  destruct i as [sid0 hs | sid0 name data | sid0]; unfold step.
  - unfold connection.
    pose proof (authMiddleware_cases
                  {| sock_id := sid0; sock_userId := None; sock_user := None |} hs st)
      as Hauth.
    simpl in Hauth.
    destruct (Js.truthy (handshake_token hs)) eqn:Htoken.
    + destruct (verifyToken (handshake_token hs) (db st)) as [d [decoded | e]]
        eqn:Hverify.
      * unfold bind at 1. rewrite Hauth.
        match goal with |- context [bind (add_socket ?sk) ?k ?s0] =>
          destruct (bind (add_socket sk) k s0) as [[st2 t2] r2] eqn:E
        end.
        unfold state_of. simpl. intros Hlook.
        apply bind_inv in E as [(e & E & ->) | (st1 & t1 & [] & t3 & E & E2 & ->)];
          unfold add_socket in E; inversion E; subst.
        unfold registerEvents in E2.
        pose proof (keeps_sockets_handleConnection
                      {| sock_id := sid0; sock_userId := Some (jwt_userId decoded);
                         sock_user := Some {| su_id := jwt_userId decoded;
                                              su_email := jwt_email decoded;
                                              su_username := jwt_username decoded;
                                              su_role := jwt_role decoded |} |}) as Hc.
        match type of E2 with _ ?s0 = _ => specialize (Hc s0) end.
        rewrite E2 in Hc. unfold state_of in Hc. simpl in Hc.
        rewrite Hc in Hlook.
        destruct (decide (sid0 = sid)) as [-> | Hne].
        -- rewrite lookup_insert_eq in Hlook. inversion Hlook; subst.
           right. by exists hs, decoded, d.
        -- rewrite lookup_insert_ne in Hlook by done. by left.
      * unfold bind. rewrite Hauth. unfold state_of. simpl. by left.
    + unfold bind. rewrite Hauth. unfold state_of. simpl. by left.
  - destruct (sockets st !! sid0) as [socket |] eqn:Hs; [|by left].
    rewrite keeps_sockets_dispatch. by left.
  - destruct (sockets st !! sid0) as [socket |] eqn:Hs; [|by left].
    rewrite disconnection_sockets. intros Hlook.
    apply lookup_delete_Some in Hlook as [_ Hlook]. by left.
Qed.


Lemma state_of_run_cons i rest st :
  state_of (run (i :: rest) st) =
    match result_of (step i st) with
    | Ok _ => state_of (run rest (state_of (step i st)))
    | Err _ => state_of (step i st)
    end.
Proof.
  unfold run. simpl. unfold bind, state_of, result_of.
  destruct (step i st) as [[st1 t1] [[] | e]]; simpl; [|done].
  by destruct (for_each rest step st1) as [[st2 t2] r2].
Qed.

(** C9.  After any sequence of inputs, a socket found in the namespace (the
    sockets [registerEvents] was called on) was there at the start, or
    entered by a [Connect] whose handshake carried a token that
    [verifyToken] accepted at that moment; it still carries the [userId] of
    that token, and no other.  So a handshake with no token or a refused
    token registers nothing, and no later input changes a [userId]. *)
Theorem registered_sockets_are_authenticated inputs st sid s :
  sockets (state_of (run inputs st)) !! sid = Some s →
  sockets st !! sid = Some s
  ∨ ∃ pre hs post decoded d,
      inputs = pre ++ Connect sid hs :: post
      ∧ Js.truthy (handshake_token hs) = true
      ∧ verifyToken (handshake_token hs) (db (state_of (run pre st)))
        = (d, Ok decoded)
      ∧ sock_id s = sid
      ∧ sock_userId s = Some (jwt_userId decoded).
Proof.
  revert st. induction inputs as [| i rest IH]; intros st Hlook; [by left|].
  rewrite state_of_run_cons in Hlook.
  assert (Hstep : sockets (state_of (step i st)) !! sid = Some s →
            sockets st !! sid = Some s
            ∨ ∃ pre hs post decoded d,
                i :: rest = pre ++ Connect sid hs :: post
                ∧ Js.truthy (handshake_token hs) = true
                ∧ verifyToken (handshake_token hs) (db (state_of (run pre st)))
                  = (d, Ok decoded)
                ∧ sock_id s = sid
                ∧ sock_userId s = Some (jwt_userId decoded)).
  { intros H1. apply step_sockets in H1 as [H1 | (hs & decoded & d & -> & H1)];
      [by left|].
    right. by exists [], hs, rest, decoded, d. }
  destruct (result_of (step i st)) as [[] | e] eqn:Hres; [|by apply Hstep].
  apply IH in Hlook as [Hlook | (pre & hs & post & decoded & d & -> & Ht & Hv & Hs)];
    [by apply Hstep|].
  right. exists (i :: pre), hs, post, decoded, d. split_and!; try done.
  - by rewrite state_of_run_cons, Hres.
  - apply Hs.
  - apply Hs.
Qed.

(** [channel:join] with an object payload: the socket enters the room and
    is told so; no collaborator is asked. *)
Lemma handleJoinChannel_object socket fields st :
  let data := JObj fields in
  dispatch socket "channel:join" data st =
    (set_rooms (<[room_of data := {[sock_id socket]} ∪ members (room_of data) st]>
                  (rooms st)) st,
     [Emitted {[sock_id socket]} "channel:joined"
        (PObj [("channelId", Js.get "channelId" data)])],
     Ok tt).
Proof. done. Qed.

(** No packet handler emits a presence event. *)
Lemma dispatch_emits socket name data st to ev p :
  Emitted to ev p ∈ trace_of (dispatch socket name data st) →
  ev ≠ "user:offline" ∧ ev ≠ "user:online".
Proof.
  unfold dispatch.
  repeat match goal with |- context [String.eqb name ?x] =>
    destruct (String.eqb name x) end.
  - unfold handleSendMessage.
    pose proof (handleSendMessage_body_spec socket data st) as Hbody.
    simpl in Hbody. unfold state_of, trace_of, result_of in *.
    match goal with |- context [try_catch ?m ?k st] =>
      destruct (try_catch m k st) as [[st' t] res] eqn:E end.
    simpl.
    apply try_catch_inv in E as [([] & E & ->) | (st1 & t1 & e & t2 & E & E2 & ->)];
      rewrite E in Hbody; simpl in Hbody;
      destruct Hbody as (_ & _ & _ & Hemit).
    + intros Hin. by rewrite (Hemit _ _ _ Hin).
    + unfold socket_emit in E2. inversion E2; subst. intros Hin.
      split_elem Hin; [|done]. by rewrite (Hemit _ _ _ Hin).
  - destruct data; unfold trace_of; simpl; intros Hin; split_elem Hin; done.
  - destruct data; unfold trace_of; simpl; intros Hin; split_elem Hin; done.
  - destruct data; unfold trace_of; simpl; intros Hin; split_elem Hin; done.
  - destruct data; unfold trace_of; simpl; intros Hin; split_elem Hin; done.
  - destruct data; unfold trace_of; simpl; intros Hin; split_elem Hin; done.
  - unfold trace_of; simpl; intros Hin; split_elem Hin.
Qed.

(** Joining the rooms of the user's channels changes the rooms only. *)
Lemma for_each_join socket (channels : list Channel) st :
  ∃ r, for_each channels
         (fun channel => socket_join socket ("channel:" +:+ channel_id channel)) st
       = (set_rooms r st, [], Ok tt).
Proof.
  revert st. induction channels as [| ch channels IH]; intros st; simpl.
  - exists (rooms st). by destruct st.
  - unfold bind, socket_join at 1.
    match goal with |- context [for_each channels ?body ?s0] =>
      destruct (IH s0) as [r ->] end.
    by exists r.
Qed.

End HandlerFacts.

(** ** Facts on the in-memory deployment *)

Section MemFacts.

Import Mem.

(** C3 fails as worded: alice opens two connections and closes one; she is
    stored offline, and [user:offline] has gone out, while one connection
    is live. *)
Lemma offline_with_a_live_connection :
  let inputs := [Connect "A" (with_token "tok-alice");
                 Connect "A2" (with_token "tok-alice")] in
  let before := state_of (run inputs (server0 no_fault)) in
  let r := step (Disconnect "A") before in
  connectionCount "u1" before = 2
  ∧ stored_online "u1" (state_of r) = Some false
  ∧ connectionCount "u1" (state_of r) = 1
  ∧ offline_emitted "u1" (trace_of r)
  ∧ ¬ presence_matches "u1" (state_of r).
Proof.
  intros inputs before r.
  assert (H2 : connectionCount "u1" before = 2) by (vm_compute; reflexivity).
  assert (Hs : stored_online "u1" (state_of r) = Some false)
    by (vm_compute; reflexivity).
  assert (Hc : connectionCount "u1" (state_of r) = 1) by (vm_compute; reflexivity).
  assert (Ht : trace_of r =
               [Called (UpdateOnlineStatus (JStr "u1") false) None;
                Emitted {["A2"]} "user:offline" (PObj [("userId", JStr "u1")])])
    by (vm_compute; reflexivity).
  clearbody r before. split_and!; try done.
  - exists {["A2"]}. rewrite Ht. apply elem_of_cons. right. by apply elem_of_cons; left.
  - intros [Hm _]. specialize (Hm Hs). rewrite Hc in Hm. discriminate.
Qed.


(** C4 fails as worded: alice, a member of [r1], sends [hi]; the message
    is stored, then the update of the channel's message count throws:
    nobody gets [message:new], and alice gets an [error] event. *)
Lemma stored_but_not_broadcast :
  let st := both_connected count_update_fails in
  let data := obj_send "r1" "hi" in
  let r := handleSendMessage (alice_socket "A") data st in
  sockets st !! "A" = Some (alice_socket "A")
  ∧ isUserMember (JStr "r1") (JStr "u1") (db st) = (db st, Ok true)
  ∧ members (room_of data) st = {["A"; "B"]}
  ∧ creates (trace_of r) = [(input_of (alice_socket "A") data, true)]
  ∧ (∀ sid, ¬ received sid "message:new" (trace_of r))
  ∧ ¬ stores_and_broadcasts (alice_socket "A") data st.
Proof.
  intros st data r.
  assert (Hsock : sockets st !! "A" = Some (alice_socket "A"))
    by (vm_compute; reflexivity).
  assert (Hmem : isUserMember (JStr "r1") (JStr "u1") (db st) = (db st, Ok true))
    by (vm_compute; reflexivity).
  assert (Hroom : members (room_of data) st = {["A"; "B"]})
    by (vm_compute; reflexivity).
  assert (Ht : trace_of r =
               [Called (IsUserMember (JStr "r1") (JStr "u1")) None;
                Called (MessageCreate (input_of (alice_socket "A") data)) None;
                Called (IncrementMessageCount (JStr "r1"))
                  (Some (ErrorObj "Connection terminated unexpectedly"));
                Emitted {["A"]} "error"
                  (PObj [("event", JStr "message:send");
                         ("message", JStr "Connection terminated unexpectedly")])])
    by (vm_compute; reflexivity).
  assert (Hnone : ∀ sid, ¬ received sid "message:new" (trace_of r)).
  { intros sid (to & p & Hin & _). rewrite Ht in Hin. clearbody r st.
    repeat (apply elem_of_cons in Hin as [Hin | Hin]; [discriminate|]).
    by apply elem_of_nil in Hin. }
  unfold stores_and_broadcasts. fold r. rewrite Hroom.
  clearbody r st. split_and!; try done.
  - by rewrite Ht.
  - intros (m & _ & Hall).
    destruct (Hall "A") as (to & Hin & Hsid); [set_solver|].
    apply (Hnone "A"). exists to, (PEntity m). by split.
Qed.

(** C6 fails as worded: alice asks for [away]; the store still shows her
    [online], the state of the server is the one before, and everybody is
    told [away]. *)
Lemma presence_update_is_not_stored :
  let st := both_connected no_fault in
  let r := step (Packet "A" "presence:update" (JObj [("status", JStr "away")])) st in
  state_of r = st
  ∧ tracked_status "u1" (state_of r) = Some "online"
  ∧ tracked_status "u1" (state_of r) ≠ Some "away"
  ∧ trace_of r =
      [Emitted {["A"; "B"]} "user:presence"
         (PStamped [("userId", JStr "u1"); ("status", JStr "away")] 1000)].
Proof.
  intros st r.
  assert (Hst : state_of r = st) by (vm_compute; reflexivity).
  assert (Hs : tracked_status "u1" (state_of r) = Some "online")
    by (vm_compute; reflexivity).
  assert (Ht : trace_of r =
               [Emitted {["A"; "B"]} "user:presence"
                  (PStamped [("userId", JStr "u1"); ("status", JStr "away")] 1000)])
    by (vm_compute; reflexivity).
  clearbody r st. split_and!; try done. rewrite Hs. discriminate.
Qed.

(** A sent message goes out twice to each socket of the room: once from
    [sendMessage] through [socketManager.emitToChannel], once from
    [handleSendMessage]. *)
Example message_new_goes_out_twice :
  let m0 := {| msg_id := "m0"; msg_senderId := JStr "u1"; msg_channelId := JStr "r1";
               msg_content := JStr "hi"; msg_type := JStr "text" |} in
  trace_of (handleSendMessage (alice_socket "A") (obj_send "r1" "hi")
              (both_connected no_fault))
  = [Called (IsUserMember (JStr "r1") (JStr "u1")) None;
     Called (MessageCreate (input_of (alice_socket "A") (obj_send "r1" "hi"))) None;
     Called (IncrementMessageCount (JStr "r1")) None;
     Emitted {["A"; "B"]} "message:new" (PEntity m0);
     Emitted {["A"; "B"]} "message:new" (PEntity m0)].
Proof. vm_compute. reflexivity. Qed.

(** C2: the code at the failing input.  Alice is not a member of [r2]; her
    [channel:join] for [r2] asks no collaborator, puts her socket in the
    room and acknowledges it to her alone; bob's next message to [r2] then
    reaches her socket. *)
Theorem join_is_not_authorized :
  let st := both_connected no_fault in
  let r1 := step (Packet "A" "channel:join" (JObj [("channelId", JStr "r2")])) st in
  let r2 := step (Packet "B" "message:send" (obj_send "r2" "for members only"))
              (state_of r1) in
  isUserMember (JStr "r2") (JStr "u1") (db st) = (db st, Ok false)
  ∧ members "channel:r2" st = {["B"]}
  ∧ trace_of r1 = [Emitted {["A"]} "channel:joined" (PObj [("channelId", JStr "r2")])]
  ∧ members "channel:r2" (state_of r1) = {["A"; "B"]}
  ∧ received "A" "message:new" (trace_of r2).
Proof.
  intros st r1 r2.
  assert (H1 : isUserMember (JStr "r2") (JStr "u1") (db st) = (db st, Ok false))
    by (vm_compute; reflexivity).
  assert (H2 : members "channel:r2" st = {["B"]}) by (vm_compute; reflexivity).
  assert (H3 : trace_of r1 =
               [Emitted {["A"]} "channel:joined" (PObj [("channelId", JStr "r2")])])
    by (vm_compute; reflexivity).
  assert (H4 : members "channel:r2" (state_of r1) = {["A"; "B"]})
    by (vm_compute; reflexivity).
  assert (H5 : ∃ t m, trace_of r2 = t ++ [Emitted {["A"; "B"]} "message:new" (PEntity m)]).
  { eexists [_; _; _; _], _. vm_compute. reflexivity. }
  clearbody r2 r1 st. split_and!; try done.
  destruct H5 as (t & m & ->). exists {["A"; "B"]}, (PEntity m).
  split; [|set_solver]. apply elem_of_app. right. by apply elem_of_cons; left.
Qed.


(** *** Presence for a user who holds one connection at a time *)

Lemma guarded_free {A} c (f : MemDB -> MemDB * Result A) d :
  mdb_fault d c = None → guarded c f d = f d.
Proof. unfold guarded. by intros ->. Qed.

Lemma keeps_presence_bind {A B} (m : @M MemDB A) (k : A -> @M MemDB B) :
  keeps_presence m → (∀ a, keeps_presence (k a)) → keeps_presence (bind m k).
Proof.
  intros Hm Hk st. specialize (Hm st). unfold bind, state_of in *.
  destruct (m st) as [[st1 t1] [a | e]]; simpl in *; [|done].
  specialize (Hk a st1). unfold state_of in Hk.
  destruct (k a st1) as [[st2 t2] r2]; simpl in *.
  destruct Hm, Hk. split; congruence.
Qed.

Lemma keeps_presence_try_catch {A} (m : @M MemDB A) (h : JsThrown -> @M MemDB A) :
  keeps_presence m → (∀ e, keeps_presence (h e)) → keeps_presence (try_catch m h).
Proof.
  intros Hm Hh st. specialize (Hm st). unfold try_catch, state_of in *.
  destruct (m st) as [[st1 t1] [a | e]]; simpl in *; [done|].
  specialize (Hh e st1). unfold state_of in Hh.
  destruct (h e st1) as [[st2 t2] r2]; simpl in *.
  destruct Hm, Hh. split; congruence.
Qed.

Lemma keeps_presence_for_each {A} (xs : list A) (body : A -> @M MemDB unit) :
  (∀ x, keeps_presence (body x)) → keeps_presence (for_each xs body).
Proof.
  intros Hbody. induction xs as [| x xs IH]; simpl; [done|].
  apply keeps_presence_bind; [apply Hbody | intros _; apply IH].
Qed.

Lemma keeps_presence_call {A} c (f : MemDB -> MemDB * Result A) :
  (∀ d, mdb_online (f d).1 = mdb_online d ∧ mdb_fault (f d).1 = mdb_fault d) →
  keeps_presence (call c (guarded c f)).
Proof.
  intros Hf st. unfold call, guarded, state_of.
  destruct (mdb_fault (db st) c); [done|].
  specialize (Hf (db st)). by destruct (f (db st)).
Qed.

Lemma keeps_presence_sendMessage senderId channelId content type :
  keeps_presence (sendMessage senderId channelId content type).
Proof.
  unfold sendMessage. apply keeps_presence_bind.
  { apply keeps_presence_call. intros d. unfold mem_isUserMember.
    by destruct channelId, senderId. }
  intros [|]; [|done]. simpl. apply keeps_presence_bind.
  { by apply keeps_presence_call. }
  intros message. apply keeps_presence_bind.
  { destruct content; try done. apply keeps_presence_for_each. intros username.
    unfold createMention. apply keeps_presence_bind.
    - by apply keeps_presence_call.
    - intros [u |]; [|done]. by apply keeps_presence_call. }
  intros _. apply keeps_presence_bind.
  { apply keeps_presence_call. intros d. unfold mem_incrementMessageCount.
    by destruct channelId. }
  intros _. by apply keeps_presence_bind.
Qed.

Lemma keeps_presence_dispatch socket name data :
  keeps_presence (dispatch socket name data).
Proof.
  unfold dispatch.
  repeat match goal with |- context [String.eqb name ?x] =>
    destruct (String.eqb name x) end; try done.
  - unfold handleSendMessage. apply keeps_presence_try_catch; [|done].
    unfold handleSendMessage_body. apply keeps_presence_bind; [done|].
    intros d. apply keeps_presence_bind; [|done].
    apply keeps_presence_sendMessage.
  - intros st. by destruct data.
  - intros st. by destruct data.
  - intros st. by destruct data.
  - intros st. by destruct data.
  - intros st. by destruct data.
Qed.


Lemma mem_updateOnlineStatus_spec v b d :
  ∃ d', mem_updateOnlineStatus (JStr v) b d = (d', Ok tt)
        ∧ mdb_online d' = online_after v b d
        ∧ mdb_fault d' = mdb_fault d
        ∧ mdb_members d' = mdb_members d.
Proof.
  unfold mem_updateOnlineStatus, online_after.
  destruct (mdb_online d !! v); eauto.
Qed.

Lemma mem_handleConnection socket v st :
  fault_free st → sock_userId socket = Some v →
  ∃ d' r,
    handleConnection socket st =
      ({| db := d'; sockets := sockets st; rooms := r; clock := clock st |},
       [Called (UpdateOnlineStatus (JStr v) true) None;
        Called (FindUserChannels (JStr v)) None;
        Emitted (dom (sockets st)) "user:online" (PObj [("userId", JStr v)])],
       Ok tt)
    ∧ mdb_online d' = online_after v true (db st)
    ∧ mdb_fault d' = mdb_fault (db st).
Proof.
  intros Hff Hv. unfold handleConnection, userService_updateOnlineStatus,
    getUserChannels. rewrite Hv. simpl.
  destruct (mem_updateOnlineStatus_spec v true (db st)) as (d' & Hupd & Ho & Hf & _).
  unfold bind at 1, socket_join at 1. unfold bind at 1, call at 1. simpl.
  rewrite guarded_free by apply Hff. rewrite Hupd.
  unfold bind at 1, call at 1. simpl.
  rewrite guarded_free by (rewrite Hf; apply Hff). simpl.
  unfold bind at 1.
  match goal with |- context [for_each ?cs ?body ?s0] =>
    destruct (for_each_join socket cs s0) as [r Hr] end.
  rewrite Hr. unfold io_emit. simpl. exists d', r. done.
Qed.

Lemma mem_handleDisconnect socket st :
  fault_free st →
  ∃ d',
    handleDisconnect socket st =
      ({| db := d'; sockets := sockets st; rooms := rooms st; clock := clock st |},
       [Called (UpdateOnlineStatus (nonnull (sock_userId socket)) false) None;
        Emitted (dom (sockets st)) "user:offline"
          (PObj [("userId", nonnull (sock_userId socket))])],
       Ok tt)
    ∧ mdb_fault d' = mdb_fault (db st)
    ∧ mdb_online d' = match sock_userId socket with
                      | Some v => online_after v false (db st)
                      | None => mdb_online (db st)
                      end.
Proof.
  intros Hff. unfold handleDisconnect, userService_updateOnlineStatus.
  unfold bind, call, io_emit.
  change (updateOnlineStatus (nonnull (sock_userId socket)) false)
    with (guarded (UpdateOnlineStatus (nonnull (sock_userId socket)) false)
            (mem_updateOnlineStatus (nonnull (sock_userId socket)) false)).
  rewrite guarded_free by apply Hff.
  destruct (sock_userId socket) as [v |]; cbn [nonnull].
  - destruct (mem_updateOnlineStatus_spec v false (db st)) as (d' & -> & Ho & Hf & _).
    by exists d'.
  - by exists (db st).
Qed.


Lemma verifyToken_db token (d d' : MemDB) (r : Result JWTPayload) :
  verifyToken token d = (d', r) → d' = d.
Proof.
  simpl. unfold guarded, mem_verifyToken.
  destruct (mdb_fault d (VerifyToken token)); [by intros [= <- _]|].
  destruct token; try by intros [= <- _].
  destruct (mdb_tokens d !! s); by intros [= <- _].
Qed.

Lemma count_insert_same u sid s (m : gmap string SocketWithAuth) :
  m !! sid = None → sock_userId s = Some u →
  size (filter (fun kv : string * SocketWithAuth => sock_userId kv.2 = Some u)
          (<[sid := s]> m))
  = S (size (filter (fun kv : string * SocketWithAuth => sock_userId kv.2 = Some u) m)).
Proof.
  intros Hfresh Hu. rewrite map_filter_insert_True by done.
  apply map_size_insert_None. apply map_lookup_filter_None. by left.
Qed.

Lemma count_insert_other u sid s (m : gmap string SocketWithAuth) :
  m !! sid = None → sock_userId s ≠ Some u →
  filter (fun kv : string * SocketWithAuth => sock_userId kv.2 = Some u)
    (<[sid := s]> m)
  = filter (fun kv : string * SocketWithAuth => sock_userId kv.2 = Some u) m.
Proof.
  intros Hfresh Hu. apply map_filter_insert_not'; [done|].
  intros y Hy. rewrite Hfresh in Hy. discriminate.
Qed.

Lemma count_delete_same u sid s (m : gmap string SocketWithAuth) :
  m !! sid = Some s → sock_userId s = Some u →
  size (filter (fun kv : string * SocketWithAuth => sock_userId kv.2 = Some u)
          (delete sid m))
  = pred (size (filter (fun kv : string * SocketWithAuth => sock_userId kv.2 = Some u) m)).
Proof.
  intros Hs Hu. rewrite map_filter_delete. apply map_size_delete_Some.
  exists s. by apply map_lookup_filter_Some.
Qed.

Lemma count_positive u sid s (m : gmap string SocketWithAuth) :
  m !! sid = Some s → sock_userId s = Some u →
  size (filter (fun kv : string * SocketWithAuth => sock_userId kv.2 = Some u) m) ≠ 0.
Proof.
  intros Hs Hu Hsize. apply map_size_empty_iff in Hsize.
  by apply (map_filter_empty_not_lookup _ _ sid s) in Hsize.
Qed.

Lemma count_delete_other u sid s (m : gmap string SocketWithAuth) :
  m !! sid = Some s → sock_userId s ≠ Some u →
  filter (fun kv : string * SocketWithAuth => sock_userId kv.2 = Some u)
    (delete sid m)
  = filter (fun kv : string * SocketWithAuth => sock_userId kv.2 = Some u) m.
Proof.
  intros Hs Hu. apply map_filter_delete_not. intros y Hy.
  rewrite Hs in Hy. by inversion Hy; subst.
Qed.

Lemma online_after_same u b d :
  is_Some (mdb_online d !! u) → online_after u b d !! u = Some b.
Proof. intros [x Hx]. unfold online_after. rewrite Hx. apply lookup_insert_eq. Qed.

Lemma online_after_other u v b d :
  v ≠ u → online_after v b d !! u = mdb_online d !! u.
Proof.
  intros Hne. unfold online_after. destruct (mdb_online d !! v); [|done].
  by apply lookup_insert_ne.
Qed.

Lemma mem_connect_accepted sid hs st decoded :
  fault_free st →
  Js.truthy (handshake_token hs) = true →
  verifyToken (handshake_token hs) (db st) = (db st, Ok decoded) →
  ∃ d' r,
    step (Connect sid hs) st =
      ({| db := d';
          sockets := <[sid := accepted_socket sid decoded]> (sockets st);
          rooms := r; clock := clock st |},
       [Called (VerifyToken (handshake_token hs)) None;
        Called (UpdateOnlineStatus (JStr (jwt_userId decoded)) true) None;
        Called (FindUserChannels (JStr (jwt_userId decoded))) None;
        Emitted (dom (<[sid := accepted_socket sid decoded]> (sockets st)))
          "user:online" (PObj [("userId", JStr (jwt_userId decoded))])],
       Ok tt)
    ∧ mdb_online d' = online_after (jwt_userId decoded) true (db st)
    ∧ mdb_fault d' = mdb_fault (db st).
Proof.
  intros Hff Htoken Hverify. unfold step, connection.
  pose proof (authMiddleware_cases
                {| sock_id := sid; sock_userId := None; sock_user := None |} hs st)
    as Hauth.
  cbv zeta in Hauth. rewrite Htoken, Hverify in Hauth.
  unfold bind at 1. rewrite Hauth. cbn [sock_id].
  fold (accepted_socket sid decoded).
  unfold bind, add_socket, registerEvents.
  match goal with |- context [handleConnection ?sk ?s0] =>
    destruct (mem_handleConnection sk (jwt_userId decoded) s0) as (d' & r & -> & Ho & Hf)
  end; [done | done |].
  exists d', r. done.
Qed.

Lemma mem_disconnect sid socket st :
  fault_free st → sockets st !! sid = Some socket →
  ∃ d' r,
    step (Disconnect sid) st =
      ({| db := d'; sockets := delete (sock_id socket) (sockets st);
          rooms := r; clock := clock st |},
       [Called (UpdateOnlineStatus (nonnull (sock_userId socket)) false) None;
        Emitted (dom (delete (sock_id socket) (sockets st))) "user:offline"
          (PObj [("userId", nonnull (sock_userId socket))])],
       Ok tt)
    ∧ mdb_fault d' = mdb_fault (db st)
    ∧ mdb_online d' = match sock_userId socket with
                      | Some v => online_after v false (db st)
                      | None => mdb_online (db st)
                      end.
Proof.
  intros Hff Hs. unfold step. rewrite Hs. unfold disconnection, bind, remove_socket.
  match goal with |- context [handleDisconnect socket ?s0] =>
    destruct (mem_handleDisconnect socket s0) as (d' & -> & Hf & Ho)
  end; [done|].
  eexists d', _. done.
Qed.

Lemma session_step u i st :
  session_inv u st → one_at_a_time u i st →
  session_inv u (state_of (step i st))
  ∧ (offline_emitted u (trace_of (step i st)) →
     connectionCount u st = 1 ∧ connectionCount u (state_of (step i st)) = 0).
Proof.
  intros (Hff & Hids & Hrow & Hle & Hpm) Hone.
  assert (Hsame : ∀ r : Server MemDB * list Effect * Result unit,
            r = (st, [], Ok tt) →
            session_inv u (state_of r)
            ∧ (offline_emitted u (trace_of r) →
               connectionCount u st = 1 ∧ connectionCount u (state_of r) = 0)).
  { intros r ->. split; [done|]. intros (to & Hin). by apply elem_of_nil in Hin. }
  destruct i as [sid hs | sid name data | sid].
  - destruct Hone as [Hfresh Hzero].
    destruct (Js.truthy (handshake_token hs)) eqn:Htoken.
    2:{ apply Hsame. by apply refused_connection. }
    destruct (verifyToken (handshake_token hs) (db st)) as [d [decoded | e]]
      eqn:Hverify; pose proof (verifyToken_db _ _ _ _ Hverify) as ->.
    2:{ destruct (refused_connection sid hs st) as [_ Hrefused].
        rewrite (Hrefused _ _ Htoken Hverify). unfold state_of, trace_of. simpl.
        split.
        - by destruct st.
        - intros (to & Hin). apply list_elem_of_singleton in Hin. discriminate. }
    destruct (mem_connect_accepted sid hs st decoded Hff Htoken Hverify)
      as (d' & r & -> & Ho & Hf).
    unfold state_of, trace_of. simpl. split.
    2:{ intros (to & Hin).
        repeat (apply elem_of_cons in Hin as [Hin | Hin]; [discriminate|]).
        by apply elem_of_nil in Hin. }
    unfold session_inv, fault_free, ids_ok, presence_matches, stored_online,
      connectionCount, connections_of in *. simpl.
    specialize (Hzero decoded (db st) eq_refl).
    split_and!.
    + intros c. by rewrite Hf.
    + intros sid' s. destruct (decide (sid = sid')) as [<- | Hne].
      * rewrite lookup_insert_eq. by intros [= <-].
      * rewrite lookup_insert_ne by done. apply Hids.
    + rewrite Ho. destruct (decide (jwt_userId decoded = u)) as [<- | Hne].
      * rewrite online_after_same by done. done.
      * by rewrite online_after_other.
    + destruct (decide (jwt_userId decoded = u)) as [Hu | Hne].
      * rewrite count_insert_same by (done || by rewrite <- Hu).
        rewrite (Hzero Hu). done.
      * rewrite count_insert_other; [done | done |]. simpl. congruence.
    + rewrite Ho. destruct (decide (jwt_userId decoded = u)) as [Hu | Hne].
      * rewrite count_insert_same by (done || by rewrite <- Hu).
        rewrite <- Hu at 1. rewrite online_after_same by (by rewrite Hu).
        done.
      * rewrite count_insert_other; [| done |]; [|simpl; congruence].
        by rewrite online_after_other.
  - unfold step. destruct (sockets st !! sid) as [socket |] eqn:Hs; [|by apply Hsame].
    pose proof (keeps_sockets_dispatch socket name data st) as Hsock.
    pose proof (keeps_presence_dispatch socket name data st) as [Hon Hfa].
    split.
    + unfold session_inv, fault_free, ids_ok, presence_matches, stored_online,
        connectionCount, connections_of in *.
      rewrite Hsock, Hon, Hfa. done.
    + intros (to & Hin). apply dispatch_emits in Hin as [Hin _]. done.
  - unfold one_at_a_time in Hone.
    destruct (sockets st !! sid) as [socket |] eqn:Hs.
    2:{ apply Hsame. unfold step. by rewrite Hs. }
    destruct (mem_disconnect sid socket st Hff Hs) as (d' & r & -> & Hf & Ho).
    pose proof (Hids _ _ Hs) as Hid. rewrite Hid in *.
    unfold state_of, trace_of. simpl.
    unfold session_inv, fault_free, ids_ok, presence_matches, stored_online,
      connectionCount, connections_of, offline_emitted in *. simpl.
    destruct (decide (sock_userId socket = Some u)) as [Hu | Hne].
    + rewrite Hu in *. rewrite Ho.
      pose proof (count_positive u sid socket (sockets st) Hs Hu) as Hpos.
      rewrite (count_delete_same u sid socket) by done.
      rewrite online_after_same by done.
      split_and!; try done.
      * intros c. by rewrite Hf.
      * intros sid' s [_ Hl]%lookup_delete_Some. by apply Hids.
      * lia.
      * split; [lia | done].
      * intros _. lia.
    + rewrite (count_delete_other u sid socket) by done.
      assert (Hstored : mdb_online d' !! u = mdb_online (db st) !! u).
      { rewrite Ho. destruct (sock_userId socket) as [v |]; [|done].
        apply online_after_other. congruence. }
      rewrite Hstored. split_and!; try done.
      * intros c. by rewrite Hf.
      * intros sid' s [_ Hl]%lookup_delete_Some. by apply Hids.
      * intros (to & Hin).
        repeat (apply elem_of_cons in Hin as [Hin | Hin]; [|]); try discriminate.
        -- inversion Hin as [[Hto Hv]]. destruct (sock_userId socket); [|done].
           simpl in Hv. congruence.
        -- by apply elem_of_nil in Hin.
Qed.

Lemma single_session_inv u st : single_session u st → session_inv u st.
Proof.
  induction 1 as [st Hff Hempty Hoff | st i _ IH Hone].
  - assert (Hcount : connectionCount u st = 0).
    { unfold connectionCount, connections_of. rewrite Hempty.
      by rewrite map_filter_empty. }
    unfold session_inv, ids_ok, presence_matches. rewrite Hcount, Hoff, Hempty.
    split_and!; try done. lia.
  - by apply session_step.
Qed.

Theorem presence_for_single_sessions u st :
  single_session u st →
  presence_matches u st
  ∧ ∀ i, one_at_a_time u i st →
      offline_emitted u (trace_of (step i st)) →
      connectionCount u st = 1 ∧ connectionCount u (state_of (step i st)) = 0.
Proof.
  intros Hs. apply single_session_inv in Hs as Hinv. split.
  - apply Hinv.
  - intros i Hone. by apply session_step.
Qed.

Lemma presence_for_single_sessions_witness :
  single_session "u1"
    (state_of (step (Connect "A" (with_token "tok-alice")) (server0 no_fault)))
  ∧ presence_matches "u1"
      (state_of (step (Connect "A" (with_token "tok-alice")) (server0 no_fault))).
Proof.
  assert (H : single_session "u1"
                (state_of (step (Connect "A" (with_token "tok-alice"))
                             (server0 no_fault)))).
  { apply single_step.
    - apply single_start; [by intros c | reflexivity | vm_compute; reflexivity].
    - split; [vm_compute; reflexivity | intros; vm_compute; reflexivity]. }
  split; [exact H | exact (proj1 (presence_for_single_sessions _ _ H))].
Defined.

Lemma send_by_non_member_rejected_witness :
  isUserMember (JStr "r2") (JStr "u1") (db (both_connected no_fault))
    = (db (both_connected no_fault), Ok false)
  ∧ creates (trace_of (handleSendMessage (alice_socket "A") (obj_send "r2" "hi")
                         (both_connected no_fault))) = [].
Proof.
  assert (H : isUserMember (JStr "r2") (JStr "u1") (db (both_connected no_fault))
              = (db (both_connected no_fault), Ok false))
    by (vm_compute; reflexivity).
  split; [exact H|].
  exact (proj1 (send_by_non_member_rejected (alice_socket "A")
                  [("channelId", JStr "r2"); ("content", JStr "hi");
                   ("type", JStr "text")]
                  (both_connected no_fault) (db (both_connected no_fault)) H)).
Defined.

Lemma send_by_member_stores_and_broadcasts_witness :
  all_returned (trace_of (handleSendMessage (alice_socket "A") (obj_send "r1" "hi")
                            (both_connected no_fault))) = true
  ∧ result_of (handleSendMessage (alice_socket "A") (obj_send "r1" "hi")
                 (both_connected no_fault)) = Ok tt.
Proof.
  assert (Hmem : isUserMember (JStr "r1") (JStr "u1") (db (both_connected no_fault))
                 = (db (both_connected no_fault), Ok true))
    by (vm_compute; reflexivity).
  assert (Hall : all_returned
                   (trace_of (handleSendMessage (alice_socket "A") (obj_send "r1" "hi")
                                (both_connected no_fault))) = true)
    by (vm_compute; reflexivity).
  split; [exact Hall|].
  destruct (send_by_member_stores_and_broadcasts (alice_socket "A")
              [("channelId", JStr "r1"); ("content", JStr "hi"); ("type", JStr "text")]
              "hi" (both_connected no_fault) (db (both_connected no_fault))
              eq_refl Hmem Hall) as (m & d2 & _ & _ & _ & _ & _ & Hres).
  exact Hres.
Defined.

Lemma inbound_errors_stay_with_sender_witness :
  "message:send" ∈ ["message:send"; "channel:join"; "channel:leave"]
  ∧ result_of (dispatch (alice_socket "A") "message:send" (obj_send "r1" "hi")
                 (both_connected count_update_fails)) = Ok tt.
Proof.
  assert (H : "message:send" ∈ ["message:send"; "channel:join"; "channel:leave"])
    by (apply elem_of_cons; left; reflexivity).
  split; [exact H|].
  exact (proj1 (inbound_errors_stay_with_sender (alice_socket "A") "message:send"
                  (obj_send "r1" "hi") (both_connected count_update_fails) H)).
Defined.

Lemma registered_sockets_are_authenticated_witness :
  sockets (state_of (run [Connect "A" (with_token "tok-alice")] (server0 no_fault)))
    !! "A" = Some (alice_socket "A")
  ∧ (sockets (server0 no_fault) !! "A" = Some (alice_socket "A")
     ∨ ∃ pre hs post decoded d,
         [Connect "A" (with_token "tok-alice")] = pre ++ Connect "A" hs :: post
         ∧ Js.truthy (handshake_token hs) = true
         ∧ verifyToken (handshake_token hs)
             (db (state_of (run pre (server0 no_fault)))) = (d, Ok decoded)
         ∧ sock_id (alice_socket "A") = "A"
         ∧ sock_userId (alice_socket "A") = Some (jwt_userId decoded)).
Proof.
  assert (H : sockets (state_of (run [Connect "A" (with_token "tok-alice")]
                                   (server0 no_fault)))
              !! "A" = Some (alice_socket "A"))
    by (vm_compute; reflexivity).
  split; [exact H|].
  exact (registered_sockets_are_authenticated
           [Connect "A" (with_token "tok-alice")] (server0 no_fault) "A"
           (alice_socket "A") H).
Defined.

End MemFacts.

(** stdpp's solvers clear hypotheses that may be gone by then. *)
Set Warnings "-clear-no-such-hyp".

(** ** Mentions *)

Lemma list_ascii_roundtrip (l : list ascii) :
  list_ascii_of_string (string_of_list_ascii l) = l.
Proof. apply list_ascii_of_string_of_list_ascii. Qed.

Lemma scan_valid cur s m :
  (∀ acc, cur = Some acc →
     forallb ValidationUtil.is_mention_char acc = true ∧ (length acc ≤ 30)%nat) →
  m ∈ ValidationUtil.scan cur s →
  Validation.isValidUsername m = true.
Proof.
  assert (Hclose : ∀ acc,
            forallb ValidationUtil.is_mention_char acc = true →
            (length acc ≤ 30)%nat →
            m ∈ (if (3 <=? length acc)%nat then [string_of_list_ascii (rev acc)] else []) →
            Validation.isValidUsername m = true).
  { intros acc Hclass Hlen Hin.
    destruct (3 <=? length acc)%nat eqn:H3; [|by apply elem_of_nil in Hin].
    apply list_elem_of_singleton in Hin as ->.
    unfold Validation.isValidUsername. rewrite list_ascii_roundtrip.
    rewrite length_rev, H3.
    assert (Hrev : forallb ValidationUtil.is_mention_char (rev acc) = true).
    { apply forallb_forall. intros c Hc. apply in_rev in Hc.
      rewrite forallb_forall in Hclass. by apply Hclass. }
    rewrite Hrev. simpl. by apply Nat.leb_le. }
  revert cur. induction s as [| c rest IH]; intros cur Hcur Hin; simpl in Hin.
  - destruct cur as [acc |]; [|by apply elem_of_nil in Hin].
    destruct (Hcur acc eq_refl). by apply (Hclose acc).
  - assert (Hrestart : ∀ acc, (if ValidationUtil.is_at c then Some [] else None)
                              = Some acc →
                forallb ValidationUtil.is_mention_char acc = true
                ∧ (length acc ≤ 30)%nat).
    { intros acc Hacc. destruct (ValidationUtil.is_at c); [|done].
      inversion Hacc; subst. simpl. split; [done | lia]. }
    destruct cur as [acc |].
    + destruct (Hcur acc eq_refl) as [Hclass Hlen].
      destruct (ValidationUtil.is_mention_char c && (length acc <? 30)%nat) eqn:Hstep.
      * apply andb_true_iff in Hstep as [Hc Hlt]. apply Nat.ltb_lt in Hlt.
        apply (IH (Some (c :: acc))); [|done].
        intros acc' [= <-]. simpl. rewrite Hc, Hclass. split; [done | lia].
      * apply elem_of_app in Hin as [Hin | Hin]; [by apply (Hclose acc)|].
        by apply (IH _ Hrestart).
    + by apply (IH _ Hrestart).
Qed.

(** X1.  Every name [extractMentions] returns passes [isValidUsername], and
    with its [@] in front passes [isValidMention]: 3 to 30 characters, all
    of them letters, digits, [_] or [-]. *)
Theorem extracted_mentions_are_valid text m :
  m ∈ ValidationUtil.extractMentions text →
  Validation.isValidUsername m = true
  ∧ Validation.isValidMention ("@" +:+ m) = true.
Proof.
  intros Hin. assert (Hv : Validation.isValidUsername m = true).
  { apply (scan_valid None (list_ascii_of_string text)); [done | done]. }
  split; [done|]. simpl. exact Hv.
Qed.

Lemma extracted_mentions_are_valid_witness :
  "carol-9" ∈ ValidationUtil.extractMentions "hi @bob and @al, @carol-9!"
  ∧ Validation.isValidUsername "carol-9" = true.
Proof.
  assert (H : "carol-9" ∈ ValidationUtil.extractMentions "hi @bob and @al, @carol-9!").
  { vm_compute. apply elem_of_cons. right. apply elem_of_cons. by left. }
  split; [exact H | exact (proj1 (extracted_mentions_are_valid _ _ H))].
Defined.

Lemma scan_count cur s :
  (length (ValidationUtil.scan cur s)
   ≤ length (List.filter ValidationUtil.is_at s)
     + match cur with Some _ => 1 | None => 0 end)%nat.
Proof.
  revert cur. induction s as [| c rest IH]; intros cur; simpl.
  - destruct cur as [acc |]; [|done].
    match goal with |- context [if ?b then [_] else []] => destruct b end;
      simpl; lia.
  - destruct cur as [acc |].
    + destruct (ValidationUtil.is_mention_char c && _) eqn:Hstep.
      * specialize (IH (Some (c :: acc))). simpl in IH.
        destruct (ValidationUtil.is_at c); simpl; lia.
      * rewrite length_app.
        specialize (IH (if ValidationUtil.is_at c then Some [] else None)).
        match goal with |- context [if ?b then [_] else []] => destruct b end;
          destruct (ValidationUtil.is_at c); simpl in *; lia.
    + specialize (IH (if ValidationUtil.is_at c then Some [] else None)).
      destruct (ValidationUtil.is_at c); simpl in *; lia.
Qed.

(** X2.  [extractMentions] returns at most one name per [@] of the text (so
    none for a text without [@]). *)
Theorem mentions_bounded_by_at_signs text :
  (length (ValidationUtil.extractMentions text) ≤ Validation.count_at text)%nat.
Proof.
  pose proof (scan_count None (list_ascii_of_string text)) as Hc. simpl in Hc.
  unfold ValidationUtil.extractMentions, Validation.count_at. lia.
Qed.

(** ** Rooms under [channel:join] and [channel:leave] *)

Section RoomFacts.

Context {DB : Type} `{!Collaborators DB}.

Implicit Types (st : Server DB) (socket : SocketWithAuth).

Lemma members_join socket room st room' sid' :
  sid' ∈ members room' (state_of (socket_join socket room st)) ↔
  sid' ∈ members room' st ∨ (room' = room ∧ sid' = sock_id socket).
Proof.
  unfold socket_join, state_of, members. simpl.
  destruct (decide (room' = room)) as [-> | Hne].
  - rewrite lookup_total_insert_eq. set_unfold. naive_solver.
  - rewrite lookup_total_insert_ne by done. naive_solver.
Qed.

Lemma members_leave socket room st room' sid' :
  sid' ∈ members room' (state_of (socket_leave socket room st)) ↔
  sid' ∈ members room' st ∧ ¬ (room' = room ∧ sid' = sock_id socket).
Proof.
  unfold socket_leave, state_of, members. simpl.
  destruct (decide (room' = room)) as [-> | Hne].
  - case_decide as Hempty.
    + rewrite lookup_total_delete_eq. set_unfold. naive_solver.
    + rewrite lookup_total_insert_eq. set_unfold. naive_solver.
  - case_decide as Hempty.
    + rewrite lookup_total_delete_ne by done. naive_solver.
    + rewrite lookup_total_insert_ne by done. naive_solver.
Qed.


Lemma difference_twice (X : gset string) (a : string) :
  (X ∖ {[a]}) ∖ {[a]} = X ∖ {[a]}.
Proof. set_solver. Qed.

Lemma union_difference_same (X : gset string) (a : string) :
  ({[a]} ∪ X) ∖ {[a]} = X ∖ {[a]}.
Proof. set_solver. Qed.

Lemma union_difference_back (X : gset string) (a : string) :
  {[a]} ∪ X ∖ {[a]} = {[a]} ∪ X.
Proof.
  apply set_eq. intros x.
  rewrite !elem_of_union, elem_of_difference, elem_of_singleton.
  destruct (decide (x = a)); naive_solver.
Qed.

Lemma rooms_leave_leave socket room st :
  let once := state_of (socket_leave socket room st) in
  rooms (state_of (socket_leave socket room once)) = rooms once.
Proof.
  unfold socket_leave, state_of, members. simpl.
  destruct (decide (rooms st !!! room ∖ {[sock_id socket]} = ∅)) as [He | He];
    simpl.
  - rewrite lookup_total_delete_eq.
    rewrite decide_True by set_solver. by rewrite delete_delete_eq.
  - rewrite lookup_total_insert_eq, difference_twice.
    rewrite decide_False by done. by rewrite insert_insert_eq.
Qed.

Lemma rooms_join_leave socket room st :
  rooms (state_of (socket_leave socket room (state_of (socket_join socket room st))))
  = rooms (state_of (socket_leave socket room st)).
Proof.
  unfold socket_leave, socket_join, state_of, members. simpl.
  rewrite lookup_total_insert_eq, union_difference_same.
  destruct (decide (rooms st !!! room ∖ {[sock_id socket]} = ∅)).
  - by rewrite delete_insert_eq.
  - by rewrite insert_insert_eq.
Qed.

Lemma rooms_leave_join socket room st :
  rooms (state_of (socket_join socket room (state_of (socket_leave socket room st))))
  = rooms (state_of (socket_join socket room st)).
Proof.
  unfold socket_leave, socket_join, state_of, members. simpl.
  destruct (decide (rooms st !!! room ∖ {[sock_id socket]} = ∅)) as [He | He];
    simpl.
  - rewrite lookup_total_delete_eq, insert_delete_eq. f_equal.
    rewrite <- (union_difference_back (rooms st !!! room)), He. set_solver.
  - rewrite lookup_total_insert_eq, insert_insert_eq.
    by rewrite union_difference_back.
Qed.

Lemma dispatch_join_state socket data st :
  Js.destructure "channelId" data = Ok data →
  state_of (dispatch socket "channel:join" data st)
  = state_of (socket_join socket (room_of data) st).
Proof. by destruct data. Qed.

Lemma dispatch_leave_state socket data st :
  Js.destructure "channelId" data = Ok data →
  state_of (dispatch socket "channel:leave" data st)
  = state_of (socket_leave socket (room_of data) st).
Proof. by destruct data. Qed.

(** X4.  Handling [channel:leave] twice leaves the rooms as handling it
    once; a [channel:join] followed by a [channel:leave] for the same
    channel leaves them as the [channel:leave] alone, and a [channel:leave]
    followed by a [channel:join] as the [channel:join] alone: the last of
    the two decides, for every payload. *)
Theorem join_and_leave_compose socket data st :
  let join s := state_of (dispatch socket "channel:join" data s) in
  let leave s := state_of (dispatch socket "channel:leave" data s) in
  rooms (leave (leave st)) = rooms (leave st)
  ∧ rooms (leave (join st)) = rooms (leave st)
  ∧ rooms (join (leave st)) = rooms (join st).
Proof.
  intros join leave. subst join leave.
  destruct (Js.destructure "channelId" data) as [d | e] eqn:Hd.
  2:{ by destruct data. }
  assert (d = data) as -> by (by destruct data; inversion Hd).
  rewrite !dispatch_join_state, !dispatch_leave_state by done. split_and!.
  - apply rooms_leave_leave.
  - apply rooms_join_leave.
  - apply rooms_leave_join.
Qed.

End RoomFacts.

(** ** What a connection and a disconnection do *)

Section ConnectionFacts.

Context {DB : Type} `{!Collaborators DB}.

Local Abbreviation M := (@M DB) (only parsing).

Implicit Types (st : Server DB) (socket : SocketWithAuth).

Lemma for_each_join_spec socket (channels : list Channel) st :
  ∃ st',
    for_each channels
      (fun channel => socket_join socket ("channel:" +:+ channel_id channel)) st
    = (st', [], Ok tt)
    ∧ sockets st' = sockets st ∧ db st' = db st ∧ clock st' = clock st
    ∧ ∀ room sid,
        sid ∈ members room st' ↔
        sid ∈ members room st
        ∨ (sid = sock_id socket
           ∧ room ∈ map (fun channel => "channel:" +:+ channel_id channel) channels).
Proof.
  revert st. induction channels as [| ch channels IH]; intros st; simpl.
  - exists st. split_and!; try done. intros room sid. split; [by left|].
    intros [? | [_ Hin]]; [done | by apply elem_of_nil in Hin].
  - unfold bind, socket_join at 1.
    match goal with |- context [for_each channels ?body ?s0] =>
      destruct (IH s0) as (st' & -> & Hs & Hd & Hc & Hm) end.
    exists st'. split_and!; try done. intros room sid. rewrite Hm.
    pose proof (members_join socket ("channel:" +:+ channel_id ch) st room sid)
      as Hj.
    unfold socket_join, state_of in Hj. simpl in Hj. rewrite Hj.
    rewrite elem_of_cons. naive_solver.
Qed.

(** [handleConnection], by what its two collaborator calls answer. *)
Lemma handleConnection_run socket st :
  let userId := nonnull (sock_userId socket) in
  let own := <["user:" +:+ Js.to_string userId :=
                {[sock_id socket]} ∪ members ("user:" +:+ Js.to_string userId) st]>
               (rooms st) in
  handleConnection socket st =
    match updateOnlineStatus userId true (db st) with
    | (d1, Err e) =>
        ({| db := d1; sockets := sockets st; rooms := own; clock := clock st |},
         [Called (UpdateOnlineStatus userId true) (Some e)], Err e)
    | (d1, Ok _) =>
        match findUserChannels userId d1 with
        | (d2, Err e) =>
            ({| db := d2; sockets := sockets st; rooms := own; clock := clock st |},
             [Called (UpdateOnlineStatus userId true) None;
              Called (FindUserChannels userId) (Some e)], Err e)
        | (d2, Ok channels) =>
            (state_of
               (for_each channels
                  (fun channel =>
                     socket_join socket ("channel:" +:+ channel_id channel))
                  {| db := d2; sockets := sockets st; rooms := own;
                     clock := clock st |}),
             [Called (UpdateOnlineStatus userId true) None;
              Called (FindUserChannels userId) None;
              Emitted (dom (sockets st)) "user:online" (PObj [("userId", userId)])],
             Ok tt)
        end
    end.
Proof.
  intros userId own. unfold handleConnection, userService_updateOnlineStatus,
    getUserChannels. fold userId.
  unfold bind at 1, socket_join at 1. unfold bind at 1, call at 1. simpl.
  fold own. destruct (updateOnlineStatus userId true (db st)) as [d1 [[] | e]];
    [|done].
  unfold bind at 1, call at 1. simpl.
  destruct (findUserChannels userId d1) as [d2 [channels | e]]; [|done].
  unfold bind at 1.
  match goal with |- context [for_each channels ?body ?s0] =>
    destruct (for_each_join_spec socket channels s0)
      as (st' & Hrun & Hs & _) end.
  rewrite Hrun. unfold io_emit, state_of. simpl. by rewrite Hs.
Qed.

(** X5.  When the presence write and the channel query of
    [handleConnection] return, the socket is put in its personal room
    [user:<userId>] and in one room [channel:<id>] per channel the query
    gave, and in no other room; no other socket changes room; [user:online]
    goes to every connected socket, and it is the only event. *)
Theorem connection_joins_the_users_rooms socket st d1 d2 channels :
  let userId := nonnull (sock_userId socket) in
  updateOnlineStatus userId true (db st) = (d1, Ok tt) →
  findUserChannels userId d1 = (d2, Ok channels) →
  let r := handleConnection socket st in
  result_of r = Ok tt
  ∧ (∀ room sid,
       sid ∈ members room (state_of r) ↔
       sid ∈ members room st
       ∨ (sid = sock_id socket ∧ room ∈ auto_rooms userId channels))
  ∧ emissions (trace_of r)
    = [Emitted (dom (sockets st)) "user:online" (PObj [("userId", userId)])]
  ∧ sockets (state_of r) = sockets st
  ∧ db (state_of r) = d2.
Proof.
  intros userId Hupd Hfind r. subst r.
  rewrite handleConnection_run. fold userId. rewrite Hupd, Hfind.
  match goal with |- context [for_each channels ?body ?s0] =>
    destruct (for_each_join_spec socket channels s0)
      as (st' & Hrun & Hs & Hd & _ & Hm) end.
  rewrite Hrun. unfold result_of, state_of, trace_of. simpl.
  split_and!; try done.
  intros room sid. rewrite Hm. unfold auto_rooms. rewrite elem_of_cons.
  pose proof (members_join socket ("user:" +:+ Js.to_string userId) st room sid)
    as Hj.
  unfold socket_join, state_of in Hj. simpl in Hj.
  unfold members in *. simpl. rewrite Hj. naive_solver.
Qed.

(** X6.  When a collaborator call of [handleConnection] or of
    [handleDisconnect] throws, what it threw leaves the handler uncaught
    and no event is emitted: neither [user:online] nor [user:offline] is
    announced, and no socket is dropped from the namespace. *)
Theorem failed_presence_write_is_not_announced socket st (connecting : bool) c e :
  let r := (if connecting then handleConnection socket
            else handleDisconnect socket) st in
  Called c (Some e) ∈ trace_of r →
  result_of r = Err e
  ∧ emissions (trace_of r) = []
  ∧ sockets (state_of r) = sockets st.
Proof.
  intros r. subst r. destruct connecting.
  - rewrite handleConnection_run.
    destruct (updateOnlineStatus _ true (db st)) as [d1 [[] | e1]].
    + destruct (findUserChannels _ d1) as [d2 [channels | e2]].
      * intros Hin. split_elem Hin.
      * intros Hin. split_elem Hin. done.
    + intros Hin. split_elem Hin. done.
  - unfold handleDisconnect, userService_updateOnlineStatus, bind, call, io_emit.
    destruct (updateOnlineStatus _ false (db st)) as [d1 [[] | e1]]; simpl.
    + intros Hin. split_elem Hin.
    + intros Hin. split_elem Hin. done.
Qed.

(** X7.  [message:typing], [message:read] and [presence:update] have no
    [try]: with a payload that is [undefined] or [null] the handler throws
    the [TypeError] of the destructuring (it names the first property of
    the pattern), emits nothing and changes nothing, and the error leaves
    the handler: an exception of the listener, or a rejection that nobody
    handles. *)
Theorem payload_type_error_is_not_caught sid socket name data st :
  sockets st !! sid = Some socket →
  name ∈ ["message:typing"; "message:read"; "presence:update"] →
  data = JUndefined ∨ data = JNull →
  step (Packet sid name data) st =
    (st, [],
     Err (Js.destructure_error
            (if String.eqb name "message:typing" then "channelId"
             else if String.eqb name "message:read" then "messageId"
             else "status") data)).
Proof.
  intros Hsock Hname Hdata. unfold step. rewrite Hsock.
  split_elem Hname; by destruct Hdata as [-> | ->].
Qed.

End ConnectionFacts.

(** ** What [sendMessage] emits and stores *)

Section SendFacts.

Context {DB : Type} `{!Collaborators DB}.

Local Abbreviation M := (@M DB) (only parsing).

Implicit Types (st : Server DB) (socket : SocketWithAuth).

Lemma emissions_app t1 t2 : emissions (t1 ++ t2) = emissions t1 ++ emissions t2.
Proof. apply List.filter_app. Qed.

Lemma after_create_emissions t : forallb after_create t = true → emissions t = [].
Proof.
  induction t as [| [c o | to name p] t IH]; simpl; [done | |done].
  intros [_ Ht]%andb_true_iff. auto.
Qed.

Lemma creates_app t1 t2 : creates (t1 ++ t2) = creates t1 ++ creates t2.
Proof.
  induction t1 as [| [c o | to name p] t1 IH]; simpl; [done | |done].
  destruct c; simpl; by rewrite ?IH.
Qed.

(** What [sendMessage] has emitted and stored, by its result. *)
Lemma sendMessage_outcome senderId channelId content type st :
  let r := sendMessage senderId channelId content type st in
  let room := "channel:" +:+ Js.to_string channelId in
  let input :=
    {| mi_senderId := senderId; mi_channelId := channelId;
       mi_content := content;
       mi_type := match type with JUndefined => JStr "text" | _ => type end |} in
  emissions (trace_of r) =
    match result_of r with
    | Ok m => [Emitted (members room st) "message:new" (PEntity m)]
    | Err _ => []
    end
  ∧ (creates (trace_of r) ≠ [] →
     ∃ d, isUserMember channelId senderId (db st) = (d, Ok true))
  ∧ (∀ m, result_of r = Ok m →
       ∃ d1 d2, isUserMember channelId senderId (db st) = (d1, Ok true)
                ∧ messageCreate input d1 = (d2, Ok m)
                ∧ creates (trace_of r) = [(input, true)]).
Proof.
  intros r room input. subst r. unfold sendMessage. fold input.
  match goal with |- context [bind ?m ?k st] =>
    destruct (bind m k st) as [[st' t] res] eqn:E end.
  unfold state_of, trace_of, result_of. simpl.
  apply bind_inv in E as [(e & E & ->) | (st1 & t1 & isMember & t2 & E & E2 & ->)];
    apply call_inv in E as (d1 & Hmem & Hst & Ht); subst.
  { simpl. split_and!; done. }
  destruct isMember; simpl in E2.
  2:{ inversion E2; subst. simpl. split_and!; done. }
  apply bind_inv in E2 as [(e & E & ->) | (st2 & t2' & message & t3 & E & E3 & ->)];
    apply call_inv in E as (d2 & Hcreate & Hst & Ht); subst.
  { simpl. split_and!; try done. intros _. by exists d1. }
  simpl in E3.
  destruct content as [| | b | text | fs].
  1,2,3,5: apply bind_inv in E3 as [(e & E & ->) | (? & ? & ? & ? & E & _ & _)];
    inversion E; subst; simpl; split_and!; try done; intros _; by exists d1.
  rewrite bind_assoc in E3.
  match type of E3 with bind ?m _ ?s = _ =>
    pose proof (quiet_after_create senderId channelId text message s) as Hq
  end.
  unfold state_of, trace_of, result_of in Hq. simpl in Hq.
  apply bind_inv in E3 as [(e & E & ->) | (st3 & t3' & [] & t4 & E & E4 & ->)];
    rewrite E in Hq; simpl in Hq;
    destruct Hq as (Hs & Hr & _ & HP & _ & Hthrow).
  - simpl. rewrite (after_create_emissions _ HP).
    split_and!; try done. intros _. by exists d1.
  - unfold emitToChannel, io_to_emit, bind, ret, members in E4.
    inversion E4; subst. rewrite Hr. simpl.
    rewrite emissions_app, creates_app, (after_create_emissions _ HP),
      (after_create_creates _ HP). simpl.
    split_and!; try done.
    + intros _. by exists d1.
    + intros m [= <-]. by exists d1, d2.
Qed.

(** X8.  [MessageService.sendMessage] emits one event when it returns:
    [message:new] with the message it returns, to the sockets the
    channel's room had when it was called; when it throws it has emitted
    nothing.  It changes neither the rooms nor the sockets. *)
Theorem sendMessage_emits_once_when_it_returns senderId channelId content type st :
  let r := sendMessage senderId channelId content type st in
  emissions (trace_of r) =
    match result_of r with
    | Ok m => [Emitted (members ("channel:" +:+ Js.to_string channelId) st)
                 "message:new" (PEntity m)]
    | Err _ => []
    end
  ∧ rooms (state_of r) = rooms st
  ∧ sockets (state_of r) = sockets st.
Proof.
  intros r.
  destruct (sendMessage_outcome senderId channelId content type st) as (He & _).
  destruct (sendMessage_spec senderId channelId content type st)
    as (Hs & Hr & _).
  done.
Qed.

(** X9.  [MessageService.sendMessage] calls [messageRepository.create]
    only after [isUserMember] answered [true], and a message it returns is
    the one a single [create] call gave for the sender, channel, content
    and type ([text] when no type was passed). *)
Theorem sendMessage_stores_for_members_only senderId channelId content type st :
  let r := sendMessage senderId channelId content type st in
  let input :=
    {| mi_senderId := senderId; mi_channelId := channelId;
       mi_content := content;
       mi_type := match type with JUndefined => JStr "text" | _ => type end |} in
  (creates (trace_of r) ≠ [] →
   ∃ d, isUserMember channelId senderId (db st) = (d, Ok true))
  ∧ (∀ m, result_of r = Ok m →
       ∃ d1 d2, isUserMember channelId senderId (db st) = (d1, Ok true)
                ∧ messageCreate input d1 = (d2, Ok m)
                ∧ creates (trace_of r) = [(input, true)]).
Proof.
  intros r input.
  by destruct (sendMessage_outcome senderId channelId content type st)
    as (_ & Hc & Hm).
Qed.

(** X10.  On the socket path every message goes out twice: for an object
    payload, when [sendMessage] returns a message, [handleSendMessage] has
    emitted [message:new] with it two times to the same sockets of the
    channel's room (once in [sendMessage], once in the handler) and nothing
    else; when [sendMessage] throws, the one event is the [error] for the
    sending socket. *)
Theorem socket_send_emits_the_message_twice socket fields st :
  let data := JObj fields in
  let sent := sendMessage (nonnull (sock_userId socket)) (Js.get "channelId" data)
                (Js.get "content" data) (Js.get "type" data) st in
  emissions (trace_of (handleSendMessage socket data st)) =
    match result_of sent with
    | Ok m =>
        [Emitted (members (room_of data) st) "message:new" (PEntity m);
         Emitted (members (room_of data) st) "message:new" (PEntity m)]
    | Err e =>
        [Emitted {[sock_id socket]} "error"
           (error_payload "message:send" "Failed to send message" e)]
    end.
Proof.
  intros data sent.
  pose proof (handleSendMessage_object socket fields st) as Hobj.
  cbv zeta in Hobj. fold data in Hobj. rewrite Hobj. clear Hobj. subst sent.
  destruct (sendMessage_outcome (nonnull (sock_userId socket))
              (Js.get "channelId" data) (Js.get "content" data)
              (Js.get "type" data) st) as (He & _).
  destruct (sendMessage_spec (nonnull (sock_userId socket))
              (Js.get "channelId" data) (Js.get "content" data)
              (Js.get "type" data) st) as (_ & Hr & _).
  simpl in He, Hr. unfold trace_of, result_of, state_of in *.
  destruct (sendMessage _ _ _ _ st) as [[st1 t1] [m | e]]; simpl in *;
    rewrite emissions_app, He; simpl; [|done].
  unfold members. by rewrite Hr.
Qed.

End SendFacts.

(** ** The rooms of the reachable states *)

Section ReachableFacts.

Context {DB : Type} `{!Collaborators DB}.

Local Abbreviation M := (@M DB) (only parsing).

Implicit Types (st : Server DB) (socket : SocketWithAuth).

Lemma channel_room_not_user x u : "channel:" +:+ x ≠ "user:" +:+ u.
Proof. simpl. discriminate. Qed.

Lemma user_room_inj u v : "user:" +:+ u = "user:" +:+ v → u = v.
Proof. by intros [= ?]. Qed.

Lemma members_leave_all sid (r : gmap string (gset string)) room sid' :
  sid' ∈ (leave_all sid r !!! room : gset string) ↔
  sid' ∈ (r !!! room : gset string) ∧ sid' ≠ sid.
Proof.
  unfold leave_all. rewrite !lookup_total_alt, lookup_omap.
  destruct (r !! room) as [s |]; simpl.
  - case_decide as He; simpl.
    + split; [by intros ?%elem_of_empty|]. intros [Hin Hne].
      assert (Hd : sid' ∈ s ∖ {[sid]})
        by (apply elem_of_difference; split; [done | by rewrite elem_of_singleton]).
      by rewrite He in Hd.
    + by rewrite elem_of_difference, elem_of_singleton.
  - split; [by intros ?%elem_of_empty | by intros [?%elem_of_empty _]].
Qed.

(** The rooms after [handleConnection], whatever its calls answer. *)
Lemma handleConnection_members socket st :
  let userId := nonnull (sock_userId socket) in
  let r := handleConnection socket st in
  sockets (state_of r) = sockets st
  ∧ ∃ R : list string,
      Forall channel_room R
      ∧ ∀ room sid,
          sid ∈ members room (state_of r) ↔
          sid ∈ members room st
          ∨ (sid = sock_id socket
             ∧ (room = "user:" +:+ Js.to_string userId ∨ room ∈ R)).
Proof.
  intros userId r. split; [apply keeps_sockets_handleConnection|].
  subst r. rewrite handleConnection_run. fold userId.
  pose proof (λ room sid,
    members_join socket ("user:" +:+ Js.to_string userId) st room sid) as Hj.
  unfold socket_join, state_of, members in Hj. simpl in Hj.
  destruct (updateOnlineStatus userId true (db st)) as [d1 [[] | e1]].
  - destruct (findUserChannels userId d1) as [d2 [channels | e2]].
    + match goal with |- context [for_each channels ?body ?s0] =>
        destruct (for_each_join_spec socket channels s0)
          as (st' & Hrun & _ & _ & _ & Hm) end.
      rewrite Hrun. unfold state_of. simpl.
      exists (map (fun channel => "channel:" +:+ channel_id channel) channels).
      split.
      * apply Forall_forall. intros room (ch & -> & _)%list_elem_of_fmap.
        by exists (channel_id ch).
      * intros room sid. rewrite Hm. unfold members. simpl.
        rewrite Hj. naive_solver.
    + exists []. split; [done|]. intros room sid. unfold state_of, members.
      simpl. rewrite Hj. split; [naive_solver|].
      intros [? | [? [? | ?%elem_of_nil]]]; naive_solver.
  - exists []. split; [done|]. intros room sid. unfold state_of, members.
    simpl. rewrite Hj. split; [naive_solver|].
    intros [? | [? [? | ?%elem_of_nil]]]; naive_solver.
Qed.

(** A handshake with a token that [verifyToken] accepts: the socket enters
    the namespace under its id with the identity of the token, and
    [handleConnection] runs for it. *)
Lemma accepted_connection sid hs st d decoded :
  let token := handshake_token hs in
  Js.truthy token = true →
  verifyToken token (db st) = (d, Ok decoded) →
  step (Connect sid hs) st =
    let r := handleConnection (Mem.accepted_socket sid decoded)
               {| db := d;
                  sockets := <[sid := Mem.accepted_socket sid decoded]> (sockets st);
                  rooms := rooms st; clock := clock st |} in
    (state_of r, Called (VerifyToken token) None :: trace_of r, result_of r).
Proof.
  intros token Htoken Hverify. unfold step, connection.
  pose proof (authMiddleware_cases
                {| sock_id := sid; sock_userId := None; sock_user := None |} hs st)
    as Hauth.
  simpl in Hauth. fold token in Hauth. rewrite Htoken, Hverify in Hauth.
  unfold bind at 1. rewrite Hauth. unfold bind, add_socket, registerEvents.
  simpl. fold token. unfold Mem.accepted_socket, set_sockets. simpl.
  by destruct (handleConnection _ _) as [[st2 t2] r2].
Qed.

(** The rooms after a packet: as before, or with the socket added to or
    taken from the room of one channel. *)
Lemma dispatch_rooms socket name data st :
  let st' := state_of (dispatch socket name data st) in
  rooms st' = rooms st
  ∨ ∃ x, rooms st' = rooms (state_of (socket_join socket ("channel:" +:+ x) st))
         ∨ rooms st' = rooms (state_of (socket_leave socket ("channel:" +:+ x) st)).
Proof.
  unfold dispatch.
  repeat match goal with |- context [String.eqb name ?x] =>
    destruct (String.eqb name x) end; try (by left).
  - left. by destruct (handleSendMessage_catches socket data st) as (_ & _ & ? & _).
  - by destruct data; left.
  - by destruct data; left.
  - destruct data; try (by left); right; eexists; left; reflexivity.
  - destruct data; try (by left); right; eexists; right; reflexivity.
  - by destruct data; left.
Qed.

Lemma handleDisconnect_rooms socket st :
  rooms (state_of (handleDisconnect socket st)) = rooms st.
Proof.
  unfold handleDisconnect, userService_updateOnlineStatus, bind, call, io_emit.
  by destruct (updateOnlineStatus _ false (db st)) as [d1 [[] | e1]].
Qed.

Lemma rooms_ok_step i st : rooms_ok st → fresh_id i st → rooms_ok (state_of (step i st)).
Proof.
  intros Hok Hfresh. pose proof Hok as (Hids & Hconn & Huser).
  destruct i as [sid hs | sid name data | sid].
  - simpl in Hfresh.
    pose proof (refused_connection sid hs st) as Href. cbv zeta in Href.
    destruct Href as [Hno Hbad].
    destruct (Js.truthy (handshake_token hs)) eqn:Htoken;
      [|by rewrite Hno].
    destruct (verifyToken (handshake_token hs) (db st)) as [d [decoded | e]]
      eqn:Hverify; [|by rewrite (Hbad d e)].
    rewrite (accepted_connection sid hs st d decoded) by done.
    cbv zeta.
    match goal with |- context [handleConnection ?sk ?s0] =>
      destruct (handleConnection_members sk s0) as (Hs & R & HR & Hm) end.
    simpl in Hs, Hm. unfold state_of at 1. simpl.
    set (st' := state_of (handleConnection _ _)) in *.
    assert (Hnot : ∀ room, sid ∉ members room st).
    { intros room Hin. apply Hconn in Hin as [s Hs']. congruence. }
    split_and!.
    + intros sid' s. rewrite Hs. destruct (decide (sid = sid')) as [<- | Hne].
      * rewrite lookup_insert_eq. by intros [= <-].
      * rewrite lookup_insert_ne by done. apply Hids.
    + intros room sid'. rewrite Hm, Hs. unfold members at 1. simpl.
      intros [Hin | [-> _]].
      * destruct (decide (sid = sid')) as [<- | Hne];
          [by rewrite lookup_insert_eq | rewrite lookup_insert_ne by done].
        exact (Hconn room sid' Hin).
      * by rewrite lookup_insert_eq.
    + intros u sid'. rewrite Hm. unfold members at 1, live. simpl. rewrite Hs.
      destruct (decide (sid = sid')) as [<- | Hne].
      * rewrite lookup_insert_eq. split.
        -- intros [Hin | [_ [Heq | Hin]]].
           ++ by apply (Hnot ("user:" +:+ u)) in Hin.
           ++ apply user_room_inj in Heq as ->. by eexists.
           ++ rewrite Forall_forall in HR. destruct (HR _ Hin) as [x Hx].
              symmetry in Hx. by apply channel_room_not_user in Hx.
        -- intros (s & [= <-] & [= <-]). right. split; [done | by left].
      * rewrite lookup_insert_ne by done. rewrite <- (Huser u sid').
        unfold members. split; [|by left]. by intros [? | [? _]].
  - unfold step. destruct (sockets st !! sid) as [socket |] eqn:Hsock; [|done].
    pose proof (keeps_sockets_dispatch socket name data st) as Hs.
    pose proof (Hids _ _ Hsock) as Hid.
    assert (Hjoin : ∀ x room sid',
      sid' ∈ rooms (state_of (socket_join socket ("channel:" +:+ x) st)) !!! room
      ↔ sid' ∈ members room st ∨ (room = "channel:" +:+ x ∧ sid' = sock_id socket))
      by (intros; apply members_join).
    assert (Hleave : ∀ x room sid',
      sid' ∈ rooms (state_of (socket_leave socket ("channel:" +:+ x) st)) !!! room
      ↔ sid' ∈ members room st ∧ ¬ (room = "channel:" +:+ x ∧ sid' = sock_id socket))
      by (intros; apply members_leave).
    pose proof (dispatch_rooms socket name data st) as Hd. cbv zeta in Hd.
    destruct Hd as [Hr | [x [Hr | Hr]]];
      set (st' := state_of (dispatch socket name data st)) in *;
      unfold rooms_ok, ids_match, live, members; rewrite Hs, Hr;
      split_and!; try done.
    + intros room sid'. rewrite Hjoin.
      intros [Hin | [_ ->]]; [exact (Hconn room sid' Hin)|].
      rewrite Hid. by eexists.
    + intros u sid'. rewrite Hjoin. rewrite <- (Huser u sid').
      split; [|by left]. intros [? | [Heq _]]; [done|].
      symmetry in Heq. by apply channel_room_not_user in Heq.
    + intros room sid'. rewrite Hleave. intros [Hin _]. exact (Hconn room sid' Hin).
    + intros u sid'. rewrite Hleave. rewrite <- (Huser u sid').
      split; [by intros [? _]|]. intros Hin. split; [done|].
      intros [Heq _]. symmetry in Heq. by apply channel_room_not_user in Heq.
  - unfold step. destruct (sockets st !! sid) as [socket |] eqn:Hsock; [|done].
    pose proof (Hids _ _ Hsock) as Hid.
    pose proof (disconnection_sockets socket st) as Hs.
    assert (Hr : rooms (state_of (disconnection socket st))
                 = leave_all sid (rooms st)).
    { unfold disconnection, bind, remove_socket. simpl.
      match goal with |- context [handleDisconnect socket ?s0] =>
        pose proof (handleDisconnect_rooms socket s0) as Hd;
        destruct (handleDisconnect socket s0) as [[st2 t2] r2] end.
      unfold state_of in *. simpl in *. by rewrite Hd, Hid. }
    rewrite Hid in Hs.
    set (st' := state_of (disconnection socket st)) in *.
    unfold rooms_ok, ids_match, live, members. rewrite Hs, Hr.
    split_and!.
    + intros sid' s [_ Hl]%lookup_delete_Some. by apply Hids.
    + intros room sid' [Hin Hne]%members_leave_all.
      rewrite lookup_delete_ne by done. exact (Hconn room sid' Hin).
    + intros u sid'. rewrite members_leave_all.
      destruct (decide (sid = sid')) as [<- | Hne].
      * rewrite lookup_delete_eq. split; [by intros [_ ?] | by intros (? & ? & _)].
      * rewrite lookup_delete_ne by done. rewrite <- (Huser u sid').
        unfold members. naive_solver.
Qed.

Lemma reachable_rooms_ok st : reachable st → rooms_ok st.
Proof.
  induction 1 as [st Hs Hr | st i _ IH Hfresh].
  - unfold rooms_ok, ids_match, live, members. rewrite Hs, Hr. split_and!.
    + intros sid s. by rewrite lookup_empty.
    + intros room sid. rewrite lookup_total_empty. by intros ?%elem_of_empty.
    + intros u sid. rewrite lookup_total_empty. split.
      * by intros ?%elem_of_empty.
      * intros (s & Hl & _). by rewrite lookup_empty in Hl.
  - by apply rooms_ok_step.
Qed.

(** [handleSendMessage], by what the destructuring and [sendMessage] give. *)
Lemma handleSendMessage_run socket data st :
  handleSendMessage socket data st =
    match Js.destructure "channelId" data with
    | Err e =>
        (st, [Emitted {[sock_id socket]} "error"
                (error_payload "message:send" "Failed to send message" e)], Ok tt)
    | Ok d =>
        match sendMessage (nonnull (sock_userId socket)) (Js.get "channelId" d)
                (Js.get "content" d) (Js.get "type" d) st with
        | (st1, t1, Ok m) =>
            (st1, t1 ++ [Emitted (members (room_of d) st1) "message:new" (PEntity m)],
             Ok tt)
        | (st1, t1, Err e) =>
            (st1, t1 ++ [Emitted {[sock_id socket]} "error"
                           (error_payload "message:send" "Failed to send message" e)],
             Ok tt)
        end
    end.
Proof.
  unfold handleSendMessage, try_catch, handleSendMessage_body, bind, lift.
  destruct (Js.destructure "channelId" data) as [d | e]; [|done].
  by destruct (sendMessage _ _ _ _ st) as [[st1 t1] [m | e]].
Qed.

Lemma after_create_send_call t c o :
  forallb after_create t = true → Called c o ∈ t → send_call c = true.
Proof.
  intros Hall Hin. rewrite forallb_forall in Hall.
  apply list_elem_of_In, Hall in Hin. by destruct c.
Qed.

Lemma sendMessage_calls senderId channelId content type st c o :
  Called c o ∈ trace_of (sendMessage senderId channelId content type st) →
  send_call c = true.
Proof.
  unfold sendMessage.
  set (input := {| mi_senderId := senderId |}).
  match goal with |- context [bind ?m ?k st] =>
    destruct (bind m k st) as [[st' t] res] eqn:E end.
  unfold trace_of. simpl.
  apply bind_inv in E as [(e & E & ->) | (st1 & t1 & isMember & t2 & E & E2 & ->)];
    apply call_inv in E as (d1 & Hmem & Hst & Ht); subst.
  { intros Hin. split_elem Hin. done. }
  destruct isMember; simpl in E2.
  2:{ inversion E2; subst. intros Hin. split_elem Hin. done. }
  apply bind_inv in E2 as [(e & E & ->) | (st2 & t2' & message & t3 & E & E3 & ->)];
    apply call_inv in E as (d2 & Hcreate & Hst & Ht); subst.
  { intros Hin. split_elem Hin; done. }
  simpl in E3.
  destruct content as [| | b | text | fs].
  1,2,3,5: apply bind_inv in E3 as [(e & E & ->) | (? & ? & ? & ? & E & _ & _)];
    inversion E; subst; intros Hin; split_elem Hin; done.
  rewrite bind_assoc in E3.
  match type of E3 with bind ?m _ ?s = _ =>
    pose proof (quiet_after_create senderId channelId text message s) as Hq
  end.
  unfold state_of, trace_of, result_of in Hq. simpl in Hq.
  apply bind_inv in E3 as [(e & E & ->) | (st3 & t3' & [] & t4 & E & E4 & ->)];
    rewrite E in Hq; simpl in Hq;
    destruct Hq as (_ & _ & _ & HP & _ & _).
  - intros Hin. split_elem Hin; try done. by eapply after_create_send_call.
  - unfold emitToChannel, io_to_emit, bind, ret, members in E4.
    inversion E4; subst. intros Hin. split_elem Hin; try done.
    by eapply after_create_send_call.
Qed.

(** What a packet handler addresses an event to: all the sockets, the
    socket of the packet, or a room, with or without that socket. *)
Lemma dispatch_recipients socket name data st to ev p :
  Emitted to ev p ∈ trace_of (dispatch socket name data st) →
  to = dom (sockets st) ∨ to = {[sock_id socket]}
  ∨ ∃ room, to = members room st ∨ to = members room st ∖ {[sock_id socket]}.
Proof.
  unfold dispatch.
  repeat match goal with |- context [String.eqb name ?x] =>
    destruct (String.eqb name x) end.
  - rewrite handleSendMessage_run.
    destruct (Js.destructure "channelId" data) as [d | e].
    + pose proof (sendMessage_spec (nonnull (sock_userId socket))
                    (Js.get "channelId" d) (Js.get "content" d)
                    (Js.get "type" d) st) as Hspec.
      cbv zeta in Hspec. unfold state_of, trace_of, result_of in *.
      destruct (sendMessage _ _ _ _ st) as [[st1 t1] [m | e]]; simpl in *;
        destruct Hspec as (_ & Hr & _ & Hemit); intros Hin; split_elem Hin.
      * destruct (Hemit _ _ _ Hin) as (-> & _). right. right. eexists. by left.
      * right. right. exists (room_of d). left. unfold members. by rewrite Hr.
      * destruct (Hemit _ _ _ Hin) as (-> & _). right. right. eexists. by left.
      * right. by left.
    + intros Hin. split_elem Hin. right. by left.
  - destruct data; simpl; intros Hin; split_elem Hin;
      right; right; eexists; by right.
  - destruct data; simpl; intros Hin; split_elem Hin;
      right; right; eexists; by right.
  - destruct data; simpl; intros Hin; split_elem Hin; right; by left.
  - destruct data; simpl; intros Hin; split_elem Hin; right; by left.
  - destruct data; simpl; intros Hin; split_elem Hin; by left.
  - intros Hin. split_elem Hin.
Qed.

(** X11.  In every state the server reaches from an empty start (socket
    ids being fresh at each connection), the personal room of a user holds
    the user's live connections: [SocketManager.getUserSockets] gives their
    ids, each once, [SocketManager.isUserOnline] answers [true] exactly
    when there is one, and [SocketManager.emitToUser] addresses its event
    to them and to no other socket, changing nothing. *)
Theorem user_sockets_are_the_live_connections st u event data :
  reachable st →
  (∀ sid, sid ∈ getUserSockets u st ↔ live u sid st)
  ∧ NoDup (getUserSockets u st)
  ∧ (isUserOnline u st = true ↔ ∃ sid, live u sid st)
  ∧ ∃ to, emitToUser u event data st = (st, [Emitted to event data], Ok tt)
          ∧ ∀ sid, sid ∈ to ↔ live u sid st.
Proof.
  intros (_ & _ & Huser)%reachable_rooms_ok.
  assert (Hin : ∀ sid, sid ∈ getUserSockets u st ↔ live u sid st).
  { intros sid. unfold getUserSockets. by rewrite elem_of_elements, Huser. }
  split_and!; [done | apply NoDup_elements | |].
  - unfold isUserOnline. rewrite Nat.ltb_lt. split.
    + destruct (getUserSockets u st) as [| sid l] eqn:Hl; simpl; [lia|].
      intros _. exists sid. apply Hin. by left.
    + intros [sid Hlive%Hin]. destruct (getUserSockets u st); simpl; [|lia].
      by apply elem_of_nil in Hlive.
  - exists (members ("user:" +:+ u) st). split; [done | apply Huser].
Qed.

(** X12.  In every reachable state the rooms hold connected sockets only:
    a socket that disconnected is in no room, so [io.to(room)] never
    addresses a socket that is gone. *)
Theorem rooms_hold_connected_sockets_only st room sid :
  reachable st →
  sid ∈ members room st → sid ∈ dom (sockets st).
Proof.
  intros (_ & Hconn & _)%reachable_rooms_ok Hin.
  apply elem_of_dom. exact (Hconn room sid Hin).
Qed.

(** X13.  From a reachable state, whatever the input, an event is
    addressed only to sockets that are connected once the input is
    handled: no handler emits to a socket that is gone or that the
    middleware refused. *)
Theorem events_go_to_connected_sockets i st to name p :
  reachable st → fresh_id i st →
  Emitted to name p ∈ trace_of (step i st) →
  to ⊆ dom (sockets (state_of (step i st))).
Proof.
  intros (Hids & Hconn & _)%reachable_rooms_ok Hfresh.
  assert (Hroom : ∀ room, members room st ⊆ dom (sockets st)).
  { intros room sid Hin. apply elem_of_dom. exact (Hconn room sid Hin). }
  destruct i as [sid hs | sid ev data | sid].
  - pose proof (refused_connection sid hs st) as Href. cbv zeta in Href.
    destruct Href as [Hno Hbad].
    destruct (Js.truthy (handshake_token hs)) eqn:Htoken;
      [|rewrite Hno by done; intros Hin; split_elem Hin].
    destruct (verifyToken (handshake_token hs) (db st)) as [d [decoded | e]]
      eqn:Hverify;
      [|rewrite (Hbad d e) by done; intros Hin; split_elem Hin].
    rewrite (accepted_connection sid hs st d decoded) by done.
    cbv zeta.
    match goal with |- context [handleConnection ?sk ?s0] =>
      pose proof (keeps_sockets_handleConnection sk s0) as Hs;
      pose proof (handleConnection_run sk s0) as Hrun;
      destruct (handleConnection sk s0) as [[st2 t2] r2] end.
    cbv zeta in Hrun. unfold state_of, trace_of in *. simpl in *. rewrite Hs.
    intros Hin. apply elem_of_cons in Hin as [Hin | Hin]; [done|].
    destruct (updateOnlineStatus _ true d) as [d1 [[] | e1]].
    + destruct (findUserChannels _ d1) as [d2 [channels | e2]];
        injection Hrun as _ -> _; split_elem Hin; done.
    + injection Hrun as _ -> _; split_elem Hin; done.
  - unfold step. destruct (sockets st !! sid) as [socket |] eqn:Hsock;
      [|intros Hin; split_elem Hin].
    rewrite keeps_sockets_dispatch.
    intros [-> | [-> | [room [-> | ->]]]]%dispatch_recipients.
    + done.
    + rewrite (Hids _ _ Hsock). apply singleton_subseteq_l, elem_of_dom. by eexists.
    + apply Hroom.
    + etrans; [apply subseteq_difference_l|]; [reflexivity | apply Hroom].
  - unfold step. destruct (sockets st !! sid) as [socket |] eqn:Hsock;
      [|intros Hin; split_elem Hin].
    rewrite disconnection_sockets.
    unfold disconnection, remove_socket, handleDisconnect,
      userService_updateOnlineStatus.
    unfold bind, call, io_emit. simpl.
    destruct (updateOnlineStatus (nonnull (sock_userId socket)) false (db st))
      as [d1 [[] | e1]]; simpl; intros Hin; split_elem Hin; done.
Qed.

(** X14.  A packet never makes the server verify a token again, write
    the presence or query the channels of a user: the collaborator calls of
    a packet are those of [sendMessage], and only [message:send] makes
    any.  A token that was revoked or has expired after the handshake keeps
    its socket in service. *)
Theorem packets_call_the_message_path_only sid name data st c o :
  Called c o ∈ trace_of (step (Packet sid name data) st) →
  name = "message:send" ∧ send_call c = true.
Proof.
  unfold step. destruct (sockets st !! sid) as [socket |];
    [|intros Hin; split_elem Hin].
  unfold dispatch.
  destruct (String.eqb name "message:send") eqn:Hname.
  - apply String.eqb_eq in Hname as ->. rewrite handleSendMessage_run.
    destruct (Js.destructure "channelId" data) as [d | e];
      [|intros Hin; split_elem Hin].
    pose proof (λ c o, sendMessage_calls (nonnull (sock_userId socket))
                  (Js.get "channelId" d) (Js.get "content" d)
                  (Js.get "type" d) st c o) as Hcalls.
    unfold trace_of in *.
    destruct (sendMessage _ _ _ _ st) as [[st1 t1] [m | e]]; simpl in *;
      intros Hin; split_elem Hin; eauto.
  - repeat match goal with |- context [String.eqb name ?x] =>
      destruct (String.eqb name x) end;
      destruct data; simpl; intros Hin; split_elem Hin; done.
Qed.

Lemma step_without_verified_token i st :
  (∀ token d, ∃ d' e, verifyToken token d = (d', Err e)) →
  sockets st = ∅ →
  sockets (state_of (step i st)) = sockets st
  ∧ rooms (state_of (step i st)) = rooms st
  ∧ emissions (trace_of (step i st)) = []
  ∧ result_of (step i st) = Ok tt.
Proof.
  intros Hnever Hs. destruct i as [sid hs | sid name data | sid].
  - pose proof (refused_connection sid hs st) as Href. cbv zeta in Href.
    destruct Href as [Hno Hbad].
    destruct (Js.truthy (handshake_token hs)) eqn:Htoken; [|by rewrite Hno].
    destruct (Hnever (handshake_token hs) (db st)) as (d & e & Hverify).
    by rewrite (Hbad d e).
  - unfold step. by rewrite Hs, lookup_empty.
  - unfold step. by rewrite Hs, lookup_empty.
Qed.

(** X15.  The handshake is the only way in: if [verifyToken] throws for
    every token (as [TokenManager.verifyToken] does when it is called
    without its receiver), then in every reachable state there is no socket
    and no room, and no input makes the server emit an event or fail. *)
Theorem no_socket_without_a_verified_token st i :
  (∀ token d, ∃ d' e, verifyToken token d = (d', Err e)) →
  reachable st →
  sockets st = ∅ ∧ rooms st = ∅
  ∧ emissions (trace_of (step i st)) = []
  ∧ result_of (step i st) = Ok tt.
Proof.
  intros Hnever Hreach.
  assert (Hempty : sockets st = ∅ ∧ rooms st = ∅).
  { clear i. induction Hreach as [st Hs Hr | st i _ [IHs IHr] _]; [done|].
    destruct (step_without_verified_token i st Hnever IHs) as (Hs & Hr & _).
    by rewrite Hs, Hr. }
  destruct Hempty as [Hs Hr].
  destruct (step_without_verified_token i st Hnever Hs) as (_ & _ & He & Hres).
  done.
Qed.

Lemma run_keeps_unknown sid rest st :
  Forall (λ i, ∀ hs, i ≠ Connect sid hs) rest →
  sockets st !! sid = None →
  sockets (state_of (run rest st)) !! sid = None.
Proof.
  intros Hrest. revert st.
  induction Hrest as [| i rest Hi _ IH]; intros st Hnone; [done|].
  assert (Hstep : sockets (state_of (step i st)) !! sid = None).
  { destruct (sockets (state_of (step i st)) !! sid) as [s |] eqn:Hs; [|done].
    apply step_sockets in Hs as [Hs | (hs & _ & _ & -> & _)].
    - by rewrite Hnone in Hs.
    - by destruct (Hi hs). }
  rewrite state_of_run_cons. destruct (result_of (step i st)); [by apply IH|done].
Qed.

(** C5.  A second [disconnect] for the same connection is a no-op.  From a
    reachable state, once [Disconnect sid] has been handled the socket is
    out of the namespace and of every room; after any further inputs that
    do not connect [sid] anew (Socket.IO hands an id out once), handling
    [Disconnect sid] again reaches no listener: it emits nothing, so no
    second [user:offline], calls no collaborator, raises no error and
    leaves the state as it is. *)
Theorem second_disconnect_is_a_noop sid rest st :
  reachable st →
  Forall (λ i, ∀ hs, i ≠ Connect sid hs) rest →
  let st1 := state_of (step (Disconnect sid) st) in
  let st2 := state_of (run rest st1) in
  step (Disconnect sid) st2 = (st2, [], Ok tt)
  ∧ sockets st1 !! sid = None
  ∧ (∀ room, sid ∉ members room st1).
Proof.
  intros Hreach Hrest st1 st2.
  pose proof (reachable_rooms_ok st Hreach) as (Hids & _ & _).
  assert (Hgone : sockets st1 !! sid = None).
  { subst st1. unfold step.
    destruct (sockets st !! sid) as [socket |] eqn:Hsock; [|done].
    rewrite disconnection_sockets, (Hids _ _ Hsock). apply lookup_delete_eq. }
  assert (Hreach1 : reachable st1) by (by apply reachable_step).
  pose proof (reachable_rooms_ok st1 Hreach1) as (_ & Hconn & _).
  split_and!; [|done|].
  - unfold step. subst st2. by rewrite (run_keeps_unknown sid rest st1 Hrest Hgone).
  - intros room Hin. destruct (Hconn room sid Hin) as [s Hs]. congruence.
Qed.

(** X16.  [SocketManager.getOnlineUsersCount] counts connections, not
    users: from a reachable state, a handshake that the middleware lets
    through adds one to it, whoever the user is and however many
    connections the user has; a disconnect of a connected socket takes one
    off; nothing else changes it. *)
Theorem online_count_counts_connections i st :
  reachable st → fresh_id i st →
  getOnlineUsersCount (state_of (step i st)) =
    match i with
    | Connect _ hs =>
        if accepted hs st then S (getOnlineUsersCount st)
        else getOnlineUsersCount st
    | Packet _ _ _ => getOnlineUsersCount st
    | Disconnect sid =>
        match sockets st !! sid with
        | Some _ => pred (getOnlineUsersCount st)
        | None => getOnlineUsersCount st
        end
    end.
Proof.
  intros (Hids & _)%reachable_rooms_ok Hfresh. unfold getOnlineUsersCount.
  rewrite !size_dom.
  destruct i as [sid hs | sid name data | sid].
  - simpl in Hfresh. unfold accepted.
    pose proof (refused_connection sid hs st) as Href. cbv zeta in Href.
    destruct Href as [Hno Hbad].
    destruct (Js.truthy (handshake_token hs)) eqn:Htoken;
      [|by rewrite Hno].
    destruct (verifyToken (handshake_token hs) (db st)) as [d [decoded | e]]
      eqn:Hverify; [|by rewrite (Hbad d e)].
    rewrite (accepted_connection sid hs st d decoded) by done.
    cbv zeta. unfold state_of at 1. simpl.
    match goal with |- context [handleConnection ?sk ?s0] =>
      rewrite (keeps_sockets_handleConnection sk s0) end.
    simpl. by rewrite map_size_insert_None.
  - unfold step. destruct (sockets st !! sid) as [socket |] eqn:Hsock; [|done].
    by rewrite keeps_sockets_dispatch.
  - unfold step. destruct (sockets st !! sid) as [socket |] eqn:Hsock; [|done].
    rewrite disconnection_sockets, (Hids _ _ Hsock).
    by rewrite map_size_delete, Hsock.
Qed.

End ReachableFacts.

(** ** The token of a request and of a handshake *)

Section TokenFacts.

Context {DB : Type} `{!Collaborators DB}.

Local Abbreviation M := (@M DB) (only parsing).

Implicit Types (st : Server DB) (socket : SocketWithAuth).

Lemma substring_all (s : string) : String.substring 0 (String.length s) s = s.
Proof. induction s as [| c s IH]; simpl; by rewrite ?IH. Qed.

Lemma bearer_prefix t : String.prefix "Bearer " ("Bearer " +:+ t) = true.
Proof. simpl. by destruct t. Qed.

Lemma bearer_substring t :
  String.substring 7 (String.length ("Bearer " +:+ t) - 7) ("Bearer " +:+ t) = t.
Proof. simpl. rewrite Nat.sub_0_r. apply substring_all. Qed.

Lemma bearer_replace t : Js.replace "Bearer " "" ("Bearer " +:+ t) = t.
Proof.
  unfold Js.replace.
  assert (Hi : String.index 0 "Bearer " ("Bearer " +:+ t) = Some 0%nat)
    by (simpl; by destruct t).
  rewrite Hi. simpl. rewrite Nat.sub_0_r. apply substring_all.
Qed.

End TokenFacts.

(** ** The two entry points on the same header *)

Section EntryPointFacts.

Implicit Types (jwt : TokenManager.Jwt) (st : Server Deployment.Store)
  (socket : SocketWithAuth).

(** What the handshake middleware of the source answers: there is no
    token, or the receiver-less [verifyToken] has thrown. *)
Lemma handshake_refuses jwt socket hs st :
  let token := handshake_token hs in
  let r := Deployment.handshake jwt socket hs st in
  result_of r
  = Ok (NextError (if Js.truthy token then "Authentication failed"
                   else "Authentication token is required"))
  ∧ trace_of r
    = (if Js.truthy token
       then [Called (VerifyToken token)
               (Some (ErrorObj
                  "Cannot read properties of undefined (reading 'isTokenBlacklisted')"))]
       else [])
  ∧ sockets (state_of r) = sockets st
  ∧ rooms (state_of r) = rooms st
  ∧ Deployment.store_tables (db (state_of r)) = Deployment.store_tables (db st)
  ∧ Deployment.store_redis (db (state_of r)) = Deployment.store_redis (db st).
Proof.
  intros token r. subst r token. unfold Deployment.handshake.
  pose proof (@authMiddleware_cases _
                (Deployment.collaborators TokenManager.NoReceiver jwt) socket hs st)
    as Hws.
  cbv zeta in Hws. destruct (Js.truthy (handshake_token hs)).
  - simpl in Hws. by rewrite Hws.
  - by rewrite Hws.
Qed.

(** X17.  A request and a handshake that carry the same header
    [Authorization: Bearer <t>] ([t] not empty, no [auth.token] in the
    handshake) are not judged alike.  [authenticate] calls
    [TokenManager.verifyToken] on the class: it lets the request through
    with the identity of the decoded token when that returns, and answers
    401 with the message of the error when it throws.  The handshake
    middleware calls the exported function without its receiver: it hands
    [t] to it, gets the [TypeError] of [this.isTokenBlacklisted], and
    refuses with [Authentication failed], also a token that [authenticate]
    accepts; it registers nothing and leaves the store as it was. *)
Theorem bearer_header_passes_the_request_only jwt t auth socket st :
  t ≠ "" → Js.truthy auth = false →
  let h := "Bearer " +:+ t in
  let hs := {| hs_auth_token := auth; hs_authorization := Some h |} in
  let http := Deployment.authenticate jwt (Some h) st in
  let ws := Deployment.handshake jwt socket hs st in
  let verified :=
    TokenManager.verifyToken TokenManager.OnClass jwt (JStr t)
      (Deployment.store_redis (db st)) in
  handshake_token hs = JStr t
  ∧ result_of http
    = match verified.2 with
      | Ok decoded =>
          Ok (Passed {| su_id := jwt_userId decoded;
                        su_email := jwt_email decoded;
                        su_username := jwt_username decoded;
                        su_role := jwt_role decoded |} t)
      | Err e => Ok (Unauthorized (unauthorized_message e))
      end
  ∧ trace_of http
    = [Called (VerifyToken (JStr t))
         (match verified.2 with Ok _ => None | Err e => Some e end)]
  ∧ result_of ws = Ok (NextError "Authentication failed")
  ∧ trace_of ws
    = [Called (VerifyToken (JStr t))
         (Some (ErrorObj
            "Cannot read properties of undefined (reading 'isTokenBlacklisted')"))]
  ∧ sockets (state_of ws) = sockets st
  ∧ Deployment.store_redis (db (state_of ws)) = Deployment.store_redis (db st).
Proof.
  intros Ht Hauth h hs http ws verified.
  assert (Htok : handshake_token hs = JStr t).
  { unfold handshake_token, hs, Js.or. simpl. rewrite Hauth.
    f_equal. apply bearer_replace. }
  assert (Htruthy : Js.truthy (JStr t) = true).
  { simpl. apply negb_true_iff, String.eqb_neq. done. }
  destruct (handshake_refuses jwt socket hs st) as (Hres & Htrace & Hs & _ & _ & Hr).
  rewrite Htok, Htruthy in Hres, Htrace. fold ws in Hres, Htrace, Hs, Hr.
  assert (Hhttp : result_of http
                  = match verified.2 with
                    | Ok decoded =>
                        Ok (Passed {| su_id := jwt_userId decoded;
                                      su_email := jwt_email decoded;
                                      su_username := jwt_username decoded;
                                      su_role := jwt_role decoded |} t)
                    | Err e => Ok (Unauthorized (unauthorized_message e))
                    end
                  ∧ trace_of http
                    = [Called (VerifyToken (JStr t))
                         (match verified.2 with Ok _ => None | Err e => Some e end)]).
  { subst http verified. unfold Deployment.authenticate, h.
    rewrite bearer_prefix, bearer_substring, Htruthy.
    assert (Hh : Js.truthy (JStr ("Bearer " +:+ t)) = true) by done.
    rewrite Hh. cbn [negb orb].
    unfold try_catch, bind, call, ret, Deployment.on_redis.
    by destruct (TokenManager.verifyToken TokenManager.OnClass jwt (JStr t)
                   (Deployment.store_redis (db st))) as [r [decoded | e]]. }
  destruct Hhttp as [Hhres Hhtrace]. by split_and!.
Qed.

(** X18.  A header [Authorization] that does not start with [Bearer ] (and
    no [auth.token] in the handshake) is refused at both entry points, at
    different moments: [authenticate] answers 401 [No token provided]
    without calling [verifyToken] and changes nothing; the handshake
    middleware takes the header (without its first [Bearer ], if it has
    one further on) as the token, calls the receiver-less [verifyToken]
    for it when it is not empty, and refuses with [Authentication failed]
    (with [Authentication token is required] when it is empty). *)
Theorem header_without_bearer_is_refused_by_both jwt h auth socket st :
  String.prefix "Bearer " h = false → Js.truthy auth = false →
  let hs := {| hs_auth_token := auth; hs_authorization := Some h |} in
  let token := JStr (Js.replace "Bearer " "" h) in
  let ws := Deployment.handshake jwt socket hs st in
  Deployment.authenticate jwt (Some h) st
  = (st, [], Ok (Unauthorized "No token provided"))
  ∧ handshake_token hs = token
  ∧ result_of ws
    = Ok (NextError (if Js.truthy token then "Authentication failed"
                     else "Authentication token is required"))
  ∧ trace_of ws
    = (if Js.truthy token
       then [Called (VerifyToken token)
               (Some (ErrorObj
                  "Cannot read properties of undefined (reading 'isTokenBlacklisted')"))]
       else [])
  ∧ sockets (state_of ws) = sockets st.
Proof.
  intros Hp Hauth hs token ws.
  assert (Htok : handshake_token hs = token).
  { unfold handshake_token, hs, Js.or. simpl. by rewrite Hauth. }
  destruct (handshake_refuses jwt socket hs st) as (Hres & Htrace & Hs & _).
  rewrite Htok in Hres, Htrace. split_and!; try done.
  unfold Deployment.authenticate. rewrite Hp. cbn [negb]. by rewrite orb_true_r.
Qed.

End EntryPointFacts.


(** ** [TokenManager]: verification, blacklist and refresh *)

Section TokenManagerFacts.

Import TokenManager.

Implicit Types (jwt : Jwt) (r : Redis) (token : JsVal).

Lemma is_string_spec s v : is_string s v = true ↔ v = JStr s.
Proof.
  destruct v; simpl; try (split; [done | discriminate]).
  rewrite String.eqb_eq. split; [by intros -> | by intros [= ->]].
Qed.

Lemma verifyTyped_Ok secret type jwt token p :
  verifyTyped secret type jwt token = Ok p ↔
  jwt_verify jwt secret token = Verified p (JStr type).
Proof.
  unfold verifyTyped. destruct (jwt_verify jwt secret token) as [p' t | | | e].
  - destruct (is_string type t) eqn:Ht.
    + apply is_string_spec in Ht as ->. split; [by intros [= ->] | by intros [= ->]].
    + split; [done|]. intros [= -> ->].
      assert (is_string type (JStr type) = true) by by apply is_string_spec.
      congruence.
  - split; discriminate.
  - split; discriminate.
  - split; discriminate.
Qed.

Lemma isTokenBlacklisted_spec token r :
  TokenManager.isTokenBlacklisted token r =
    (r, redis_up r
        && bool_decide (is_Some (live_value (BLACKLIST_PREFIX +:+ Js.to_string token) r))).
Proof.
  unfold TokenManager.isTokenBlacklisted, redis_exists. by destruct (redis_up r).
Qed.

(** X19.  [TokenManager.verifyToken], called on the class, returns a
    payload exactly when [jwt.verify] with the access secret decodes the
    token with [type] ['access'] and the token has no live [blacklist:] key
    in a Redis that answers: a refresh token is never taken for an access
    token, and a Redis that fails lets the verification go on as if the
    token were not blacklisted.  Redis is left as it was. *)
Theorem verifyToken_accepts_exactly jwt token r r' p :
  TokenManager.verifyToken OnClass jwt token r = (r', Ok p) ↔
  r' = r
  ∧ (redis_up r = true →
     live_value (BLACKLIST_PREFIX +:+ Js.to_string token) r = None)
  ∧ jwt_verify jwt AccessSecret token = Verified p (JStr "access").
Proof.
  unfold TokenManager.verifyToken. rewrite isTokenBlacklisted_spec.
  unfold verifyAccessToken. rewrite <- verifyTyped_Ok.
  destruct (redis_up r); simpl.
  - destruct (live_value _ r) as [v |] eqn:Hl.
    + rewrite bool_decide_true by by eexists. split; [done|].
      intros (_ & Hn & _). by specialize (Hn eq_refl).
    + rewrite bool_decide_false by by intros [? ?].
      split; [by intros [= <- ->] | by intros (-> & _ & ->)].
  - split; [by intros [= <- ->] | by intros (-> & _ & ->)].
Qed.

Lemma live_value_insert key v expires r (dt : Z) :
  (0 ≤ dt)%Z →
  match expires with
  | Some e => (redis_now r + dt < e)%Z
  | None => True
  end →
  live_value key (later dt (with_keys (<[key := (v, expires)]> (redis_keys r)) r))
  = Some v.
Proof.
  intros Hdt He. unfold live_value, later, with_keys. simpl.
  rewrite lookup_insert_eq. destruct expires as [e |]; [|done].
  by rewrite (proj2 (Z.ltb_lt _ _) He).
Qed.

(** X20.  After [TokenManager.blacklistToken] on a Redis that answers,
    [verifyToken] throws [Token has been revoked] for that token, whatever
    [jwt.verify] would say, for as long as the key lives: less than
    [expirySeconds] seconds (seven days when none is given), and for good
    when [expirySeconds] is [0], which makes the key one without expiry. *)
Theorem blacklisted_token_is_refused jwt token expirySeconds r dt :
  let seconds := default TOKEN_EXPIRY expirySeconds in
  redis_up r = true →
  (0 ≤ dt)%Z → (seconds = 0 ∨ dt < seconds)%Z →
  let r1 := (TokenManager.blacklistToken token expirySeconds r).1 in
  TokenManager.verifyToken OnClass jwt token (later dt r1)
  = (later dt r1, Err (ErrorObj "Token has been revoked")).
Proof.
  intros seconds Hup Hdt Hs r1.
  assert (Hlive : live_value (BLACKLIST_PREFIX +:+ Js.to_string token) (later dt r1)
                  = Some "true").
  { subst r1. unfold TokenManager.blacklistToken, redis_set. fold seconds.
    rewrite Hup. cbn [negb fst].
    destruct (seconds =? 0)%Z eqn:H0; [by apply live_value_insert|].
    apply Z.eqb_neq in H0.
    destruct (seconds <? 0)%Z eqn:Hneg; [apply Z.ltb_lt in Hneg; lia|].
    apply live_value_insert; [done | simpl; lia]. }
  unfold TokenManager.verifyToken. rewrite isTokenBlacklisted_spec, Hlive.
  assert (Hup' : redis_up (later dt r1) = true).
  { subst r1. unfold TokenManager.blacklistToken, redis_set, later. simpl.
    rewrite Hup. simpl. by repeat case_match. }
  rewrite Hup'. by rewrite bool_decide_true by by eexists.
Qed.

(** X21.  When Redis does not answer, [TokenManager.blacklistToken]
    returns all the same and has blacklisted nothing, and [verifyToken]
    answers what [verifyAccessToken] answers: the token of a logout made
    then stays good until it expires by itself. *)
Theorem blacklist_fails_open jwt token expirySeconds r :
  redis_up r = false →
  TokenManager.blacklistToken token expirySeconds r = (r, Ok tt)
  ∧ TokenManager.verifyToken OnClass jwt token r = (r, verifyAccessToken jwt token)
  ∧ TokenManager.isTokenBlacklisted token r = (r, false).
Proof.
  intros Hup. unfold TokenManager.blacklistToken, TokenManager.verifyToken.
  rewrite isTokenBlacklisted_spec. unfold redis_set. by rewrite Hup.
Qed.

Lemma refreshAccessToken_Ok jwt token r r' tokens :
  TokenManager.refreshAccessToken jwt token r = (r', Ok tokens) →
  ∃ p,
    jwt_verify jwt RefreshSecret token = Verified p (JStr "refresh")
    ∧ redis_up r = true
    ∧ (∃ s, token = JStr s ∧ s ≠ ""
            ∧ live_value (REFRESH_TOKEN_PREFIX +:+ jwt_userId p) r = Some s)
    ∧ TokenManager.generateTokens jwt p r = (r', Ok tokens).
Proof.
  unfold TokenManager.refreshAccessToken, verifyRefreshToken.
  destruct (verifyTyped RefreshSecret "refresh" jwt token) as [p | e] eqn:Hv;
    [|done].
  apply verifyTyped_Ok in Hv. unfold redis_get.
  destruct (redis_up r) eqn:Hup; [|done]. cbn [negb].
  destruct (live_value _ r) as [stored |] eqn:Hl; [|done].
  destruct (negb (Js.truthy (JStr stored)) || negb (is_string stored token))
    eqn:Hc; [done|].
  apply orb_false_iff in Hc as [Ht Hs].
  apply negb_false_iff in Ht, Hs. apply is_string_spec in Hs as ->.
  destruct (TokenManager.generateTokens jwt p r) as [r2 [tk | e]] eqn:Hg; [|done].
  intros [= <- <-]. exists p. split_and!; try done.
  exists stored. split_and!; try done.
  simpl in Ht. apply negb_true_iff in Ht. by apply String.eqb_neq in Ht.
Qed.

Lemma generateTokens_Ok jwt p r r' tokens :
  TokenManager.generateTokens jwt p r = (r', Ok tokens) →
  redis_up r' = true
  ∧ redis_now r' = redis_now r
  ∧ redis_keys r' = <[REFRESH_TOKEN_PREFIX +:+ jwt_userId p :=
                       (refreshToken tokens,
                        Some (redis_now r + 30 * 24 * 60 * 60)%Z)]> (redis_keys r)
  ∧ jwt_sign jwt AccessSecret p "access" = Ok (accessToken tokens)
  ∧ jwt_sign jwt RefreshSecret p "refresh" = Ok (refreshToken tokens).
Proof.
  unfold TokenManager.generateTokens, generateAccessToken, generateRefreshToken,
    generateTyped.
  destruct (jwt_sign jwt AccessSecret p "access") as [a | e]; [|done].
  destruct (jwt_sign jwt RefreshSecret p "refresh") as [b | e]; [|done].
  unfold redis_set. destruct (redis_up r) eqn:Hup; [|done]. simpl.
  by intros [= <- <-].
Qed.

(** X22.  [TokenManager.refreshAccessToken] returns tokens only for a
    token that [jwt.verify] with the refresh secret decodes with [type]
    ['refresh'] and that is the live value of the user's [refresh_token:]
    key; the tokens are the ones [jwt.sign] gave for the decoded identity,
    and the new refresh token has replaced the old one under the key, for
    thirty days.  Every failure leaves as [Token refresh failed]. *)
Theorem refresh_needs_the_stored_token jwt token r :
  let out := TokenManager.refreshAccessToken jwt token r in
  match out.2 with
  | Ok tokens =>
      ∃ p s,
        jwt_verify jwt RefreshSecret token = Verified p (JStr "refresh")
        ∧ token = JStr s
        ∧ live_value (REFRESH_TOKEN_PREFIX +:+ jwt_userId p) r = Some s
        ∧ jwt_sign jwt AccessSecret p "access" = Ok (accessToken tokens)
        ∧ jwt_sign jwt RefreshSecret p "refresh" = Ok (refreshToken tokens)
        ∧ redis_keys out.1 !! (REFRESH_TOKEN_PREFIX +:+ jwt_userId p)
          = Some (refreshToken tokens, Some (redis_now r + 30 * 24 * 60 * 60)%Z)
  | Err e => e = ErrorObj "Token refresh failed"
  end.
Proof.
  intros out. subst out.
  destruct (TokenManager.refreshAccessToken jwt token r) as [r' [tokens | e]] eqn:E.
  - apply refreshAccessToken_Ok in E as (p & Hv & Hup & (s & -> & Hs & Hl) & Hg).
    apply generateTokens_Ok in Hg as (_ & _ & Hk & Ha & Hr).
    exists p, s. simpl. split_and!; try done. by rewrite Hk, lookup_insert_eq.
  - simpl. revert E.
    unfold TokenManager.refreshAccessToken.
    repeat case_match; by intros [= <- <-].
Qed.

(** X23.  After [TokenManager.revokeRefreshToken] has returned for a user,
    [refreshAccessToken] refuses every refresh token of that user, however
    well signed and at whatever later time, until new tokens are generated
    for the user. *)
Theorem revoked_refresh_token_is_refused jwt userId token r r1 p dt :
  TokenManager.revokeRefreshToken userId r = (r1, Ok tt) →
  verifyRefreshToken jwt token = Ok p → jwt_userId p = userId →
  (TokenManager.refreshAccessToken jwt token (later dt r1)).2
  = Err (ErrorObj "Token refresh failed").
Proof.
  unfold TokenManager.revokeRefreshToken, redis_delete.
  destruct (redis_up r) eqn:Hup; [|done]. simpl. intros [= <-] Hv <-.
  unfold TokenManager.refreshAccessToken. rewrite Hv.
  unfold redis_get, later, with_keys, live_value. simpl. rewrite Hup. simpl.
  by rewrite lookup_delete_eq.
Qed.

(** X24.  Refresh tokens are for one use: once [refreshAccessToken] has
    returned tokens for a refresh token, the same refresh token is refused
    from then on, provided the new refresh token differs from it. *)
Theorem refresh_token_is_single_use jwt token r r1 tokens dt :
  TokenManager.refreshAccessToken jwt token r = (r1, Ok tokens) →
  token ≠ JStr (refreshToken tokens) →
  (TokenManager.refreshAccessToken jwt token (later dt r1)).2
  = Err (ErrorObj "Token refresh failed").
Proof.
  intros E Hne.
  apply refreshAccessToken_Ok in E as (p & Hv & Hup & (s & -> & Hs & Hl) & Hg).
  apply generateTokens_Ok in Hg as (Hup1 & _ & Hk & _ & _).
  apply verifyTyped_Ok in Hv.
  unfold TokenManager.refreshAccessToken, verifyRefreshToken. rewrite Hv.
  assert (Hs' : is_string (refreshToken tokens) (JStr s) = false).
  { apply not_true_iff_false. intros [= ->]%is_string_spec. done. }
  unfold redis_get, later, live_value.
  cbn [redis_up redis_now redis_keys]. rewrite Hup1, Hk, lookup_insert_eq.
  cbn [negb]. destruct (_ <? _)%Z; [|done]. rewrite Hs'. cbn [negb].
  by rewrite orb_true_r.
Qed.

End TokenManagerFacts.

(** ** The REST services and the rooms *)

Section RestFacts.

Context {DB : Type} `{!Collaborators DB} `{!Repositories DB}.

Local Abbreviation M := (@M DB) (only parsing).

Implicit Types (st : Server DB).

Lemma strict_eq_spec a b : strict_eq a b = true → a = b.
Proof.
  destruct a, b; simpl; try done.
  - by intros ->%Bool.eqb_prop.
  - by intros ->%String.eqb_eq.
Qed.

Lemma ask_inv {A} (f : DB -> DB * Result A) st st' t res :
  ask f st = (st', t, res) →
  ∃ d, f (db st) = (d, res)
       ∧ st' = {| db := d; sockets := sockets st; rooms := rooms st;
                  clock := clock st |}
       ∧ t = [].
Proof.
  unfold ask. destruct (f (db st)) as [d r]. intros [= <- <- <-]. by exists d.
Qed.

(** X25.  [MessageService.deleteMessage] deletes for the sender only: if
    it has called [messageRepository.delete] (the store is not as
    [findById] left it) or has emitted an event, then [findById] gave a
    message whose [senderId] is the requesting user; and the one event it
    emits is [message:deleted] with the id, to the room of the message's
    channel.  It never changes a room or a socket. *)
Theorem deleteMessage_by_the_sender_only messageId userId st :
  let r := deleteMessage messageId userId st in
  let found := messageFindById messageId (db st) in
  (db (state_of r) ≠ found.1 ∨ trace_of r ≠ [] →
   ∃ m, found.2 = Ok (Some m) ∧ msg_senderId m = userId
        ∧ db (state_of r) = (messageDelete messageId found.1).1
        ∧ (∀ to name p, Emitted to name p ∈ trace_of r →
             to = members ("channel:" +:+ Js.to_string (msg_channelId m)) st
             ∧ name = "message:deleted"
             ∧ p = PObj [("messageId", messageId)]))
  ∧ rooms (state_of r) = rooms st
  ∧ sockets (state_of r) = sockets st.
Proof.
  intros r found. subst r found. unfold deleteMessage.
  match goal with |- context [bind ?m ?k st] =>
    destruct (bind m k st) as [[st' t] res] eqn:E end.
  unfold state_of, trace_of. simpl.
  apply bind_inv in E as [(e & E & ->) | (st1 & t1 & message & t2 & E & E2 & ->)];
    apply ask_inv in E as (d1 & Hfind & -> & ->); rewrite Hfind; simpl.
  { split_and!; try done. by intros [? | ?]. }
  destruct message as [m |]; simpl in E2.
  2:{ inversion E2; subst. simpl. split_and!; try done. by intros [? | ?]. }
  destruct (strict_eq (msg_senderId m) userId) eqn:Hsender; simpl in E2.
  2:{ inversion E2; subst. simpl. split_and!; try done. by intros [? | ?]. }
  apply strict_eq_spec in Hsender.
  apply bind_inv in E2 as [(e & E & ->) | (st2 & t2' & b & t3 & E & E3 & ->)];
    apply ask_inv in E as (d2 & Hdel & -> & ->); simpl in *.
  - split_and!; try done. intros _. exists m. rewrite Hdel. split_and!; try done.
    by intros ??? ?%elem_of_nil.
  - unfold emitToChannel, io_to_emit, members in E3. inversion E3; subst.
    simpl. split_and!; try done. intros _. exists m. rewrite Hdel.
    split_and!; try done.
    intros to name p Hin. split_elem Hin. done.
Qed.

(** X26.  [ChannelService.joinChannel] adds a member only to a channel
    that exists and is not private: if it has called [addMember] (the
    store is not as [findById] left it) or has emitted an event, then
    [findById] gave a channel whose type is not [PRIVATE].  It never puts a
    socket in a room: the sockets of the new member are not in the
    channel's room unless they were, so they do not get the
    [channel:member_joined] that is emitted. *)
Theorem joinChannel_refuses_private_channels channelId userId st :
  let r := joinChannel channelId userId st in
  let found := channelFindById channelId (db st) in
  (db (state_of r) ≠ found.1 ∨ trace_of r ≠ [] →
   ∃ c, found.2 = Ok (Some c) ∧ row_type c ≠ PRIVATE
        ∧ db (state_of r) = (addMember channelId userId found.1).1)
  ∧ (∀ to name p, Emitted to name p ∈ trace_of r →
       to = members ("channel:" +:+ Js.to_string channelId) st
       ∧ name = "channel:member_joined" ∧ p = PObj [("userId", userId)])
  ∧ rooms (state_of r) = rooms st
  ∧ sockets (state_of r) = sockets st.
Proof.
  intros r found. subst r found. unfold joinChannel.
  match goal with |- context [bind ?m ?k st] =>
    destruct (bind m k st) as [[st' t] res] eqn:E end.
  unfold state_of, trace_of. simpl.
  apply bind_inv in E as [(e & E & ->) | (st1 & t1 & channel & t2 & E & E2 & ->)];
    apply ask_inv in E as (d1 & Hfind & -> & ->); rewrite Hfind; simpl.
  { split_and!; try done; [by intros [? | ?] | by intros ??? ?%elem_of_nil]. }
  destruct channel as [c |]; simpl in E2.
  2:{ inversion E2; subst. simpl.
      split_and!; try done; [by intros [? | ?] | by intros ??? ?%elem_of_nil]. }
  destruct (row_type c) eqn:Htype.
  2:{ inversion E2; subst. simpl.
      split_and!; try done; [by intros [? | ?] | by intros ??? ?%elem_of_nil]. }
  all: apply bind_inv in E2
         as [(e & E & ->) | (st2 & t2' & [] & t3 & E & E3 & ->)];
       apply ask_inv in E as (d2 & Hadd & -> & ->); simpl in *;
       [ split_and!; try done;
         [ intros _; exists c; rewrite Hadd, Htype; by split_and!
         | by intros ??? ?%elem_of_nil ]
       | unfold emitToChannel, io_to_emit, members in E3; inversion E3; subst;
         simpl; split_and!; try done;
         [ intros _; exists c; rewrite Hadd, Htype; by split_and!
         | intros to name p Hin; split_elem Hin; done ] ].
Qed.

(** X27.  [ChannelService.leaveChannel] takes no socket out of a room:
    after it has returned, a message sent to the channel still goes to the
    sockets that were in the channel's room before, those of the user who
    left included. *)
Theorem leaveChannel_keeps_the_sockets_in_the_room
    channelId userId senderId content type st :
  let left := leaveChannel channelId userId st in
  let room := "channel:" +:+ Js.to_string channelId in
  let sent := sendMessage senderId channelId content type (state_of left) in
  rooms (state_of left) = rooms st
  ∧ sockets (state_of left) = sockets st
  ∧ emissions (trace_of sent) =
      match result_of sent with
      | Ok m => [Emitted (members room st) "message:new" (PEntity m)]
      | Err _ => []
      end.
Proof.
  intros left room sent.
  assert (Hleft : rooms (state_of left) = rooms st
                  ∧ sockets (state_of left) = sockets st).
  { subst left. unfold leaveChannel, bind, ask, emitToChannel, io_to_emit, state_of.
    by destruct (removeMember channelId userId (db st)) as [d [[] | e]]. }
  destruct Hleft as [Hr Hs]. split_and!; try done.
  destruct (sendMessage_outcome senderId channelId content type (state_of left))
    as (He & _).
  cbv zeta in He. subst sent. rewrite He. unfold members. by rewrite Hr.
Qed.

End RestFacts.

(** ** The stored presence, in the in-memory instance *)

Section MemPresenceFacts.

Import Mem.

(** X28.  With the in-memory repositories and no failing call, the stored
    presence of a user who has a row is decided by the last connection or
    disconnection of one of the user's sockets, not by how many are
    connected: an accepted handshake of the user stores [true], the
    disconnection of any socket of the user stores [false], also while
    other sockets of the user are connected, and nothing else changes
    it. *)
Theorem stored_presence_is_the_last_write i u (st : Server MemDB) :
  fault_free st → is_Some (stored_online u st) →
  stored_online u (state_of (step i st)) =
    match i with
    | Connect _ hs =>
        match verifyToken (handshake_token hs) (db st) with
        | (_, Ok decoded) =>
            if Js.truthy (handshake_token hs) && bool_decide (jwt_userId decoded = u)
            then Some true else stored_online u st
        | (_, Err _) => stored_online u st
        end
    | Packet _ _ _ => stored_online u st
    | Disconnect sid =>
        match sockets st !! sid with
        | Some socket =>
            if bool_decide (sock_userId socket = Some u)
            then Some false else stored_online u st
        | None => stored_online u st
        end
    end.
Proof.
  intros Hff Hrow. unfold stored_online in *.
  destruct i as [sid hs | sid name data | sid].
  - pose proof (refused_connection sid hs st) as Href. cbv zeta in Href.
    destruct Href as [Hno Hbad].
    destruct (verifyToken (handshake_token hs) (db st)) as [d res] eqn:Hverify.
    pose proof (verifyToken_db _ _ _ _ Hverify) as ->.
    destruct (Js.truthy (handshake_token hs)) eqn:Htoken.
    + destruct res as [decoded | e]; [|by rewrite (Hbad (db st) e)].
      destruct (mem_connect_accepted sid hs st decoded Hff Htoken Hverify)
        as (d' & r & -> & Ho & _).
      unfold state_of. simpl. rewrite Ho. case_bool_decide as Hu.
      * subst u. by apply online_after_same.
      * by apply online_after_other.
    + rewrite Hno by done. by destruct res.
  - unfold step. destruct (sockets st !! sid) as [socket |]; [|done].
    by destruct (keeps_presence_dispatch socket name data st) as [-> _].
  - destruct (sockets st !! sid) as [socket |] eqn:Hsock;
      [|by unfold step; rewrite Hsock].
    destruct (mem_disconnect sid socket st Hff Hsock) as (d' & r & -> & _ & Ho).
    unfold state_of. simpl. rewrite Ho.
    destruct (sock_userId socket) as [v |].
    + case_bool_decide as Hu.
      * injection Hu as ->. by apply online_after_same.
      * apply online_after_other. by intros ->.
    + by rewrite bool_decide_false.
Qed.

End MemPresenceFacts.

(** ** More of [ValidationUtil]: card numbers and duplicates *)

Section ValidationFacts.

Import Validation.

Lemma list_ascii_app (s1 s2 : string) :
  list_ascii_of_string (s1 +:+ s2)
  = list_ascii_of_string s1 ++ list_ascii_of_string s2.
Proof. induction s1 as [| c s1 IH]; simpl; by rewrite ?IH. Qed.

Lemma digit_not_space c : is_digit c = true → is_space c = false.
Proof.
  unfold is_digit, is_space. cbv zeta.
  intros [H1%Nat.leb_le H2%Nat.leb_le]%andb_true_iff.
  apply orb_false_iff. split.
  - apply Nat.eqb_neq. lia.
  - apply andb_false_iff. right. apply Nat.leb_gt. lia.
Qed.

Lemma digit_value_inj c c' :
  is_digit c = true → is_digit c' = true →
  digit_value c = digit_value c' → c = c'.
Proof.
  unfold is_digit, digit_value. cbv zeta.
  intros [H1%Nat.leb_le H2%Nat.leb_le]%andb_true_iff
         [H3%Nat.leb_le H4%Nat.leb_le]%andb_true_iff Heq.
  rewrite <- (ascii_nat_embedding c), <- (ascii_nat_embedding c').
  f_equal. lia.
Qed.

Lemma digit_value_bound c : is_digit c = true → (digit_value c ≤ 9)%nat.
Proof.
  unfold is_digit, digit_value. cbv zeta.
  intros [H1%Nat.leb_le H2%Nat.leb_le]%andb_true_iff. lia.
Qed.

Lemma luhn_loop_add digits isEven s1 s2 :
  luhn_loop digits isEven (s1 + s2) = (s1 + luhn_loop digits isEven s2)%nat.
Proof.
  revert isEven s1 s2.
  induction digits as [| c digits IH]; intros isEven s1 s2; simpl; [done|].
  rewrite <- Nat.add_assoc. apply IH.
Qed.

Lemma luhn_loop_acc digits isEven sum :
  luhn_loop digits isEven sum = (sum + luhn_loop digits isEven 0)%nat.
Proof. rewrite <- (Nat.add_0_r sum) at 1. apply luhn_loop_add. Qed.

Lemma luhn_loop_app xs ys isEven sum :
  ∃ b, ∀ c,
    luhn_loop (xs ++ c :: ys) isEven sum
    = (luhn_loop xs isEven sum + luhn_loop [c] b 0
       + luhn_loop ys (negb b) 0)%nat.
Proof.
  revert isEven sum. induction xs as [| x xs IH]; intros isEven sum.
  - exists isEven. intros c. simpl. rewrite luhn_loop_acc. lia.
  - destruct (IH (negb isEven) 0%nat) as [b Hb]. exists b. intros c. simpl.
    rewrite !(luhn_loop_acc _ _ (sum + _)%nat), Hb. simpl. lia.
Qed.

Lemma luhn_single c b :
  luhn_loop [c] b 0
  = if b then (if (9 <? digit_value c * 2)%nat then (digit_value c * 2 - 9)%nat
               else (digit_value c * 2)%nat)
    else digit_value c.
Proof. reflexivity. Qed.

Lemma luhn_digit_inj b c c' :
  is_digit c = true → is_digit c' = true → c ≠ c' →
  luhn_loop [c] b 0 ≠ luhn_loop [c'] b 0
  ∧ (luhn_loop [c] b 0 ≤ 9)%nat ∧ (luhn_loop [c'] b 0 ≤ 9)%nat.
Proof.
  intros Hc Hc' Hne.
  pose proof (digit_value_bound c Hc) as Hb.
  pose proof (digit_value_bound c' Hc') as Hb'.
  assert (Hv : digit_value c ≠ digit_value c')
    by (intros Heq; by apply Hne, digit_value_inj).
  rewrite !luhn_single.
  set (d := digit_value c) in *. set (d' := digit_value c') in *.
  clearbody d d'. destruct b; [|lia].
  destruct (Nat.ltb_spec 9 (d * 2)), (Nat.ltb_spec 9 (d' * 2)); lia.
Qed.

(** X29.  [isValidCreditCard] catches every single wrong digit: if a
    number passes, the number with one of its digits replaced by another
    digit does not. *)
Theorem one_wrong_digit_is_caught pre c c' post :
  is_digit c = true → is_digit c' = true → c ≠ c' →
  isValidCreditCard (pre +:+ String c post) = true →
  isValidCreditCard (pre +:+ String c' post) = false.
Proof.
  intros Hc Hc' Hne. unfold isValidCreditCard. cbv zeta.
  rewrite !list_ascii_app. cbn [list_ascii_of_string].
  rewrite !List.filter_app. cbn [List.filter].
  rewrite (digit_not_space c Hc), (digit_not_space c' Hc'). cbn [negb].
  set (A := List.filter _ (list_ascii_of_string pre)).
  set (B := List.filter _ (list_ascii_of_string post)).
  rewrite !forallb_app. cbn [forallb]. rewrite Hc, Hc'. rewrite !length_app.
  cbn [length]. destruct (negb _); [done|].
  rewrite !rev_app_distr. cbn [rev]. rewrite <- !app_assoc. cbn [app].
  destruct (luhn_loop_app (rev B) (rev A) false 0%nat) as [b Hb].
  rewrite !Hb.
  destruct (luhn_digit_inj b c c' Hc Hc' Hne) as (Hd & H9 & H9').
  set (K := luhn_loop (rev B) false 0) in *.
  set (L := luhn_loop (rev A) (negb b) 0) in *.
  set (x := luhn_loop [c] b 0) in *. set (y := luhn_loop [c'] b 0) in *.
  clearbody K L x y.
  intros Hvalid%Nat.eqb_eq. apply Nat.eqb_neq. intros Hvalid'.
  apply Nat.Div0.mod_divides in Hvalid as [q Hq].
  apply Nat.Div0.mod_divides in Hvalid' as [q' Hq']. lia.
Qed.

Section Duplicates.

Context {T : Type} `{EqDecision T}.

Lemma to_set_spec (arr seen : list T) :
  NoDup seen →
  NoDup (to_set arr seen)
  ∧ (∀ x, x ∈ to_set arr seen ↔ x ∈ seen ∨ x ∈ arr)
  ∧ (length (to_set arr seen) ≤ length seen + length arr)%nat
  ∧ (length (to_set arr seen) = (length seen + length arr)%nat →
     to_set arr seen = seen ++ arr)
  ∧ (NoDup (seen ++ arr) → to_set arr seen = seen ++ arr).
Proof.
  revert seen. induction arr as [| x arr IH]; intros seen Hseen; simpl.
  - rewrite app_nil_r. split_and!; try done; [|lia].
    intros x. split; [by left|]. by intros [? | ?%elem_of_nil].
  - case_bool_decide as Hin.
    + destruct (IH seen Hseen) as (Hnd & Hel & Hlen & _ & _).
      split_and!; try done.
      * intros y. rewrite Hel, elem_of_cons. naive_solver.
      * lia.
      * lia.
      * intros Hd. apply NoDup_app in Hd as (_ & Hd & _).
        exfalso. apply (Hd x Hin). by left.
    + assert (Hseen' : NoDup (seen ++ [x])).
      { apply NoDup_app. split_and!; [done | | apply NoDup_singleton].
        intros y Hy ->%list_elem_of_singleton. done. }
      destruct (IH _ Hseen') as (Hnd & Hel & Hlen & Heq & Hnodup).
      rewrite length_app in Hlen, Heq. simpl in Hlen, Heq.
      split_and!; try done.
      * intros y. rewrite Hel, elem_of_app, list_elem_of_singleton, elem_of_cons.
        naive_solver.
      * lia.
      * intros Hl. rewrite Heq by lia. by rewrite <- app_assoc.
      * intros Hd. rewrite Hnodup; rewrite <- app_assoc; done.
Qed.

(** X30.  [removeDuplicates] gives the elements of the array, each once,
    and is the array itself exactly when [hasDuplicates] says [false];
    [hasDuplicates] says [false] exactly when no element comes twice; the
    result of [removeDuplicates] has no duplicates and is left as it is by
    a second [removeDuplicates]. *)
Theorem removeDuplicates_and_hasDuplicates (arr : list T) :
  NoDup (removeDuplicates arr)
  ∧ (∀ x, x ∈ removeDuplicates arr ↔ x ∈ arr)
  ∧ (hasDuplicates arr = false ↔ NoDup arr)
  ∧ (hasDuplicates arr = false ↔ removeDuplicates arr = arr)
  ∧ hasDuplicates (removeDuplicates arr) = false
  ∧ removeDuplicates (removeDuplicates arr) = removeDuplicates arr.
Proof.
  unfold removeDuplicates, hasDuplicates.
  destruct (to_set_spec arr [] (NoDup_nil_2)) as (Hnd & Hel & Hlen & Heq & Hnodup).
  simpl in *.
  assert (Hiff : (length (to_set arr []) =? length arr)%nat = true ↔ NoDup arr).
  { rewrite Nat.eqb_eq. split.
    - intros Hl. by rewrite <- (Heq Hl).
    - intros Hd. by rewrite (Hnodup Hd). }
  assert (Hself : to_set (to_set arr []) [] = to_set arr []).
  { by destruct (to_set_spec (to_set arr []) [] (NoDup_nil_2))
      as (_ & _ & _ & _ & ->). }
  split_and!; try done.
  - intros x. rewrite Hel. split; [by intros [?%elem_of_nil | ?] | by right].
  - by rewrite negb_false_iff.
  - rewrite negb_false_iff, Hiff. split; [apply Hnodup|]. by intros <-.
  - by rewrite Hself, Nat.eqb_refl.
Qed.

End Duplicates.

End ValidationFacts.

(** ** The theorems at work on the in-memory deployment *)

Section Instances.

Import Mem Scenarios.

Lemma alice_connected_reachable : reachable alice_connected.
Proof.
  apply reachable_step; [apply reachable_start; reflexivity | reflexivity].
Defined.

Lemma second_disconnect_is_a_noop_witness :
  reachable alice_connected
  ∧ Forall (λ i, ∀ hs, i ≠ Connect "A" hs) [Connect "B" (with_token "tok-bob")]
  ∧ step (Disconnect "A")
      (state_of (run [Connect "B" (with_token "tok-bob")]
                   (state_of (step (Disconnect "A") alice_connected))))
    = (state_of (run [Connect "B" (with_token "tok-bob")]
                   (state_of (step (Disconnect "A") alice_connected))),
       [], Ok tt).
Proof.
  assert (Hrest : Forall (λ i, ∀ hs, i ≠ Connect "A" hs)
                    [Connect "B" (with_token "tok-bob")]).
  { apply Forall_cons. split; [intros hs; discriminate | apply Forall_nil_2]. }
  split_and!; [exact alice_connected_reachable | exact Hrest |].
  exact (proj1 (second_disconnect_is_a_noop "A" [Connect "B" (with_token "tok-bob")]
                  alice_connected alice_connected_reachable Hrest)).
Defined.

Lemma connection_joins_the_users_rooms_witness :
  updateOnlineStatus (JStr "u1") true (db (server0 no_fault))
  = ((updateOnlineStatus (JStr "u1") true (db (server0 no_fault))).1, Ok tt)
  ∧ result_of (handleConnection (alice_socket "A") (server0 no_fault)) = Ok tt.
Proof.
  assert (Hupd : updateOnlineStatus (nonnull (sock_userId (alice_socket "A"))) true
                   (db (server0 no_fault))
                 = ((updateOnlineStatus (JStr "u1") true (db (server0 no_fault))).1,
                    Ok tt))
    by (vm_compute; reflexivity).
  assert (Hfind : findUserChannels (nonnull (sock_userId (alice_socket "A")))
                    (updateOnlineStatus (JStr "u1") true (db (server0 no_fault))).1
                  = ((updateOnlineStatus (JStr "u1") true (db (server0 no_fault))).1,
                     Ok [{| channel_id := "r1" |}]))
    by (vm_compute; reflexivity).
  split; [exact Hupd|].
  exact (proj1 (connection_joins_the_users_rooms (alice_socket "A")
                  (server0 no_fault) _ _ _ Hupd Hfind)).
Defined.

Lemma failed_presence_write_is_not_announced_witness :
  Called (UpdateOnlineStatus (JStr "u1") true)
    (Some (ErrorObj "Connection terminated unexpectedly"))
  ∈ trace_of (handleConnection (alice_socket "A") (server0 presence_write_fails))
  ∧ emissions (trace_of (handleConnection (alice_socket "A")
                           (server0 presence_write_fails))) = [].
Proof.
  assert (H : Called (UpdateOnlineStatus (JStr "u1") true)
                (Some (ErrorObj "Connection terminated unexpectedly"))
              ∈ trace_of (handleConnection (alice_socket "A")
                            (server0 presence_write_fails)))
    by (vm_compute; apply list_elem_of_here).
  split; [exact H|].
  exact (proj1 (proj2 (failed_presence_write_is_not_announced (alice_socket "A")
                         (server0 presence_write_fails) true _ _ H))).
Defined.

Lemma payload_type_error_is_not_caught_witness :
  sockets alice_connected !! "A" = Some (alice_socket "A")
  ∧ step (Packet "A" "message:typing" JUndefined) alice_connected
    = (alice_connected, [], Err (Js.destructure_error "channelId" JUndefined)).
Proof.
  assert (Hsock : sockets alice_connected !! "A" = Some (alice_socket "A"))
    by (vm_compute; reflexivity).
  assert (Hname : "message:typing"
                  ∈ ["message:typing"; "message:read"; "presence:update"])
    by apply list_elem_of_here.
  split; [exact Hsock|].
  exact (payload_type_error_is_not_caught "A" (alice_socket "A") "message:typing"
           JUndefined alice_connected Hsock Hname (or_introl eq_refl)).
Defined.

Lemma user_sockets_are_the_live_connections_witness :
  reachable alice_connected
  ∧ (isUserOnline "u1" alice_connected = true ↔ ∃ sid, live "u1" sid alice_connected).
Proof.
  split; [exact alice_connected_reachable|].
  exact (proj1 (proj2 (proj2 (user_sockets_are_the_live_connections
                                alice_connected "u1" "notification:new" (PObj [])
                                alice_connected_reachable)))).
Defined.

Lemma rooms_hold_connected_sockets_only_witness :
  reachable alice_connected
  ∧ "A" ∈ members "channel:r1" alice_connected
  ∧ "A" ∈ dom (sockets alice_connected).
Proof.
  assert (Hin : "A" ∈ members "channel:r1" alice_connected)
    by (vm_compute; reflexivity).
  split_and!; [exact alice_connected_reachable | exact Hin |].
  exact (rooms_hold_connected_sockets_only alice_connected "channel:r1" "A"
           alice_connected_reachable Hin).
Defined.

Lemma events_go_to_connected_sockets_witness :
  reachable alice_connected
  ∧ Emitted (dom (sockets alice_connected)) "user:presence"
      (PStamped [("userId", JStr "u1"); ("status", JStr "away")] 1000)
    ∈ trace_of (step (Packet "A" "presence:update" (JObj [("status", JStr "away")]))
                  alice_connected)
  ∧ dom (sockets alice_connected)
    ⊆ dom (sockets (state_of (step (Packet "A" "presence:update"
                                      (JObj [("status", JStr "away")]))
                                alice_connected))).
Proof.
  assert (Hin : Emitted (dom (sockets alice_connected)) "user:presence"
                  (PStamped [("userId", JStr "u1"); ("status", JStr "away")] 1000)
                ∈ trace_of (step (Packet "A" "presence:update"
                                    (JObj [("status", JStr "away")]))
                              alice_connected))
    by (vm_compute; apply list_elem_of_here).
  split_and!; [exact alice_connected_reachable | exact Hin |].
  exact (events_go_to_connected_sockets
           (Packet "A" "presence:update" (JObj [("status", JStr "away")]))
           alice_connected _ _ _ alice_connected_reachable I Hin).
Defined.

Lemma packets_call_the_message_path_only_witness :
  Called (IsUserMember (JStr "r1") (JStr "u1")) None
  ∈ trace_of (step (Packet "A" "message:send" (obj_send "r1" "hi")) alice_connected)
  ∧ send_call (IsUserMember (JStr "r1") (JStr "u1")) = true.
Proof.
  assert (Hin : Called (IsUserMember (JStr "r1") (JStr "u1")) None
                ∈ trace_of (step (Packet "A" "message:send" (obj_send "r1" "hi"))
                              alice_connected))
    by (vm_compute; apply list_elem_of_here).
  split; [exact Hin|].
  exact (proj2 (packets_call_the_message_path_only "A" "message:send"
                  (obj_send "r1" "hi") alice_connected _ _ Hin)).
Defined.

Lemma no_socket_without_a_verified_token_witness :
  (∀ token d, ∃ d' e,
     @verifyToken _ (Deployment.collaborators TokenManager.NoReceiver Deployment.jwt0)
       token d = (d', Err e))
  ∧ @reachable _ (Deployment.collaborators TokenManager.NoReceiver Deployment.jwt0)
      Deployment.server_start
  ∧ sockets Deployment.server_start = ∅.
Proof.
  assert (Hnever : ∀ token d, ∃ d' e,
            @verifyToken _ (Deployment.collaborators TokenManager.NoReceiver
                              Deployment.jwt0) token d = (d', Err e))
    by (intros token d; eexists _, _; reflexivity).
  assert (Hreach : @reachable _ (Deployment.collaborators TokenManager.NoReceiver
                                   Deployment.jwt0) Deployment.server_start)
    by (apply reachable_start; reflexivity).
  split_and!; [exact Hnever | exact Hreach |].
  exact (proj1 (@no_socket_without_a_verified_token _
                  (Deployment.collaborators TokenManager.NoReceiver Deployment.jwt0)
                  Deployment.server_start (Connect "A" (with_token "tok-alice"))
                  Hnever Hreach)).
Defined.

Lemma online_count_counts_connections_witness :
  reachable alice_connected
  ∧ getOnlineUsersCount
      (state_of (step (Connect "B" (with_token "tok-alice")) alice_connected))
    = S (getOnlineUsersCount alice_connected).
Proof.
  assert (Hfresh : fresh_id (Connect "B" (with_token "tok-alice")) alice_connected)
    by (vm_compute; reflexivity).
  split; [exact alice_connected_reachable|].
  exact (online_count_counts_connections (Connect "B" (with_token "tok-alice"))
           alice_connected alice_connected_reachable Hfresh).
Defined.

Lemma bearer_header_passes_the_request_only_witness :
  "tok-alice" ≠ ""
  ∧ result_of (Deployment.authenticate Deployment.jwt0 (Some "Bearer tok-alice")
                 Deployment.server_start)
    = Ok (Passed {| su_id := "u1"; su_email := "alice@example.org";
                    su_username := "alice"; su_role := "user" |} "tok-alice")
  ∧ result_of (Deployment.handshake Deployment.jwt0 (alice_socket "A")
                 {| hs_auth_token := JUndefined;
                    hs_authorization := Some "Bearer tok-alice" |}
                 Deployment.server_start)
    = Ok (NextError "Authentication failed").
Proof.
  assert (Ht : "tok-alice" ≠ "") by discriminate.
  split; [exact Ht|].
  destruct (bearer_header_passes_the_request_only Deployment.jwt0 "tok-alice"
              JUndefined (alice_socket "A") Deployment.server_start Ht eq_refl)
    as (_ & Hhttp & _ & Hws & _).
  exact (conj Hhttp Hws).
Defined.

Lemma header_without_bearer_is_refused_by_both_witness :
  String.prefix "Bearer " "tok-alice" = false
  ∧ Deployment.authenticate Deployment.jwt0 (Some "tok-alice") Deployment.server_start
    = (Deployment.server_start, [], Ok (Unauthorized "No token provided"))
  ∧ result_of (Deployment.handshake Deployment.jwt0 (alice_socket "A")
                 {| hs_auth_token := JUndefined;
                    hs_authorization := Some "tok-alice" |}
                 Deployment.server_start)
    = Ok (NextError "Authentication failed").
Proof.
  split; [reflexivity|].
  destruct (header_without_bearer_is_refused_by_both Deployment.jwt0 "tok-alice"
              JUndefined (alice_socket "A") Deployment.server_start
              eq_refl eq_refl)
    as (Hhttp & _ & Hws & _).
  exact (conj Hhttp Hws).
Defined.

Lemma blacklisted_token_is_refused_witness :
  TokenManager.redis_up Deployment.redis0 = true
  ∧ (TokenManager.verifyToken TokenManager.OnClass Deployment.jwt0 (JStr "tok-alice")
       (TokenManager.later 3600
          (TokenManager.blacklistToken (JStr "tok-alice") None Deployment.redis0).1)).2
    = Err (ErrorObj "Token has been revoked").
Proof.
  assert (Hdt : (0 ≤ 3600)%Z) by lia.
  assert (Hlive : (default TokenManager.TOKEN_EXPIRY None = 0
                   ∨ 3600 < default TokenManager.TOKEN_EXPIRY None)%Z)
    by (right; vm_compute; reflexivity).
  split; [reflexivity|].
  exact (f_equal snd
           (blacklisted_token_is_refused Deployment.jwt0 (JStr "tok-alice") None
              Deployment.redis0 3600 eq_refl Hdt Hlive)).
Defined.

Lemma blacklist_fails_open_witness :
  TokenManager.redis_up Deployment.redis_down = false
  ∧ TokenManager.verifyToken TokenManager.OnClass Deployment.jwt0 (JStr "tok-alice")
      Deployment.redis_down
    = (Deployment.redis_down,
       TokenManager.verifyAccessToken Deployment.jwt0 (JStr "tok-alice")).
Proof.
  split; [reflexivity|].
  exact (proj1 (proj2 (blacklist_fails_open Deployment.jwt0 (JStr "tok-alice") None
                         Deployment.redis_down eq_refl))).
Defined.

Lemma revoked_refresh_token_is_refused_witness :
  TokenManager.revokeRefreshToken "u1" Deployment.redis0
  = ((TokenManager.revokeRefreshToken "u1" Deployment.redis0).1, Ok tt)
  ∧ (TokenManager.refreshAccessToken Deployment.jwt0 (JStr "refresh-alice")
       (TokenManager.later 60
          (TokenManager.revokeRefreshToken "u1" Deployment.redis0).1)).2
    = Err (ErrorObj "Token refresh failed").
Proof.
  assert (Hrev : TokenManager.revokeRefreshToken "u1" Deployment.redis0
                 = ((TokenManager.revokeRefreshToken "u1" Deployment.redis0).1, Ok tt))
    by (vm_compute; reflexivity).
  split; [exact Hrev|].
  exact (revoked_refresh_token_is_refused Deployment.jwt0 "u1" (JStr "refresh-alice")
           Deployment.redis0 _ (payload_of "u1" "alice@example.org" "alice") 60
           Hrev eq_refl eq_refl).
Defined.

Lemma refresh_token_is_single_use_witness :
  TokenManager.refreshAccessToken Deployment.jwt0 (JStr "refresh-alice")
    Deployment.redis0
  = ((TokenManager.refreshAccessToken Deployment.jwt0 (JStr "refresh-alice")
        Deployment.redis0).1,
     Ok {| TokenManager.accessToken := "access-alice-2";
           TokenManager.refreshToken := "refresh-alice-2" |})
  ∧ (TokenManager.refreshAccessToken Deployment.jwt0 (JStr "refresh-alice")
       (TokenManager.later 60
          (TokenManager.refreshAccessToken Deployment.jwt0 (JStr "refresh-alice")
             Deployment.redis0).1)).2
    = Err (ErrorObj "Token refresh failed").
Proof.
  assert (Href : TokenManager.refreshAccessToken Deployment.jwt0
                   (JStr "refresh-alice") Deployment.redis0
                 = ((TokenManager.refreshAccessToken Deployment.jwt0
                       (JStr "refresh-alice") Deployment.redis0).1,
                    Ok {| TokenManager.accessToken := "access-alice-2";
                          TokenManager.refreshToken := "refresh-alice-2" |}))
    by (vm_compute; reflexivity).
  assert (Hne : JStr "refresh-alice"
                ≠ JStr (TokenManager.refreshToken
                          {| TokenManager.accessToken := "access-alice-2";
                             TokenManager.refreshToken := "refresh-alice-2" |}))
    by discriminate.
  split; [exact Href|].
  exact (refresh_token_is_single_use Deployment.jwt0 (JStr "refresh-alice")
           Deployment.redis0 _ _ 60 Href Hne).
Defined.

Lemma stored_presence_is_the_last_write_witness :
  fault_free alice_connected
  ∧ is_Some (stored_online "u1" alice_connected)
  ∧ stored_online "u1" (state_of (step (Disconnect "A") alice_connected))
    = Some false.
Proof.
  assert (Hff : fault_free alice_connected) by (intros c; reflexivity).
  assert (Hrow : is_Some (stored_online "u1" alice_connected))
    by (exists true; vm_compute; reflexivity).
  split_and!; [exact Hff | exact Hrow |].
  exact (stored_presence_is_the_last_write (Disconnect "A") "u1" alice_connected
           Hff Hrow).
Defined.

Lemma one_wrong_digit_is_caught_witness :
  Validation.isValidCreditCard "4111111111111111" = true
  ∧ Validation.isValidCreditCard "4111111111111112" = false.
Proof.
  assert (Hvalid : Validation.isValidCreditCard
                     ("411111111111111" +:+ String "1"%char "") = true)
    by (vm_compute; reflexivity).
  split; [exact Hvalid|].
  assert (Hne : "1"%char ≠ "2"%char) by discriminate.
  exact (one_wrong_digit_is_caught "411111111111111" "1"%char "2"%char ""
           eq_refl eq_refl Hne Hvalid).
Defined.

End Instances.
